(** * pico-train metrics dashboard ([plots/code.js])

    A shallow embedding of the dashboard's data pipeline: the merge of
    continuation logs ([mergeContinuationLogs]), the chart series
    ([getChartData], [getCombinedChartData]) and the run summary
    ([updateRunSummary]).

    JavaScript numbers are IEEE 754 binary64 values: losses, learning rates
    and evaluation scores are primitive floats.  Step numbers are the integer
    literals of [data.json]; they are kept in [Z], where the comparator
    [a.step - b.step] has the sign it has in JavaScript for every integer
    that a binary64 value holds exactly.

    A call that throws (a [TypeError], a [RangeError]) returns [None]. *)

From Stdlib Require Import List ZArith NArith Bool String Ascii Lia Permutation Sorted.
From Stdlib Require Import Floats DecimalString.
Import ListNotations.

Local Open Scope Z_scope.

(** * Part I: the program *)

(** ** Arrays: [sort] and [filter] *)

Section Arrays.

Context {A : Type}.

(** [Array.prototype.sort(comparefn)] is a stable sort (ECMAScript 2019 and
    later).  For a consistent comparator the result of a stable sort does not
    depend on the algorithm (see [stable_sort_unique] below); the embedding
    inserts every element, from the right, before the first element that does
    not compare below it. *)
Fixpoint sort_insert (comparefn : A -> A -> Z) (x : A) (sorted : list A) : list A :=
  match sorted with
  | [] => [x]
  | y :: rest =>
      if comparefn x y <=? 0 then x :: y :: rest
      else y :: sort_insert comparefn x rest
  end.

Fixpoint Array_sort (comparefn : A -> A -> Z) (self : list A) : list A :=
  match self with
  | [] => []
  | x :: rest => sort_insert comparefn x (Array_sort comparefn rest)
  end.

(** [Array.prototype.filter(callback)]: the callback receives the element,
    its index and the array being traversed. *)
Fixpoint filter_from (callback : A -> nat -> list A -> bool) (self : list A)
  (index : nat) (rest : list A) : list A :=
  match rest with
  | [] => []
  | x :: rest' =>
      if callback x index self
      then x :: filter_from callback self (S index) rest'
      else filter_from callback self (S index) rest'
  end.

Definition Array_filter (callback : A -> nat -> list A -> bool) (self : list A) : list A :=
  filter_from callback self 0%nat self.

Variable step : A -> Z.

(** The comparator [(a, b) => a.step - b.step]. *)
Definition by_step (a b : A) : Z := step a - step b.

(** The callback [(metric, index, self) => index === 0 ||
    metric.step !== self[index - 1].step].  [self[index - 1]] exists whenever
    [index] is not 0, so the last branch is never taken by [Array_filter]. *)
Definition first_of_step (metric : A) (index : nat) (self : list A) : bool :=
  (index =? 0)%nat ||
  match nth_error self (index - 1) with
  | Some previous => negb (step metric =? step previous)
  | None => true
  end.

(** The same filter, read as a recursion that remembers the previous step
    (proved equal to it in [Array_filter_first_occurrences]). *)
Fixpoint skip_repeats (previous : Z) (l : list A) : list A :=
  match l with
  | [] => []
  | x :: rest =>
      if step x =? previous then skip_repeats (step x) rest
      else x :: skip_repeats (step x) rest
  end.

Definition first_occurrences (l : list A) : list A :=
  match l with
  | [] => []
  | x :: rest => x :: skip_repeats (step x) rest
  end.

(** The two steps of the merge on one array: sort by step, then keep the
    first entry of every step. *)
Definition sort_dedup (l : list A) : list A :=
  Array_filter first_of_step (Array_sort by_step l).

Definition has_step (s : Z) (a : A) : bool := step a =? s.

Definition ascending : list A -> Prop :=
  StronglySorted (fun a b => step a <= step b).

Definition strictly_ascending : list A -> Prop :=
  StronglySorted (fun a b => step a < step b).

End Arrays.

(** ** The data of [data.json] *)

(** One entry of [training_metrics]. *)
Module Metric.
Record t : Type := {
  step : Z;
  loss : float;
  learning_rate : float;
  inf_nan_count : Z
}.
End Metric.

(** One entry of [evaluation_results]. *)
Module Eval.
Record t : Type := {
  step : Z;
  paloma : float
}.
End Eval.

Inductive ConfigValue : Type :=
| ConfigNumber (n : float)
| ConfigString (s : string).

(** A [config] object: its fields in the order of the document. *)
Definition Config : Type := list (string * ConfigValue).

(** A run object.  A property the code tests before use ([if
    (run.training_metrics)], [runs[0].config || {}], [run.log_files ? ...])
    is optional: [None] is a missing or null property, [Some] an array or an
    object, which is truthy even when it is empty. *)
Record Run : Type := {
  run_name : string;
  log_file : option string;
  log_files : option (list (option string));
  training_metrics : option (list Metric.t);
  evaluation_results : option (list Eval.t);
  config : option Config
}.

Record Summary : Type := {
  total_runs : Z;
  run_names : list string
}.

(** The global [trainingData]. *)
Record TrainingData : Type := {
  runs : list Run;
  summary : Summary
}.

(** ** Plain objects used as maps *)

(** [const runGroups = {}]: the object's own properties, in the order they
    were created. *)
Definition JsObject (V : Type) : Type := list (string * V).

(** The members every object literal inherits from [Object.prototype]
    (ECMAScript, with the legacy members that browsers implement).  Each is a
    function, or the prototype object itself for [__proto__]: truthy, and
    without a [push] method. *)
Definition Object_prototype_names : list string :=
  [ "constructor"; "__defineGetter__"; "__defineSetter__"; "hasOwnProperty";
    "__lookupGetter__"; "__lookupSetter__"; "isPrototypeOf";
    "propertyIsEnumerable"; "toString"; "valueOf"; "__proto__";
    "toLocaleString" ]%string.

Definition inherited (key : string) : bool :=
  existsb (String.eqb key) Object_prototype_names.

Fixpoint own_property {V : Type} (o : JsObject V) (key : string) : option V :=
  match o with
  | [] => None
  | (k, v) :: rest => if String.eqb k key then Some v else own_property rest key
  end.

(** [o[key] = v]: an own property keeps its place, a new one goes last. *)
Fixpoint set_property {V : Type} (o : JsObject V) (key : string) (v : V) : JsObject V :=
  match o with
  | [] => [(key, v)]
  | (k, old) :: rest =>
      if String.eqb k key then (k, v) :: rest
      else (k, old) :: set_property rest key v
  end.

(** The array index a property name denotes, when it is the canonical decimal
    form of an integer below 2^32 - 1. *)
Definition digit_of (c : ascii) : option N :=
  let n := N_of_ascii c in
  if ((48 <=? n) && (n <=? 57))%N then Some (n - 48)%N else None.

Fixpoint parse_digits (acc : N) (s : string) : option N :=
  match s with
  | EmptyString => Some acc
  | String c rest =>
      match digit_of c with
      | Some d => parse_digits (10 * acc + d)%N rest
      | None => None
      end
  end.

Definition array_index (key : string) : option N :=
  match key with
  | EmptyString => None
  | String c rest =>
      if (Ascii.eqb c "0" && negb (String.eqb rest ""))%bool then None
      else
        match parse_digits 0%N key with
        | Some n => if (n <? 4294967295)%N then Some n else None
        | None => None
        end
  end.

Definition is_array_index (key : string) : bool :=
  match array_index key with Some _ => true | None => false end.

Definition indexed_entry {V : Type} (entry : string * V) : list (N * (string * V)) :=
  match array_index (fst entry) with
  | Some i => [(i, entry)]
  | None => []
  end.

(** [Object.entries(o)]: the properties whose names are array indices come
    first, by ascending index; the others follow in creation order. *)
Definition Object_entries {V : Type} (o : JsObject V) : list (string * V) :=
  map snd (Array_sort (by_step (fun e : N * (string * V) => Z.of_N (fst e)))
             (flat_map indexed_entry o))
  ++ filter (fun entry => negb (is_array_index (fst entry))) o.

(** ** [mergeContinuationLogs] *)

(** The body of [trainingData.runs.forEach(run => ...)] that fills
    [runGroups].  When [baseName] names a member inherited from
    [Object.prototype], [!runGroups[baseName]] is false, no array is stored,
    and [runGroups[baseName].push] is not a function: the call throws. *)
Definition group_run (runGroups : JsObject (list Run)) (run : Run)
  : option (JsObject (list Run)) :=
  let baseName := run_name run in
  match own_property runGroups baseName with
  | Some group => Some (set_property runGroups baseName (group ++ [run]))
  | None =>
      if inherited baseName then None
      else Some (set_property runGroups baseName [run])
  end.

Fixpoint group_runs (runGroups : JsObject (list Run)) (rs : list Run)
  : option (JsObject (list Run)) :=
  match rs with
  | [] => Some runGroups
  | run :: rest =>
      match group_run runGroups run with
      | Some runGroups' => group_runs runGroups' rest
      | None => None
      end
  end.

(** [runs.forEach(run => { if (run.field) merged.push(...run.field) })]:
    what the pushes leave in [merged] when they return.  A log with more
    entries than the engine accepts as the arguments of one call makes the
    spread throw; the statements about the merge are about the list it
    returns. *)
Definition push_all {X : Type} (field : Run -> option (list X)) (group : list Run) : list X :=
  fold_left
    (fun merged run =>
       match field run with
       | Some entries => merged ++ entries
       | None => merged
       end)
    group [].

(** The [else] branch: the run that replaces a group of continuation logs.
    [runs[0]] is read for the config; a group is never empty. *)
Definition mergedRun (baseName : string) (group : list Run) : option Run :=
  match group with
  | [] => None
  | first :: _ =>
      let training := push_all training_metrics group in
      let evaluation := push_all evaluation_results group in
      let training := Array_sort (by_step Metric.step) training in
      let evaluation := Array_sort (by_step Eval.step) evaluation in
      Some {|
        run_name := baseName;
        log_file := None;
        log_files := Some (map log_file group);
        training_metrics := Some (Array_filter (first_of_step Metric.step) training);
        evaluation_results := Some (Array_filter (first_of_step Eval.step) evaluation);
        config := Some (match config first with Some c => c | None => [] end)
      |}
  end.

(** The body of [Object.entries(runGroups).forEach(([baseName, runs]) => ...)]. *)
Definition merge_entry (entry : string * list Run) : option Run :=
  let (baseName, group) := entry in
  match group with
  | [single] => Some single
  | _ => mergedRun baseName group
  end.

Fixpoint merge_entries (entries : list (string * list Run)) : option (list Run) :=
  match entries with
  | [] => Some []
  | entry :: rest =>
      match merge_entry entry, merge_entries rest with
      | Some run, Some mergedRuns => Some (run :: mergedRuns)
      | _, _ => None
      end
  end.

Definition mergeContinuationLogs (trainingData : TrainingData) : option TrainingData :=
  match group_runs [] (runs trainingData) with
  | None => None
  | Some runGroups =>
      match merge_entries (Object_entries runGroups) with
      | None => None
      | Some mergedRuns =>
          Some {| runs := mergedRuns; summary := summary trainingData |}
      end
  end.

(** ** Chart data *)

Record Point : Type := { x : Z; y : float }.

Record Dataset : Type := {
  label : string;
  data : list Point;
  borderColor : string;
  backgroundColor : string;
  borderWidth : Z;
  fill : bool;
  tension : float
}.

Definition colors : list string :=
  [ "#667eea"; "#764ba2"; "#f093fb"; "#f5576c"; "#4facfe"; "#00f2fe";
    "#43e97b"; "#38f9d7"; "#fa7093"; "#fee140"; "#a8edea"; "#fed6e3" ]%string.

(** The value of the [runSelect] control: ['all'] or the index of a run. *)
Inductive Selection : Type :=
| all
| index (i : nat).

(** [selectedRun === 'all' ? trainingData.runs : [trainingData.runs[selectedRun]]];
    an index past the end selects [undefined], and reading a property of it
    throws. *)
Definition selected_runs (selectedRun : Selection) (trainingData : TrainingData)
  : option (list Run) :=
  match selectedRun with
  | all => Some (runs trainingData)
  | index i =>
      match nth_error (runs trainingData) i with
      | Some run => Some [run]
      | None => None
      end
  end.

(** [runs.forEach((run, runIndex) => datasets.push(...))]. *)
Fixpoint forEach_push {X Y : Type} (callback : X -> nat -> list Y) (runIndex : nat)
  (l : list X) : list Y :=
  match l with
  | [] => []
  | run :: rest => callback run runIndex ++ forEach_push callback (S runIndex) rest
  end.

(** The same loop with a callback that may throw: the first throw ends the
    loop and the caller, and nothing pushed so far is returned. *)
Fixpoint forEach_push_throwing {X Y : Type} (callback : X -> nat -> option (list Y))
  (runIndex : nat) (l : list X) : option (list Y) :=
  match l with
  | [] => Some []
  | run :: rest =>
      match callback run runIndex with
      | None => None
      | Some pushed =>
          match forEach_push_throwing callback (S runIndex) rest with
          | None => None
          | Some more => Some (pushed ++ more)
          end
      end
  end.

Definition color_of (runIndex : nat) : string :=
  nth (runIndex mod List.length colors) colors ""%string.

#[warnings="-inexact-float"]
Definition line_dataset (name color background : string) (width : Z) (points : list Point)
  : Dataset :=
  {| label := name; data := points; borderColor := color;
     backgroundColor := background; borderWidth := width; fill := false;
     tension := 0.1%float |}.

Definition getChartData_run (metricType : string) (run : Run) (runIndex : nat)
  : list Dataset :=
  let color := color_of runIndex in
  if String.eqb metricType "loss" then
    match training_metrics run with
    | Some ((_ :: _) as metrics) =>
        [line_dataset (run_name run) color (color ++ "20") 2
           (map (fun m => {| x := Metric.step m; y := Metric.loss m |}) metrics)]
    | _ => []
    end
  else if String.eqb metricType "lr" then
    match training_metrics run with
    | Some ((_ :: _) as metrics) =>
        [line_dataset (run_name run) color (color ++ "20") 2
           (map (fun m => {| x := Metric.step m; y := Metric.learning_rate m |}) metrics)]
    | _ => []
    end
  else if String.eqb metricType "eval" then
    match evaluation_results run with
    | Some ((_ :: _) as results) =>
        [line_dataset (run_name run) color (color ++ "20") 2
           (map (fun m => {| x := Eval.step m; y := Eval.paloma m |}) results)]
    | _ => []
    end
  else [].

Definition getChartData (metricType : string) (selectedRun : Selection)
  (trainingData : TrainingData) : option (list Dataset) :=
  match selected_runs selectedRun trainingData with
  | Some rs => Some (forEach_push (getChartData_run metricType) 0%nat rs)
  | None => None
  end.

(** [Math.max(...values)], as ECMAScript defines it: minus infinity for no
    argument, NaN as soon as one argument is NaN, and +0 above -0. *)
Definition is_pos_zero (v : float) : bool :=
  match classify v with PZero => true | _ => false end.

Definition is_neg_zero (v : float) : bool :=
  match classify v with NZero => true | _ => false end.

Fixpoint Math_max_from (highest : float) (values : list float) : float :=
  match values with
  | [] => highest
  | number :: rest =>
      if is_nan number then nan
      else
        let highest :=
          if (is_pos_zero number && is_neg_zero highest)%bool then 0%float
          else highest in
        let highest := if (highest <? number)%float then number else highest in
        Math_max_from highest rest
  end.

Definition Math_max (values : list float) : float :=
  Math_max_from neg_infinity values.

(** [f(...array)]: every element of the array becomes one argument of the
    call.  An engine accepts only so many arguments in a call, and past its
    bound the call throws a RangeError before [f] runs.  [argumentLimit] is
    the largest number of arguments the engine accepts; it belongs to the
    engine, and the chart is stated for any value of it. *)
Definition spread_call {X Y : Type} (argumentLimit : N) (f : list X -> Y) (array : list X)
  : option Y :=
  if (N.of_nat (List.length array) <=? argumentLimit)%N then Some (f array) else None.

(** The callback of [getCombinedChartData]: the loss series is pushed first;
    the two calls [Math.max(...)] come next, and either may throw. *)
Definition getCombinedChartData_run (argumentLimit : N) (run : Run) (runIndex : nat)
  : option (list Dataset) :=
  let color := color_of runIndex in
  let loss_series :=
    match training_metrics run with
    | Some ((_ :: _) as metrics) =>
        [line_dataset (run_name run ++ " - Loss") color (color ++ "20") 2
           (map (fun m => {| x := Metric.step m; y := Metric.loss m |}) metrics)]
    | _ => []
    end in
  match training_metrics run with
  | Some ((_ :: _) as metrics) =>
      match spread_call argumentLimit Math_max (map Metric.learning_rate metrics) with
      | None => None
      | Some maxLR =>
          match spread_call argumentLimit Math_max (map Metric.loss metrics) with
          | None => None
          | Some maxLoss =>
              let scaleFactor := (maxLoss / maxLR)%float in
              Some
                (loss_series ++
                 [line_dataset (run_name run ++ " - LR (scaled)") (color ++ "80")
                    (color ++ "10") 1
                    (map (fun m => {| x := Metric.step m;
                                      y := (Metric.learning_rate m * scaleFactor)%float |})
                       metrics)])
          end
      end
  | _ => Some loss_series
  end.

Definition getCombinedChartData (argumentLimit : N) (selectedRun : Selection)
  (trainingData : TrainingData) : option (list Dataset) :=
  match selected_runs selectedRun trainingData with
  | Some rs => forEach_push_throwing (getCombinedChartData_run argumentLimit) 0%nat rs
  | None => None
  end.

(** ** The run summary *)

(** What the template of one run card interpolates, in the order of the
    markup. *)
Record RunCard : Type := {
  card_run_name : string;
  logFiles : string;
  stepRange : string;
  trainingPoints : nat;
  evalPoints : nat;
  finalLoss : string;
  finalLR : string;
  finalPaloma : string
}.

(** A step number inside a template literal.  The literal applies
    [Number::toString], which prints an integer of at most 2^53 in absolute
    value (the integers a number holds one by one) as its decimal digits;
    [step_text] is the conversion on that range.  Past it the engine prints
    the fewest digits that give the number back and, from 10^21 on, an
    exponent; the statements that read a step range are made on the range
    of [step_text]. *)
Definition step_text (s : Z) : string := NilZero.string_of_int (Z.to_int s).

(** [array.join(', ')]; a missing element joins as the empty string. *)
Fixpoint join (separator : string) (parts : list (option string)) : string :=
  match parts with
  | [] => ""
  | [part] => match part with Some s => s | None => "" end
  | part :: rest =>
      (match part with Some s => s | None => "" end ++ separator ++ join separator rest)%string
  end.

(** The global [isFinite] on a number: neither NaN nor an infinity. *)
Definition isFinite (v : float) : bool := is_finite v.

Section RunSummary.

(** [Number.prototype.toFixed] and [Number.prototype.toExponential] belong to
    the engine; the summary is stated for any pair of them. *)
Variable toFixed : float -> nat -> string.
Variable toExponential : float -> nat -> string.

Definition run_card (run : Run) : RunCard :=
  let trainingPoints :=
    match training_metrics run with Some metrics => List.length metrics | None => 0%nat end in
  let evalPoints :=
    match evaluation_results run with Some results => List.length results | None => 0%nat end in
  let '(finalLoss, finalLR, stepRange) :=
    match training_metrics run with
    | Some ((first :: _) as metrics) =>
        let last := List.last metrics first in
        (toFixed (Metric.loss last) 4,
         toExponential (Metric.learning_rate last) 2,
         (step_text (Metric.step first) ++ " → " ++ step_text (Metric.step last))%string)
    | _ => ("N/A", "N/A", "N/A")%string
    end in
  let finalPaloma :=
    match evaluation_results run with
    | Some ((first :: _) as results) =>
        let last := List.last results first in
        if isFinite (Eval.paloma last) then toExponential (Eval.paloma last) 2
        else "∞"%string
    | _ => "N/A"%string
    end in
  let logFiles :=
    match log_files run with
    | Some files => join ", " files
    | None => match log_file run with Some f => f | None => "undefined"%string end
    end in
  {| card_run_name := run_name run; logFiles := logFiles; stepRange := stepRange;
     trainingPoints := trainingPoints; evalPoints := evalPoints;
     finalLoss := finalLoss; finalLR := finalLR; finalPaloma := finalPaloma |}.

(** [updateRunSummary]: one card per selected run, in order. *)
Definition updateRunSummary (selectedRun : Selection) (trainingData : TrainingData)
  : option (list RunCard) :=
  match selected_runs selectedRun trainingData with
  | Some rs => Some (map run_card rs)
  | None => None
  end.

End RunSummary.

(** ** The run selector *)

(** One [<option>] of the [runSelect] control. *)
Record SelectOption : Type := {
  option_value : Selection;
  option_text : string
}.

(** [populateRunSelector]: the option "All Runs", then one option per run,
    whose value is the index of the run and whose text is its name. *)
Definition populateRunSelector (trainingData : TrainingData) : list SelectOption :=
  {| option_value := all; option_text := "All Runs" |}
  :: forEach_push
       (fun run i => [{| option_value := index i; option_text := run_name run |}])
       0%nat (runs trainingData).

(** ** The configuration details *)

(** A value shown for a config key: a number or a string of the document
    (the string 'N/A' for a run without the key), or the member of
    [Object.prototype] that [run.config[key]] finds for an inherited name. *)
Inductive Cell : Type :=
| CellNumber (n : float)
| CellString (s : string)
| CellInherited (name : string).

(** [Object.keys(o)]. *)
Definition Object_keys {V : Type} (o : JsObject V) : list string :=
  map fst (Object_entries o).

(** [set.add(x)] on a [Set] kept in insertion order. *)
Definition Set_add {X : Type} (same : X -> X -> bool) (set : list X) (x : X) : list X :=
  if existsb (same x) set then set else set ++ [x].

(** [[...new Set(values)]]. *)
Definition Set_of {X : Type} (same : X -> X -> bool) (values : list X) : list X :=
  fold_left (Set_add same) values [].

(** The equality of [Set] members (SameValueZero): NaN is the same as NaN,
    and the two zeros are the same. *)
Definition same_value_zero (a b : Cell) : bool :=
  match a, b with
  | CellNumber v, CellNumber w => ((v =? w)%float || (is_nan v && is_nan w))%bool
  | CellString s, CellString t => String.eqb s t
  | CellInherited n, CellInherited m => String.eqb n m
  | _, _ => false
  end.

(** [run.config[key]]: [None] is [undefined]. *)
Definition config_get (cfg : Config) (key : string) : option Cell :=
  match own_property cfg key with
  | Some (ConfigNumber n) => Some (CellNumber n)
  | Some (ConfigString s) => Some (CellString s)
  | None => if inherited key then Some (CellInherited key) else None
  end.

(** [run.config && run.config[key] !== undefined ? run.config[key] : 'N/A']. *)
Definition config_value (key : string) (run : Run) : Cell :=
  match config run with
  | Some cfg =>
      match config_get cfg key with
      | Some cell => cell
      | None => CellString "N/A"
      end
  | None => CellString "N/A"
  end.

(** [runs.forEach(run => { if (run.config) Object.keys(run.config).forEach(key
    => allKeys.add(key)) })]. *)
Definition all_config_keys (rs : list Run) : list string :=
  fold_left
    (fun allKeys run =>
       match config run with
       | Some cfg => fold_left (Set_add String.eqb) (Object_keys cfg) allKeys
       | None => allKeys
       end)
    rs [].

(** [key.replace(/_/g, ' ')]. *)
Fixpoint replace_underscores (key : string) : string :=
  match key with
  | EmptyString => EmptyString
  | String c rest =>
      String (if Ascii.eqb c "_" then " "%char else c) (replace_underscores rest)
  end.

Record ConfigItem : Type := {
  item_label : string;
  item_value : string
}.

Section ConfigDetails.

(** The conversions of the engine: a number and an inherited member inside
    a template literal or [join], and [String.prototype.toUpperCase]. *)
Variable Number_toString : float -> string.
Variable member_text : string -> string.
Variable toUpperCase : string -> string.

Definition cell_text (cell : Cell) : string :=
  match cell with
  | CellNumber n => Number_toString n
  | CellString s => s
  | CellInherited name => member_text name
  end.

(** [uniqueValues.length === 1 ? uniqueValues[0] : uniqueValues.join(' / ')],
    as the template renders it. *)
Definition displayValue (uniqueValues : list Cell) : string :=
  match uniqueValues with
  | [only] => cell_text only
  | _ => join " / " (map (fun cell => Some (cell_text cell)) uniqueValues)
  end.

Definition config_item (rs : list Run) (key : string) : ConfigItem :=
  let values := map (config_value key) rs in
  let uniqueValues := Set_of same_value_zero values in
  {| item_label := toUpperCase (replace_underscores key);
     item_value := displayValue uniqueValues |}.

(** [updateConfigDetails]: one item per key of the selected runs' configs. *)
Definition updateConfigDetails (selectedRun : Selection) (trainingData : TrainingData)
  : option (list ConfigItem) :=
  match selected_runs selectedRun trainingData with
  | Some rs => Some (map (config_item rs) (all_config_keys rs))
  | None => None
  end.

End ConfigDetails.

(** ** [formatNumber] *)

Section FormatNumber.

Variable toFixed : float -> nat -> string.
Variable Number_toString : float -> string.

Definition formatNumber (num : float) : string :=
  if (1e9 <=? num)%float then (toFixed (num / 1e9)%float 2 ++ "B")%string
  else if (1e6 <=? num)%float then (toFixed (num / 1e6)%float 2 ++ "M")%string
  else if (1e3 <=? num)%float then (toFixed (num / 1e3)%float 2 ++ "K")%string
  else Number_toString num.

End FormatNumber.

(** ** Vocabulary of the statements *)

(** The entries of an optional array: none when the property is missing. *)
Definition entries_of {X : Type} (field : option (list X)) : list X :=
  match field with Some l => l | None => [] end.

Definition name_is (name : string) (run : Run) : bool :=
  String.eqb (run_name run) name.

(** The runs of one name, in the order of the input list (discovery order). *)
Definition group_named (name : string) (rs : list Run) : list Run :=
  filter (name_is name) rs.

(** What the merge makes of the group of a name: nothing for a name no run
    bears, the run itself for a single run, [mergedRun] otherwise. *)
Definition produced (name : string) (group : list Run) (m : Run) : Prop :=
  match group with
  | [] => False
  | [single] => m = single
  | _ => mergedRun name group = Some m
  end.

(** Both series of a run are strictly increasing in step. *)
Definition strictly_increasing (run : Run) : Prop :=
  strictly_ascending Metric.step (entries_of (training_metrics run))
  /\ strictly_ascending Eval.step (entries_of (evaluation_results run)).

Definition no_inherited_name (rs : list Run) : Prop :=
  forall run, In run rs -> inherited (run_name run) = false.

(** The state of [runGroups] once the runs [processed] have been grouped:
    one property per name, holding the runs of that name in input order. *)
Definition grouped (processed : list Run) (runGroups : JsObject (list Run)) : Prop :=
  NoDup (map fst runGroups)
  /\ (forall name,
        own_property runGroups name
        = match group_named name processed with
          | [] => None
          | group => Some group
          end)
  /\ no_inherited_name processed.

(** The names of a list, each at its first appearance. *)
Definition add_name (seen : list string) (name : string) : list string :=
  if existsb (String.eqb name) seen then seen else seen ++ [name].

Definition first_appearances (names : list string) : list string :=
  fold_left add_name names [].

(** [v] is a maximum of [values]: one of them, and none is above it. *)
Definition maximum_of (values : list float) (v : float) : Prop :=
  In v values /\ Forall (fun w => (w <=? v)%float = true) values.

Definition no_nan (values : list float) : Prop :=
  Forall (fun v => is_nan v = false) values.

(** The numeric index of a property name that is an array index. *)
Definition index_of_name (key : string) : Z :=
  match array_index key with Some i => Z.of_N i | None => 0 end.

(** The order in which [Object.entries] enumerates names: the array indices,
    ascending, then the other names. *)
Definition enumeration_order (keys : list string) : Prop :=
  exists indices names,
    keys = indices ++ names
    /\ Forall (fun k => is_array_index k = true) indices
    /\ ascending index_of_name indices
    /\ Forall (fun k => is_array_index k = false) names.

(** A zero of either sign: what [v === 0] accepts. *)
Definition zero_value (v : float) : Prop := v = 0%float \/ v = (-0)%float.

(** The runs a chart draws, and the points of their series. *)
Definition has_training (run : Run) : bool :=
  match training_metrics run with Some (_ :: _) => true | _ => false end.

Definition has_evaluation (run : Run) : bool :=
  match evaluation_results run with Some (_ :: _) => true | _ => false end.

Definition loss_points (run : Run) : list Point :=
  map (fun m => {| x := Metric.step m; y := Metric.loss m |})
    (entries_of (training_metrics run)).

Definition lr_points (run : Run) : list Point :=
  map (fun m => {| x := Metric.step m; y := Metric.learning_rate m |})
    (entries_of (training_metrics run)).

Definition eval_points (run : Run) : list Point :=
  map (fun m => {| x := Eval.step m; y := Eval.paloma m |})
    (entries_of (evaluation_results run)).

(** A label with the points under it. *)
Definition series (d : Dataset) : string * list Point := (label d, data d).

(** What the combined chart holds for one run when its callback returns: the
    loss series and the scaled learning-rate series of a run with samples,
    nothing for another run. *)
Definition combined_series (run : Run) (runIndex : nat) : list Dataset :=
  match training_metrics run with
  | Some ((_ :: _) as metrics) =>
      let color := color_of runIndex in
      let maxLR := Math_max (map Metric.learning_rate metrics) in
      let maxLoss := Math_max (map Metric.loss metrics) in
      [line_dataset (run_name run ++ " - Loss") color (color ++ "20") 2
         (map (fun m => {| x := Metric.step m; y := Metric.loss m |}) metrics);
       line_dataset (run_name run ++ " - LR (scaled)") (color ++ "80") (color ++ "10") 1
         (map (fun m => {| x := Metric.step m;
                           y := (Metric.learning_rate m * (maxLoss / maxLR))%float |})
            metrics)]
  | _ => []
  end.

(** A run whose training samples the engine accepts as the arguments of one
    call. *)
Definition within_limit (argumentLimit : N) (run : Run) : Prop :=
  (N.of_nat (List.length (entries_of (training_metrics run))) <= argumentLimit)%N.

(** ** Sample documents *)

Definition metric_at (s : Z) (l lr : float) : Metric.t :=
  {| Metric.step := s; Metric.loss := l; Metric.learning_rate := lr;
     Metric.inf_nan_count := 0 |}.

Definition eval_at (s : Z) (v : float) : Eval.t :=
  {| Eval.step := s; Eval.paloma := v |}.

Definition log_of (name file : string) (metrics : list Metric.t) (results : list Eval.t)
  (cfg : option Config) : Run :=
  {| run_name := name; log_file := Some file; log_files := None;
     training_metrics := Some metrics; evaluation_results := Some results;
     config := cfg |}.

Definition document (rs : list Run) : TrainingData :=
  {| runs := rs;
     summary := {| total_runs := Z.of_nat (List.length rs); run_names := map run_name rs |} |}.

(** Run B is logged in two files that both hold step 500; run A in one. *)
Definition file_B1 : Run :=
  log_of "B" "log_1.log" [metric_at 0 10.5 0; metric_at 500 9.5 0.25]
    [eval_at 500 1024] (Some [("d_model"%string, ConfigNumber 96)]).

Definition file_B2 : Run :=
  log_of "B" "log_2.log" [metric_at 500 7.5 0.5; metric_at 1000 8.25 0.125]
    [eval_at 1000 infinity] (Some [("d_model"%string, ConfigNumber 128)]).

Definition file_A : Run :=
  log_of "A" "log_a.log" [metric_at 0 10.75 0; metric_at 500 9.5 0.5; metric_at 1000 8.25 0.25]
    [] None.

Definition two_logs : TrainingData := document [file_B1; file_A; file_B2].

Definition merged_B : Run :=
  {| run_name := "B"; log_file := None;
     log_files := Some [Some "log_1.log"; Some "log_2.log"]%string;
     training_metrics :=
       Some [metric_at 0 10.5 0; metric_at 500 9.5 0.25; metric_at 1000 8.25 0.125];
     evaluation_results := Some [eval_at 500 1024; eval_at 1000 infinity];
     config := Some [("d_model"%string, ConfigNumber 96)] |}.

Definition two_logs_merged : TrainingData :=
  {| runs := [merged_B; file_A]; summary := summary two_logs |}.

(** A single log that holds step 5 twice, out of order with step 3. *)
Definition file_R : Run :=
  log_of "R" "log_r.log" [metric_at 5 2.5 0.5; metric_at 5 2.25 0.5; metric_at 3 2 0.5] [] None.

(** Two logs of one name with no step in common; the first holds step 5 twice. *)
Definition file_D1 : Run :=
  log_of "D" "log_1.log" [metric_at 5 2.5 0.5; metric_at 5 2.25 0.5] [] None.

Definition file_D2 : Run :=
  log_of "D" "log_2.log" [metric_at 7 2 0.5] [] None.

(** Two logs of one name: the first has an empty config object, the second
    a config with one field. *)
Definition file_E1 : Run :=
  log_of "E" "log_1.log" [metric_at 0 10.5 0] [] (Some []).

Definition file_E2 : Run :=
  log_of "E" "log_2.log" [metric_at 500 9.5 0.25] []
    (Some [("d_model"%string, ConfigNumber 96)]).

(** A run whose learning rate is 0 at every step (a warm-up that has not
    started). *)
Definition file_Z : Run :=
  log_of "Z" "log_z.log" [metric_at 0 10.5 0; metric_at 500 9.5 0] [] None.

(** An argument limit for the sample documents, whose runs hold three
    samples at most. *)
Definition sample_argumentLimit : N := 65536%N.

(** A run one of whose losses is NaN. *)
Definition file_nan : Run :=
  log_of "X" "log_x.log" [metric_at 0 10.5 0.5; metric_at 500 nan 0.25] [] None.

(** Stand-ins for the engine's conversions in the config details. *)
Definition sample_number_text (v : float) : string :=
  if (v =? 96)%float then "96"%string else "?"%string.

Definition sample_member_text (name : string) : string := name.

Definition sample_toUpperCase (text : string) : string := text.

(** A stand-in for the engine's number formatting, for the sample documents:
    it tells the two methods apart and nothing more. *)
Definition sample_toFixed (v : float) (digits : nat) : string := "fixed"%string.

Definition sample_toExponential (v : float) (digits : nat) : string := "exponential"%string.

(** A run with no [training_metrics] property and an empty
    [evaluation_results] array. *)
Definition file_N : Run :=
  {| run_name := "N"; log_file := Some "log_n.log"%string; log_files := None;
     training_metrics := None; evaluation_results := Some []; config := None |}.

(** Three runs whose names are enumerated out of input order by
    [Object.entries]: "10" and "2" are array indices. *)
Definition file_b : Run := log_of "b" "log_b.log" [metric_at 0 1 0] [] None.

Definition file_10 : Run := log_of "10" "log_10.log" [metric_at 0 2 0] [] None.

Definition file_2 : Run := log_of "2" "log_2.log" [metric_at 0 4 0] [] None.

(** A run directory named after a member of [Object.prototype]. *)
Definition file_constructor : Run :=
  log_of "constructor" "log_c.log" [metric_at 0 1 0] [] None.

(** ** Proof automation *)

(** Case analysis on the comparisons of exponents and mantissas that
    [SFcompare] makes. *)
Ltac compare_cases :=
  repeat match goal with
  | H : context [Z.compare ?a ?b] |- _ => destruct (Z.compare_spec a b)
  | |- context [Z.compare ?a ?b] => destruct (Z.compare_spec a b)
  | H : context [Pos.compare ?a ?b] |- _ => destruct (Pos.compare_spec a b)
  | |- context [Pos.compare ?a ?b] => destruct (Pos.compare_spec a b)
  end.

Ltac by_compare_cases :=
  try reflexivity; try discriminate; try congruence;
  change (Pos.compare_cont Eq) with Pos.compare;
  compare_cases; simpl; intros; subst;
  try reflexivity; try discriminate; try lia.

(** * Part II: properties *)

(** ** Arrays *)

Section ArrayFacts.

Context {A : Type}.
Variable step : A -> Z.

(** *** The sort *)

Lemma sort_insert_perm (x : A) (l : list A) :
  Permutation (sort_insert (by_step step) x l) (x :: l).
Proof.
  induction l as [|y l IH]; simpl.
  - apply Permutation_refl.
  - destruct (by_step step x y <=? 0).
    + apply Permutation_refl.
    + eapply Permutation_trans.
      * apply perm_skip. exact IH.
      * apply perm_swap.
Qed.

Lemma Array_sort_perm (l : list A) : Permutation (Array_sort (by_step step) l) l.
Proof.
  induction l as [|x l IH]; simpl.
  - apply perm_nil.
  - eapply Permutation_trans.
    + apply sort_insert_perm.
    + apply perm_skip. exact IH.
Qed.

Lemma Array_sort_In (l : list A) (x : A) : In x (Array_sort (by_step step) l) <-> In x l.
Proof.
  split; apply Permutation_in.
  - apply Array_sort_perm.
  - apply Permutation_sym, Array_sort_perm.
Qed.

Lemma Array_sort_length (l : list A) :
  List.length (Array_sort (by_step step) l) = List.length l.
Proof. apply Permutation_length, Array_sort_perm. Qed.

Lemma sort_insert_ascending (x : A) (l : list A) :
  ascending step l -> ascending step (sort_insert (by_step step) x l).
Proof.
  unfold ascending.
  induction l as [|y l IH]; intros Hs; simpl.
  - constructor; [constructor | constructor].
  - apply StronglySorted_inv in Hs. destruct Hs as [Hl Hy].
    destruct (by_step step x y <=? 0) eqn:E.
    + apply Z.leb_le in E. unfold by_step in E.
      constructor.
      * constructor; assumption.
      * constructor; [lia|].
        rewrite Forall_forall in *. intros z Hz. specialize (Hy z Hz). lia.
    + apply Z.leb_gt in E. unfold by_step in E.
      constructor.
      * apply IH. exact Hl.
      * rewrite Forall_forall in *. intros z Hz.
        apply (Permutation_in _ (sort_insert_perm x l)) in Hz.
        destruct Hz as [<-|Hz]; [lia | apply Hy; exact Hz].
Qed.

Lemma Array_sort_ascending (l : list A) : ascending step (Array_sort (by_step step) l).
Proof.
  induction l as [|x l IH]; simpl.
  - constructor.
  - apply sort_insert_ascending. exact IH.
Qed.

(** Stability: the elements of one step keep the order they had. *)
Lemma sort_insert_stable (s : Z) (x : A) (l : list A) :
  filter (has_step step s) (sort_insert (by_step step) x l) = filter (has_step step s) (x :: l).
Proof.
  induction l as [|y l IH]; simpl.
  - reflexivity.
  - destruct (by_step step x y <=? 0) eqn:E.
    + reflexivity.
    + apply Z.leb_gt in E. unfold by_step in E.
      simpl. rewrite IH. simpl. unfold has_step.
      destruct (step x =? s) eqn:Ex; destruct (step y =? s) eqn:Ey; try reflexivity.
      apply Z.eqb_eq in Ex, Ey. lia.
Qed.

Lemma Array_sort_stable (s : Z) (l : list A) :
  filter (has_step step s) (Array_sort (by_step step) l) = filter (has_step step s) l.
Proof.
  induction l as [|x l IH]; simpl.
  - reflexivity.
  - rewrite sort_insert_stable. simpl. rewrite IH. reflexivity.
Qed.

(** Two ascending step lists that agree step by step are equal: whatever stable
    sorting algorithm the engine runs, its result is [Array_sort]'s. *)
Lemma ascending_stable_eq (l1 l2 : list A) :
  ascending step l1 -> ascending step l2 ->
  (forall s, filter (has_step step s) l1 = filter (has_step step s) l2) ->
  l1 = l2.
Proof.
  unfold ascending. revert l2.
  induction l1 as [|x l1 IH]; intros l2 H1 H2 Hf.
  - destruct l2 as [|y l2]; [reflexivity|].
    specialize (Hf (step y)). simpl in Hf. unfold has_step in Hf.
    rewrite Z.eqb_refl in Hf. discriminate.
  - destruct l2 as [|y l2].
    + specialize (Hf (step x)). simpl in Hf. unfold has_step in Hf.
      rewrite Z.eqb_refl in Hf. discriminate.
    + apply StronglySorted_inv in H1. destruct H1 as [H1 Hx].
      apply StronglySorted_inv in H2. destruct H2 as [H2 Hy].
      rewrite Forall_forall in Hx, Hy.
      assert (Hxy : step x = step y).
      { destruct (Z.lt_trichotomy (step x) (step y)) as [Hlt|[Heq|Hgt]]; [|exact Heq|].
        - pose proof (Hf (step x)) as Hfx. simpl in Hfx. unfold has_step in Hfx.
          rewrite Z.eqb_refl in Hfx.
          destruct (step y =? step x) eqn:E; [apply Z.eqb_eq in E; lia|].
          assert (Hin : In x (filter (fun a => step a =? step x) l2))
            by (rewrite <- Hfx; left; reflexivity).
          apply filter_In in Hin. destruct Hin as [Hin _].
          specialize (Hy x Hin). lia.
        - pose proof (Hf (step y)) as Hfy. simpl in Hfy. unfold has_step in Hfy.
          rewrite Z.eqb_refl in Hfy.
          destruct (step x =? step y) eqn:E; [apply Z.eqb_eq in E; lia|].
          assert (Hin : In y (filter (fun a => step a =? step y) l1))
            by (rewrite Hfy; left; reflexivity).
          apply filter_In in Hin. destruct Hin as [Hin _].
          specialize (Hx y Hin). lia. }
      pose proof (Hf (step x)) as Hfx. simpl in Hfx. unfold has_step in Hfx.
      rewrite <- Hxy in Hfx. rewrite Z.eqb_refl in Hfx.
      injection Hfx as Hhd _. subst y. f_equal.
      apply IH; [exact H1 | exact H2 |].
      intros s. specialize (Hf s). simpl in Hf.
      destruct (has_step step s x); [injection Hf as Hf|]; exact Hf.
Qed.

(** X3: a list that is ascending in step and keeps the entries of every step
    in their original order is the result of [Array_sort]. *)
Lemma stable_sort_unique (l l' : list A) :
  ascending step l' ->
  (forall s, filter (has_step step s) l' = filter (has_step step s) l) ->
  l' = Array_sort (by_step step) l.
Proof.
  intros Hs Hf. apply ascending_stable_eq.
  - exact Hs.
  - apply Array_sort_ascending.
  - intros s. rewrite Hf, Array_sort_stable. reflexivity.
Qed.


(** *** The filter that removes repeated steps *)

Lemma filter_from_skip_repeats (l before : list A) (previous : A) :
  filter_from (first_of_step step) (before ++ previous :: l) (S (List.length before)) l
  = skip_repeats step (step previous) l.
Proof.
  revert before previous.
  induction l as [|x l IH]; intros before previous; simpl.
  - reflexivity.
  - unfold first_of_step at 1. simpl.
    rewrite Nat.sub_0_r, nth_error_app2 by lia.
    rewrite Nat.sub_diag. simpl.
    specialize (IH (before ++ [previous]) x).
    rewrite <- app_assoc in IH. simpl in IH.
    rewrite length_app in IH. simpl in IH.
    replace (List.length before + 1)%nat with (S (List.length before)) in IH by lia.
    rewrite IH.
    destruct (step x =? step previous); reflexivity.
Qed.

Lemma Array_filter_first_occurrences (l : list A) :
  Array_filter (first_of_step step) l = first_occurrences step l.
Proof.
  destruct l as [|x l]; [reflexivity|].
  unfold Array_filter. simpl. f_equal.
  apply (filter_from_skip_repeats l [] x).
Qed.

Lemma skip_repeats_In (previous : Z) (l : list A) (a : A) :
  In a (skip_repeats step previous l) -> In a l.
Proof.
  revert previous. induction l as [|x l IH]; intros previous; simpl.
  - tauto.
  - destruct (step x =? previous).
    + intros H. right. exact (IH _ H).
    + intros [H|H]; [left; exact H | right; exact (IH _ H)].
Qed.

Lemma first_occurrences_In (l : list A) (a : A) :
  In a (first_occurrences step l) -> In a l.
Proof.
  destruct l as [|x l]; simpl; [tauto|].
  intros [H|H]; [left; exact H | right; exact (skip_repeats_In _ _ _ H)].
Qed.

Lemma skip_repeats_strict (previous : Z) (l : list A) :
  ascending step l -> Forall (fun a => previous <= step a) l ->
  strictly_ascending step (skip_repeats step previous l)
  /\ Forall (fun a => previous < step a) (skip_repeats step previous l).
Proof.
  unfold ascending, strictly_ascending. revert previous.
  induction l as [|x l IH]; intros previous Hs Hb; simpl.
  - split; constructor.
  - apply StronglySorted_inv in Hs. destruct Hs as [Hs Hx].
    apply Forall_cons_iff in Hb. destruct Hb as [Hpx Hb].
    destruct (IH (step x) Hs Hx) as [IH1 IH2].
    destruct (step x =? previous) eqn:E.
    + apply Z.eqb_eq in E. split; [exact IH1 | rewrite <- E; exact IH2].
    + apply Z.eqb_neq in E. split.
      * constructor; assumption.
      * constructor; [lia|].
        eapply Forall_impl; [|exact IH2]. simpl. intros a Ha. lia.
Qed.

Lemma first_occurrences_strictly_ascending (l : list A) :
  ascending step l -> strictly_ascending step (first_occurrences step l).
Proof.
  intros Hs. destruct l as [|x l]; simpl; [constructor|].
  apply StronglySorted_inv in Hs. destruct Hs as [Hs Hx].
  destruct (skip_repeats_strict (step x) l Hs Hx) as [H1 H2].
  constructor; assumption.
Qed.

Lemma find_none_below (s : Z) (l : list A) :
  Forall (fun a => s < step a) l -> find (has_step step s) l = None.
Proof.
  induction l as [|x l IH]; intros H; simpl; [reflexivity|].
  apply Forall_cons_iff in H. destruct H as [Hx H].
  unfold has_step at 1. destruct (step x =? s) eqn:E.
  - apply Z.eqb_eq in E. lia.
  - apply IH. exact H.
Qed.

Lemma skip_repeats_find (s previous : Z) (l : list A) :
  ascending step l -> Forall (fun a => previous <= step a) l ->
  find (has_step step s) (skip_repeats step previous l)
  = if s =? previous then None else find (has_step step s) l.
Proof.
  unfold ascending. revert previous.
  induction l as [|x l IH]; intros previous Hs Hb; simpl.
  - destruct (s =? previous); reflexivity.
  - apply StronglySorted_inv in Hs. destruct Hs as [Hs Hx].
    apply Forall_cons_iff in Hb. destruct Hb as [Hpx Hb].
    specialize (IH (step x) Hs Hx).
    unfold has_step at 2.
    destruct (step x =? previous) eqn:E.
    + apply Z.eqb_eq in E. rewrite IH. rewrite E.
      destruct (s =? previous) eqn:E'; [reflexivity|].
      rewrite Z.eqb_sym, E'. reflexivity.
    + apply Z.eqb_neq in E. simpl. unfold has_step at 1.
      destruct (step x =? s) eqn:E'.
      * apply Z.eqb_eq in E'.
        destruct (s =? previous) eqn:E''; [apply Z.eqb_eq in E''; lia | reflexivity].
      * rewrite IH. rewrite (Z.eqb_sym s (step x)), E'.
        destruct (s =? previous) eqn:E''; [|reflexivity].
        apply Z.eqb_eq in E''. subst s. apply find_none_below.
        eapply Forall_impl; [|exact Hx]. simpl. intros a Ha. lia.
Qed.

Lemma first_occurrences_find (s : Z) (l : list A) :
  ascending step l ->
  find (has_step step s) (first_occurrences step l) = find (has_step step s) l.
Proof.
  intros Hs. destruct l as [|x l]; simpl; [reflexivity|].
  apply StronglySorted_inv in Hs. destruct Hs as [Hs Hx].
  unfold has_step at 1 3. destruct (step x =? s) eqn:E; [reflexivity|].
  rewrite skip_repeats_find by assumption.
  rewrite Z.eqb_sym, E. reflexivity.
Qed.

Lemma skip_repeats_strictly_ascending_id (previous : Z) (l : list A) :
  strictly_ascending step l -> Forall (fun a => previous < step a) l ->
  skip_repeats step previous l = l.
Proof.
  unfold strictly_ascending. revert previous.
  induction l as [|x l IH]; intros previous Hs Hb; simpl; [reflexivity|].
  apply StronglySorted_inv in Hs. destruct Hs as [Hs Hx].
  apply Forall_cons_iff in Hb. destruct Hb as [Hpx Hb].
  destruct (step x =? previous) eqn:E; [apply Z.eqb_eq in E; lia|].
  f_equal. apply IH; assumption.
Qed.

Lemma first_occurrences_strictly_ascending_id (l : list A) :
  strictly_ascending step l -> first_occurrences step l = l.
Proof.
  intros Hs. destruct l as [|x l]; simpl; [reflexivity|].
  apply StronglySorted_inv in Hs. destruct Hs as [Hs Hx].
  f_equal. apply skip_repeats_strictly_ascending_id; assumption.
Qed.

(** *** Facts about [find], [filter] and ascending lists *)

Lemma find_hd_filter (p : A -> bool) (l : list A) :
  find p l = hd_error (filter p l).
Proof.
  induction l as [|x l IH]; simpl; [reflexivity|].
  destruct (p x); [reflexivity | exact IH].
Qed.

Lemma find_app (p : A -> bool) (l1 l2 : list A) :
  find p (l1 ++ l2) = match find p l1 with Some a => Some a | None => find p l2 end.
Proof.
  induction l1 as [|x l1 IH]; simpl; [reflexivity|].
  destruct (p x); [reflexivity | exact IH].
Qed.

Lemma find_has_step_None (s : Z) (l : list A) :
  find (has_step step s) l = None <-> (forall a, In a l -> step a <> s).
Proof.
  split.
  - intros H a Ha Hs. apply (find_none _ _ H) in Ha.
    unfold has_step in Ha. apply Z.eqb_neq in Ha. contradiction.
  - intros H. induction l as [|x l IH]; simpl; [reflexivity|].
    unfold has_step at 1. destruct (step x =? s) eqn:E.
    + apply Z.eqb_eq in E. exfalso. apply (H x); [left; reflexivity | exact E].
    + apply IH. intros a Ha. apply H. right. exact Ha.
Qed.

Lemma find_has_step_Some (s : Z) (l : list A) (a : A) :
  find (has_step step s) l = Some a -> In a l /\ step a = s.
Proof.
  intros H. apply find_some in H. destruct H as [Hin Hs].
  unfold has_step in Hs. apply Z.eqb_eq in Hs. split; assumption.
Qed.

Lemma strictly_ascending_filter (s : Z) (l : list A) :
  strictly_ascending step l ->
  filter (has_step step s) l
  = match find (has_step step s) l with Some a => [a] | None => [] end.
Proof.
  unfold strictly_ascending.
  induction l as [|x l IH]; intros Hs; simpl; [reflexivity|].
  apply StronglySorted_inv in Hs. destruct Hs as [Hs Hx].
  destruct (has_step step s x) eqn:E; unfold has_step in E.
  - apply Z.eqb_eq in E. f_equal.
    rewrite IH by exact Hs.
    rewrite find_none_below; [reflexivity|].
    eapply Forall_impl; [|exact Hx]. simpl. intros a Ha. lia.
  - apply IH. exact Hs.
Qed.

Lemma strictly_ascending_find_In (l : list A) (a : A) :
  strictly_ascending step l -> In a l -> find (has_step step (step a)) l = Some a.
Proof.
  unfold strictly_ascending.
  induction l as [|x l IH]; intros Hs Hin; simpl; [destruct Hin|].
  apply StronglySorted_inv in Hs. destruct Hs as [Hs Hx].
  unfold has_step at 1. destruct Hin as [->|Hin].
  - rewrite Z.eqb_refl. reflexivity.
  - destruct (step x =? step a) eqn:E.
    + apply Z.eqb_eq in E. rewrite Forall_forall in Hx.
      specialize (Hx a Hin). lia.
    + apply IH; assumption.
Qed.

Lemma strictly_ascending_NoDup (l : list A) :
  strictly_ascending step l -> NoDup (map step l).
Proof.
  unfold strictly_ascending.
  induction l as [|x l IH]; intros Hs; simpl; [constructor|].
  apply StronglySorted_inv in Hs. destruct Hs as [Hs Hx].
  constructor; [|apply IH; exact Hs].
  intros Hin. apply in_map_iff in Hin. destruct Hin as [a [Ha Hin]].
  rewrite Forall_forall in Hx. specialize (Hx a Hin). lia.
Qed.

Lemma ascending_NoDup_strict (l : list A) :
  ascending step l -> NoDup (map step l) -> strictly_ascending step l.
Proof.
  unfold ascending, strictly_ascending.
  induction l as [|x l IH]; intros Hs Hn; [constructor|].
  apply StronglySorted_inv in Hs. destruct Hs as [Hs Hx].
  simpl in Hn. apply NoDup_cons_iff in Hn. destruct Hn as [Hnx Hn].
  constructor; [apply IH; assumption|].
  rewrite Forall_forall in *. intros a Ha. specialize (Hx a Ha).
  assert (step a <> step x) by (intros E; apply Hnx; rewrite <- E; apply in_map; exact Ha).
  lia.
Qed.

(** *** Sort, then keep the first sample of every step *)

Lemma sort_dedup_strictly_ascending (l : list A) :
  strictly_ascending step (sort_dedup step l).
Proof.
  unfold sort_dedup. rewrite Array_filter_first_occurrences.
  apply first_occurrences_strictly_ascending, Array_sort_ascending.
Qed.

(** The sample kept for a step is the first one of that step in the
    concatenation. *)
Lemma sort_dedup_find (s : Z) (l : list A) :
  find (has_step step s) (sort_dedup step l) = find (has_step step s) l.
Proof.
  unfold sort_dedup. rewrite Array_filter_first_occurrences.
  rewrite first_occurrences_find by apply Array_sort_ascending.
  rewrite !find_hd_filter, Array_sort_stable. reflexivity.
Qed.

Lemma sort_dedup_In (l : list A) (a : A) :
  In a (sort_dedup step l) <-> find (has_step step (step a)) l = Some a.
Proof.
  split.
  - intros H. rewrite <- sort_dedup_find.
    apply strictly_ascending_find_In; [apply sort_dedup_strictly_ascending | exact H].
  - intros H. rewrite <- sort_dedup_find in H.
    apply find_has_step_Some in H. tauto.
Qed.

Lemma sort_dedup_incl (l : list A) (a : A) : In a (sort_dedup step l) -> In a l.
Proof.
  intros H. apply sort_dedup_In in H. apply find_has_step_Some in H. tauto.
Qed.

Lemma sort_dedup_filter (s : Z) (l : list A) :
  filter (has_step step s) (sort_dedup step l)
  = match find (has_step step s) l with Some a => [a] | None => [] end.
Proof.
  rewrite strictly_ascending_filter by apply sort_dedup_strictly_ascending.
  rewrite sort_dedup_find. reflexivity.
Qed.

Lemma sort_dedup_steps (l : list A) (s : Z) :
  In s (map step (sort_dedup step l)) <-> In s (map step l).
Proof.
  rewrite !in_map_iff. split.
  - intros [a [Ha Hin]]. exists a. split; [exact Ha | apply sort_dedup_incl; exact Hin].
  - intros [a [Ha Hin]].
    destruct (find (has_step step s) l) as [b|] eqn:E.
    + pose proof (find_has_step_Some _ _ _ E) as [_ Hb].
      exists b. split; [exact Hb|]. apply sort_dedup_In. rewrite Hb. exact E.
    + rewrite find_has_step_None in E. exfalso. exact (E a Hin Ha).
Qed.

Lemma sort_dedup_NoDup (l : list A) :
  NoDup (map step l) -> sort_dedup step l = Array_sort (by_step step) l.
Proof.
  intros Hn. unfold sort_dedup. rewrite Array_filter_first_occurrences.
  apply first_occurrences_strictly_ascending_id.
  apply ascending_NoDup_strict; [apply Array_sort_ascending|].
  eapply Permutation_NoDup; [|exact Hn].
  apply Permutation_map, Permutation_sym, Array_sort_perm.
Qed.

End ArrayFacts.

Lemma stable_sort_unique_sample :
  [(3, 0); (5, 1); (5, 2)] = Array_sort (by_step fst) [(5, 1); (3, 0); (5, 2)].
Proof.
  apply (stable_sort_unique fst [(5, 1); (3, 0); (5, 2)] [(3, 0); (5, 1); (5, 2)]).
  - repeat constructor; simpl; lia.
  - intros s. cbn [filter]. unfold has_step. cbn [fst].
    destruct (Z.eqb_spec 3 s), (Z.eqb_spec 5 s); try reflexivity; lia.
Defined.

(** ** Plain objects *)

Section ObjectFacts.

Context {V : Type}.

Lemma own_property_set (o : JsObject V) (key key' : string) (v : V) :
  own_property (set_property o key v) key'
  = if String.eqb key key' then Some v else own_property o key'.
Proof.
  induction o as [|[k old] o IH]; simpl.
  - reflexivity.
  - destruct (String.eqb k key) eqn:E; simpl.
    + apply String.eqb_eq in E. subst k.
      destruct (String.eqb key key'); reflexivity.
    + rewrite IH. destruct (String.eqb k key') eqn:E'; [|reflexivity].
      apply String.eqb_eq in E'. subst k. rewrite String.eqb_sym, E. reflexivity.
Qed.

Lemma own_property_None (o : JsObject V) (key : string) :
  own_property o key = None <-> ~ In key (map fst o).
Proof.
  induction o as [|[k v] o IH]; simpl.
  - tauto.
  - destruct (String.eqb k key) eqn:E.
    + apply String.eqb_eq in E. split; [discriminate | intros H; exfalso; apply H; left; exact E].
    + apply String.eqb_neq in E. rewrite IH. tauto.
Qed.

Lemma keys_set_property (o : JsObject V) (key : string) (v : V) :
  map fst (set_property o key v)
  = match own_property o key with
    | Some _ => map fst o
    | None => map fst o ++ [key]
    end.
Proof.
  induction o as [|[k old] o IH]; simpl.
  - reflexivity.
  - destruct (String.eqb k key) eqn:E; simpl.
    + reflexivity.
    + rewrite IH. destruct (own_property o key); reflexivity.
Qed.

Lemma own_property_In (o : JsObject V) (key : string) (v : V) :
  NoDup (map fst o) -> (own_property o key = Some v <-> In (key, v) o).
Proof.
  induction o as [|[k w] o IH]; simpl; intros Hn.
  - split; [discriminate | tauto].
  - apply NoDup_cons_iff in Hn. destruct Hn as [Hk Hn].
    destruct (String.eqb k key) eqn:E.
    + apply String.eqb_eq in E. subst k. split.
      * intros H. injection H as ->. left. reflexivity.
      * intros [H|H]; [injection H as ->; reflexivity|].
        exfalso. apply Hk. apply (in_map fst) in H. exact H.
    + apply String.eqb_neq in E. rewrite (IH Hn). split.
      * intros H. right. exact H.
      * intros [H|H]; [injection H as H _; contradiction | exact H].
Qed.

Lemma filter_partition_perm {X : Type} (p : X -> bool) (l : list X) :
  Permutation (filter p l ++ filter (fun a => negb (p a)) l) l.
Proof.
  induction l as [|a l IH]; simpl.
  - apply perm_nil.
  - destruct (p a); simpl.
    + apply perm_skip. exact IH.
    + apply Permutation_sym, Permutation_cons_app, Permutation_sym. exact IH.
Qed.

Lemma indexed_entries_snd (o : JsObject V) :
  map snd (flat_map indexed_entry o) = filter (fun entry => is_array_index (fst entry)) o.
Proof.
  induction o as [|[k v] o IH]; simpl.
  - reflexivity.
  - unfold indexed_entry at 1, is_array_index at 1. simpl.
    destruct (array_index k); simpl; rewrite IH; reflexivity.
Qed.

(** [Object.entries] lists every own property once. *)
Lemma Object_entries_perm (o : JsObject V) : Permutation (Object_entries o) o.
Proof.
  unfold Object_entries.
  eapply Permutation_trans; [|apply (filter_partition_perm (fun entry => is_array_index (fst entry)))].
  apply Permutation_app_tail.
  rewrite <- indexed_entries_snd.
  apply Permutation_map, Array_sort_perm.
Qed.

End ObjectFacts.

(** ** Grouping the runs by name *)

Lemma group_named_app (name : string) (l1 l2 : list Run) :
  group_named name (l1 ++ l2) = group_named name l1 ++ group_named name l2.
Proof. apply filter_app. Qed.

Lemma group_named_name (name : string) (rs : list Run) (run : Run) :
  In run (group_named name rs) -> In run rs /\ run_name run = name.
Proof.
  unfold group_named, name_is. intros H. apply filter_In in H.
  destruct H as [Hin Hn]. apply String.eqb_eq in Hn. split; assumption.
Qed.

Lemma group_named_In (rs : list Run) (run : Run) :
  In run rs -> In run (group_named (run_name run) rs).
Proof.
  intros H. unfold group_named, name_is. apply filter_In.
  split; [exact H | apply String.eqb_refl].
Qed.

Lemma grouped_nil : grouped [] [].
Proof.
  repeat split.
  - constructor.
  - intros run [].
Qed.

Lemma group_run_grouped (processed : list Run) (runGroups runGroups' : JsObject (list Run))
  (run : Run) :
  grouped processed runGroups ->
  group_run runGroups run = Some runGroups' ->
  grouped (processed ++ [run]) runGroups'.
Proof.
  intros (Hnd & Hown & Hinh) Hstep. unfold group_run in Hstep.
  pose proof (Hown (run_name run)) as Hrun.
  destruct (own_property runGroups (run_name run)) as [group|] eqn:E.
  - injection Hstep as <-.
    assert (Hgroup : group_named (run_name run) processed = group /\ group <> []).
    { destruct (group_named (run_name run) processed); [discriminate|].
      injection Hrun as ->. split; [reflexivity | discriminate]. }
    destruct Hgroup as [Hgroup Hne].
    repeat split.
    + rewrite keys_set_property, E. exact Hnd.
    + intros name. rewrite own_property_set, group_named_app. simpl.
      unfold name_is.
      destruct (String.eqb (run_name run) name) eqn:En.
      * apply String.eqb_eq in En. subst name. rewrite Hgroup.
        destruct group; [contradiction | reflexivity].
      * rewrite app_nil_r. apply Hown.
    + intros r Hr. apply in_app_or in Hr. destruct Hr as [Hr|[<-|[]]].
      * apply Hinh. exact Hr.
      * destruct group as [|r0 group]; [contradiction|].
        assert (Hr0 : In r0 (group_named (run_name run) processed))
          by (rewrite Hgroup; left; reflexivity).
        apply group_named_name in Hr0. destruct Hr0 as [Hr0 Hname].
        rewrite <- Hname. apply Hinh. exact Hr0.
  - destruct (inherited (run_name run)) eqn:Ei; [discriminate|].
    injection Hstep as <-.
    assert (Hgroup : group_named (run_name run) processed = [])
      by (destruct (group_named (run_name run) processed); [reflexivity | discriminate]).
    repeat split.
    + rewrite keys_set_property, E.
      apply NoDup_app; [exact Hnd | repeat constructor; intros [] |].
      intros k Hk [<-|[]]. apply own_property_None in E. contradiction.
    + intros name. rewrite own_property_set, group_named_app. simpl.
      unfold name_is.
      destruct (String.eqb (run_name run) name) eqn:En.
      * apply String.eqb_eq in En. subst name. rewrite Hgroup. reflexivity.
      * rewrite app_nil_r. apply Hown.
    + intros r Hr. apply in_app_or in Hr. destruct Hr as [Hr|[<-|[]]].
      * apply Hinh. exact Hr.
      * exact Ei.
Qed.

Lemma group_runs_grouped (rs processed : list Run) (runGroups runGroups' : JsObject (list Run)) :
  grouped processed runGroups ->
  group_runs runGroups rs = Some runGroups' ->
  grouped (processed ++ rs) runGroups'.
Proof.
  revert processed runGroups.
  induction rs as [|run rs IH]; intros processed runGroups Hg Hrun; simpl in Hrun.
  - injection Hrun as <-. rewrite app_nil_r. exact Hg.
  - destruct (group_run runGroups run) as [next|] eqn:E; [|discriminate].
    replace (processed ++ run :: rs) with ((processed ++ [run]) ++ rs)
      by (rewrite <- app_assoc; reflexivity).
    apply (IH _ next); [|exact Hrun].
    eapply group_run_grouped; eassumption.
Qed.

Lemma group_runs_completes (rs : list Run) (runGroups : JsObject (list Run)) :
  no_inherited_name rs -> exists runGroups', group_runs runGroups rs = Some runGroups'.
Proof.
  revert runGroups. induction rs as [|run rs IH]; intros runGroups Hn; simpl.
  - eexists. reflexivity.
  - assert (Hrun : inherited (run_name run) = false) by (apply Hn; left; reflexivity).
    unfold group_run. rewrite Hrun.
    destruct (own_property runGroups (run_name run));
      apply IH; intros r Hr; apply Hn; right; exact Hr.
Qed.

(** ** Merging the groups *)

Lemma merge_entry_produced (name : string) (group : list Run) (m : Run) :
  merge_entry (name, group) = Some m <-> produced name group m.
Proof.
  unfold merge_entry, produced.
  destruct group as [|r [|r' group]].
  - simpl. split; [discriminate | tauto].
  - split; [intros H; injection H as <-; reflexivity | intros ->; reflexivity].
  - tauto.
Qed.

Lemma merge_entry_completes (name : string) (group : list Run) :
  group <> [] -> exists m, merge_entry (name, group) = Some m.
Proof.
  intros Hne. unfold merge_entry.
  destruct group as [|r [|r' group]]; [contradiction | |]; eexists; reflexivity.
Qed.

Lemma produced_name (name : string) (rs : list Run) (m : Run) :
  produced name (group_named name rs) m -> run_name m = name.
Proof.
  unfold produced. destruct (group_named name rs) as [|r [|r' group]] eqn:E.
  - tauto.
  - intros ->. assert (H : In r (group_named name rs)) by (rewrite E; left; reflexivity).
    apply group_named_name in H. tauto.
  - simpl. intros H. injection H as <-. reflexivity.
Qed.

Lemma merge_entries_In (entries : list (string * list Run)) (mergedRuns : list Run) (m : Run) :
  merge_entries entries = Some mergedRuns ->
  (In m mergedRuns <-> exists entry, In entry entries /\ merge_entry entry = Some m).
Proof.
  revert mergedRuns.
  induction entries as [|entry entries IH]; intros mergedRuns H; simpl in H.
  - injection H as <-. simpl. split; [tauto | intros [e [[] _]]].
  - destruct (merge_entry entry) as [run|] eqn:E; [|discriminate].
    destruct (merge_entries entries) as [rest|]; [|discriminate].
    injection H as <-. simpl. rewrite (IH rest eq_refl). split.
    + intros [<-|[e [He Hm]]].
      * exists entry. split; [left; reflexivity | exact E].
      * exists e. split; [right; exact He | exact Hm].
    + intros [e [[<-|He] Hm]].
      * left. congruence.
      * right. exists e. split; assumption.
Qed.

Lemma merge_entries_names (entries : list (string * list Run)) (mergedRuns : list Run) :
  merge_entries entries = Some mergedRuns ->
  (forall entry m, In entry entries -> merge_entry entry = Some m -> run_name m = fst entry) ->
  map run_name mergedRuns = map fst entries.
Proof.
  revert mergedRuns.
  induction entries as [|entry entries IH]; intros mergedRuns H Hname; simpl in H.
  - injection H as <-. reflexivity.
  - destruct (merge_entry entry) as [run|] eqn:E; [|discriminate].
    destruct (merge_entries entries) as [rest|]; [|discriminate].
    injection H as <-. simpl. f_equal.
    + apply Hname; [left; reflexivity | exact E].
    + apply IH; [reflexivity|]. intros e m He. apply Hname. right. exact He.
Qed.

Lemma grouped_In (rs : list Run) (runGroups : JsObject (list Run)) (name : string)
  (group : list Run) :
  grouped rs runGroups ->
  (In (name, group) runGroups <-> group = group_named name rs /\ group <> []).
Proof.
  intros (Hnd & Hown & _). rewrite <- (own_property_In _ _ _ Hnd), Hown.
  destruct (group_named name rs) as [|r g].
  - split; [discriminate | intros [-> H]; contradiction].
  - split.
    + intros H. injection H as <-. split; [reflexivity | discriminate].
    + intros [-> _]. reflexivity.
Qed.

(** What [mergeContinuationLogs] leaves in [trainingData.runs], when it
    returns: one run per name, the one [produced] from the group of that
    name. *)
Lemma mergeContinuationLogs_spec (trainingData merged : TrainingData) :
  mergeContinuationLogs trainingData = Some merged ->
  summary merged = summary trainingData
  /\ NoDup (map run_name (runs merged))
  /\ (forall m, In m (runs merged) <->
                exists name, produced name (group_named name (runs trainingData)) m).
Proof.
  unfold mergeContinuationLogs. intros H.
  destruct (group_runs [] (runs trainingData)) as [runGroups|] eqn:Eg; [|discriminate].
  destruct (merge_entries (Object_entries runGroups)) as [mergedRuns|] eqn:Em; [|discriminate].
  injection H as <-. simpl.
  pose proof (group_runs_grouped _ [] _ _ grouped_nil Eg) as Hg. simpl in Hg.
  pose proof (Object_entries_perm runGroups) as Hperm.
  assert (Hent : forall name group,
             In (name, group) (Object_entries runGroups)
             <-> group = group_named name (runs trainingData) /\ group <> []).
  { intros name group. rewrite <- (grouped_In _ _ _ _ Hg). split; apply Permutation_in.
    - exact Hperm.
    - apply Permutation_sym. exact Hperm. }
  split; [reflexivity|]. split.
  - rewrite (merge_entries_names _ _ Em).
    + eapply Permutation_NoDup.
      * apply Permutation_map, Permutation_sym. exact Hperm.
      * apply Hg.
    + intros [name group] m Hin Hm. simpl.
      apply Hent in Hin. destruct Hin as [-> _].
      apply merge_entry_produced in Hm. apply (produced_name _ _ _ Hm).
  - intros m. rewrite (merge_entries_In _ _ m Em). split.
    + intros [[name group] [Hin Hm]]. exists name.
      apply Hent in Hin. destruct Hin as [-> _].
      apply merge_entry_produced. exact Hm.
    + intros [name Hp]. exists (name, group_named name (runs trainingData)). split.
      * apply Hent. split; [reflexivity|].
        intros E. rewrite E in Hp. exact Hp.
      * apply merge_entry_produced. exact Hp.
Qed.

(** X1: [mergeContinuationLogs] throws when a run bears a name that object
    literals inherit from [Object.prototype]: [runGroups[baseName]] is then
    the inherited member, no array is stored, and
    [runGroups[baseName].push(run)] throws. *)
Theorem merge_throws_on_inherited_name (trainingData : TrainingData) (run : Run) :
  In run (runs trainingData) ->
  inherited (run_name run) = true ->
  mergeContinuationLogs trainingData = None.
Proof.
  intros Hin Hname. unfold mergeContinuationLogs.
  destruct (group_runs [] (runs trainingData)) as [runGroups|] eqn:Eg; [|reflexivity].
  pose proof (group_runs_grouped _ [] _ _ grouped_nil Eg) as Hg. simpl in Hg.
  destruct Hg as (_ & _ & Hn). rewrite (Hn run Hin) in Hname. discriminate.
Qed.

Lemma merge_throws_on_inherited_name_constructor :
  mergeContinuationLogs (document [file_A; file_constructor]) = None.
Proof.
  apply (merge_throws_on_inherited_name (document [file_A; file_constructor])
           file_constructor).
  - right. left. reflexivity.
  - reflexivity.
Defined.

(** *** The order of the post-merge list *)

Lemma existsb_own_property {V : Type} (o : JsObject V) (key : string) :
  existsb (String.eqb key) (map fst o)
  = match own_property o key with Some _ => true | None => false end.
Proof.
  induction o as [|[k v] o IH]; simpl; [reflexivity|].
  rewrite (String.eqb_sym key k).
  destruct (String.eqb k key); [reflexivity | exact IH].
Qed.

Lemma group_run_keys (runGroups runGroups' : JsObject (list Run)) (run : Run) :
  group_run runGroups run = Some runGroups' ->
  map fst runGroups' = add_name (map fst runGroups) (run_name run).
Proof.
  unfold group_run, add_name. rewrite existsb_own_property.
  destruct (own_property runGroups (run_name run)) as [group|] eqn:E.
  - intros H. injection H as <-. rewrite keys_set_property, E. reflexivity.
  - destruct (inherited (run_name run)); [discriminate|].
    intros H. injection H as <-. rewrite keys_set_property, E. reflexivity.
Qed.

Lemma group_runs_keys (rs : list Run) (runGroups runGroups' : JsObject (list Run)) :
  group_runs runGroups rs = Some runGroups' ->
  map fst runGroups' = fold_left add_name (map run_name rs) (map fst runGroups).
Proof.
  revert runGroups. induction rs as [|run rs IH]; intros runGroups H; simpl in H |- *.
  - injection H as <-. reflexivity.
  - destruct (group_run runGroups run) as [next|] eqn:E; [|discriminate].
    rewrite <- (group_run_keys _ _ _ E). apply IH. exact H.
Qed.

Lemma Object_entries_no_index {V : Type} (o : JsObject V) :
  (forall entry, In entry o -> is_array_index (fst entry) = false) ->
  Object_entries o = o.
Proof.
  intros H. unfold Object_entries.
  assert (Hidx : flat_map indexed_entry o = []).
  { induction o as [|entry o IH]; simpl; [reflexivity|].
    rewrite IH by (intros e He; apply H; right; exact He).
    pose proof (H entry (or_introl eq_refl)) as He.
    unfold is_array_index in He. unfold indexed_entry.
    destruct (array_index (fst entry)); [discriminate | reflexivity]. }
  rewrite Hidx. simpl.
  induction o as [|entry o IH]; simpl; [reflexivity|].
  rewrite (H entry (or_introl eq_refl)). simpl. f_equal.
  apply IH.
  - intros e He. apply H. right. exact He.
  - simpl in Hidx. apply app_eq_nil in Hidx. tauto.
Qed.

(** X2: when no run name is an array index, the post-merge list bears the
    names of the input in the order of their first appearance. *)
Lemma mergeContinuationLogs_order (trainingData merged : TrainingData) :
  mergeContinuationLogs trainingData = Some merged ->
  (forall run, In run (runs trainingData) -> is_array_index (run_name run) = false) ->
  map run_name (runs merged) = first_appearances (map run_name (runs trainingData)).
Proof.
  unfold mergeContinuationLogs. intros H Hidx.
  destruct (group_runs [] (runs trainingData)) as [runGroups|] eqn:Eg; [|discriminate].
  destruct (merge_entries (Object_entries runGroups)) as [mergedRuns|] eqn:Em; [|discriminate].
  injection H as <-. simpl.
  pose proof (group_runs_grouped _ [] _ _ grouped_nil Eg) as Hg. simpl in Hg.
  assert (Hent : Object_entries runGroups = runGroups).
  { apply Object_entries_no_index. intros [name group] Hin. simpl.
    apply (grouped_In _ _ _ _ Hg) in Hin. destruct Hin as [-> Hne].
    destruct (group_named name (runs trainingData)) as [|r g] eqn:E; [contradiction|].
    assert (Hr : In r (group_named name (runs trainingData))) by (rewrite E; left; reflexivity).
    apply group_named_name in Hr. destruct Hr as [Hr <-]. apply Hidx. exact Hr. }
  rewrite Hent in Em.
  rewrite (merge_entries_names _ _ Em).
  - apply (group_runs_keys _ _ _ Eg).
  - intros [name group] m Hin Hm. simpl.
    apply (grouped_In _ _ _ _ Hg) in Hin. destruct Hin as [-> _].
    apply merge_entry_produced in Hm. apply (produced_name _ _ _ Hm).
Qed.

Lemma mergeContinuationLogs_order_two_logs :
  map run_name (runs two_logs_merged) = first_appearances (map run_name (runs two_logs)).
Proof.
  apply (mergeContinuationLogs_order two_logs two_logs_merged).
  - vm_compute. reflexivity.
  - intros run [<-|[<-|[<-|[]]]]; reflexivity.
Defined.

Lemma unique_name_filter (rs : list Run) (m : Run) :
  NoDup (map run_name rs) -> In m rs -> group_named (run_name m) rs = [m].
Proof.
  unfold group_named, name_is.
  induction rs as [|r rs IH]; simpl; intros Hn Hin; [destruct Hin|].
  apply NoDup_cons_iff in Hn. destruct Hn as [Hr Hn].
  destruct Hin as [->|Hin].
  - rewrite String.eqb_refl. f_equal.
    destruct (filter (fun run => String.eqb (run_name run) (run_name m)) rs) as [|r' l] eqn:E;
      [reflexivity|].
    assert (H : In r' (filter (fun run => String.eqb (run_name run) (run_name m)) rs))
      by (rewrite E; left; reflexivity).
    apply filter_In in H. destruct H as [H1 H2]. apply String.eqb_eq in H2.
    exfalso. apply Hr. rewrite <- H2. apply in_map. exact H1.
  - destruct (String.eqb (run_name r) (run_name m)) eqn:E.
    + apply String.eqb_eq in E. exfalso. apply Hr. rewrite E. apply in_map. exact Hin.
    + apply IH; assumption.
Qed.

(** ** The merged run *)

Lemma fold_push_flat_map {X : Type} (field : Run -> option (list X)) (group : list Run)
  (merged : list X) :
  fold_left
    (fun merged run =>
       match field run with
       | Some entries => merged ++ entries
       | None => merged
       end)
    group merged
  = merged ++ flat_map (fun run => entries_of (field run)) group.
Proof.
  revert merged. induction group as [|run group IH]; intros merged; simpl.
  - rewrite app_nil_r. reflexivity.
  - rewrite IH. unfold entries_of at 2.
    destruct (field run); [rewrite app_assoc | rewrite app_nil_l]; reflexivity.
Qed.

Lemma push_all_flat_map {X : Type} (field : Run -> option (list X)) (group : list Run) :
  push_all field group = flat_map (fun run => entries_of (field run)) group.
Proof. unfold push_all. rewrite fold_push_flat_map. reflexivity. Qed.

Lemma mergedRun_fields (baseName : string) (first : Run) (rest : list Run) (m : Run) :
  mergedRun baseName (first :: rest) = Some m ->
  run_name m = baseName
  /\ log_file m = None
  /\ log_files m = Some (map log_file (first :: rest))
  /\ training_metrics m
     = Some (sort_dedup Metric.step
               (flat_map (fun run => entries_of (training_metrics run)) (first :: rest)))
  /\ evaluation_results m
     = Some (sort_dedup Eval.step
               (flat_map (fun run => entries_of (evaluation_results run)) (first :: rest)))
  /\ config m = Some (entries_of (config first)).
Proof.
  unfold mergedRun. rewrite !push_all_flat_map. intros H. injection H as <-.
  repeat split.
Qed.

(** The first entry of a step in a concatenation of files lies in the first
    file that has the step. *)
Lemma find_flat_map_first {X Y : Type} (p : Y -> bool) (f : X -> list Y) (l : list X) (a : Y) :
  find p (flat_map f l) = Some a ->
  exists before file after,
    l = before ++ file :: after
    /\ (forall earlier, In earlier before -> find p (f earlier) = None)
    /\ find p (f file) = Some a.
Proof.
  induction l as [|r l IH]; simpl; [discriminate|].
  rewrite find_app. destruct (find p (f r)) as [b|] eqn:E.
  - intros H. injection H as <-. exists [], r, l. repeat split.
    + intros earlier [].
    + exact E.
  - intros H. destruct (IH H) as (before & file & after & -> & Hb & Hf).
    exists (r :: before), file, after. repeat split.
    + intros earlier [<-|Hin]; [exact E | apply Hb; exact Hin].
    + exact Hf.
Qed.

Lemma group_exists_merged (trainingData merged : TrainingData) (name : string)
  (first second : Run) (rest : list Run) :
  mergeContinuationLogs trainingData = Some merged ->
  group_named name (runs trainingData) = first :: second :: rest ->
  exists m,
    group_named name (runs merged) = [m]
    /\ mergedRun name (first :: second :: rest) = Some m.
Proof.
  intros Hm Hg.
  destruct (mergedRun name (first :: second :: rest)) as [m|] eqn:E; [|discriminate].
  exists m. split; [|reflexivity].
  destruct (mergeContinuationLogs_spec _ _ Hm) as (_ & Hnd & Hin).
  assert (Hname : run_name m = name) by (apply mergedRun_fields in E; tauto).
  rewrite <- Hname. apply unique_name_filter; [exact Hnd|].
  apply Hin. exists name. rewrite Hg. exact E.
Qed.

Lemma long_group (group : list Run) :
  (1 < List.length group)%nat -> exists first second rest, group = first :: second :: rest.
Proof.
  destruct group as [|first [|second rest]]; simpl; intros H; try lia.
  exists first, second, rest. reflexivity.
Qed.

Lemma In_steps_flat_map (group : list Run) (s : Z) :
  (exists file, In file group /\ In s (map Metric.step (entries_of (training_metrics file))))
  <-> In s (map Metric.step (flat_map (fun run => entries_of (training_metrics run)) group)).
Proof.
  rewrite in_map_iff. split.
  - intros (file & Hf & Hs). apply in_map_iff in Hs. destruct Hs as (a & Ha & Hin).
    exists a. split; [exact Ha|]. apply in_flat_map. exists file. split; assumption.
  - intros (a & Ha & Hin). apply in_flat_map in Hin. destruct Hin as (file & Hf & Hin).
    exists file. split; [exact Hf|]. apply in_map_iff. exists a. split; assumption.
Qed.

(** ** Claims about [mergeContinuationLogs] *)

(** C1: in the run merged from the runs of one name (two or more), every step
    that occurs in a file's [training_metrics] -- in particular a step that
    several files share -- is kept in exactly one sample, and that sample is
    the one of the first file, in discovery order, that has the step. *)
Theorem merge_keeps_first_file_sample
  (trainingData merged : TrainingData) (name : string) (s : Z) :
  mergeContinuationLogs trainingData = Some merged ->
  (1 < List.length (group_named name (runs trainingData)))%nat ->
  (exists file, In file (group_named name (runs trainingData))
                /\ In s (map Metric.step (entries_of (training_metrics file)))) ->
  exists m metrics sample before file after,
    group_named name (runs merged) = [m]
    /\ training_metrics m = Some metrics
    /\ filter (has_step Metric.step s) metrics = [sample]
    /\ group_named name (runs trainingData) = before ++ file :: after
    /\ (forall earlier a, In earlier before ->
          In a (entries_of (training_metrics earlier)) -> Metric.step a <> s)
    /\ find (has_step Metric.step s) (entries_of (training_metrics file)) = Some sample.
Proof.
  intros Hm Hlen Hs.
  destruct (long_group _ Hlen) as (first & second & rest & Hg).
  destruct (group_exists_merged _ _ _ _ _ _ Hm Hg) as (m & Hone & Hrun).
  apply mergedRun_fields in Hrun. destruct Hrun as (_ & _ & _ & Htm & _).
  rewrite Hg in Hs |- *. apply In_steps_flat_map in Hs.
  set (all := flat_map (fun run => entries_of (training_metrics run)) (first :: second :: rest)) in *.
  destruct (find (has_step Metric.step s) all) as [sample|] eqn:E.
  - destruct (find_flat_map_first _ _ _ _ E) as (before & file & after & Hsplit & Hb & Hf).
    exists m, (sort_dedup Metric.step all), sample, before, file, after.
    repeat split; try assumption.
    + rewrite sort_dedup_filter, E. reflexivity.
    + intros earlier a He. apply find_has_step_None. apply Hb. exact He.
  - exfalso. rewrite find_has_step_None in E.
    apply in_map_iff in Hs. destruct Hs as (a & Ha & Hin). exact (E a Hin Ha).
Qed.

Example two_logs_merge : mergeContinuationLogs two_logs = Some two_logs_merged.
Proof. vm_compute. reflexivity. Qed.

Example array_index_names_come_first :
  option_map (fun merged => map run_name (runs merged))
    (mergeContinuationLogs (document [file_b; file_10; file_2]))
  = Some ["2"; "10"; "b"]%string.
Proof. vm_compute. reflexivity. Qed.

Example inherited_name_throws :
  mergeContinuationLogs (document [file_A; file_constructor]) = None.
Proof. vm_compute. reflexivity. Qed.

Example array_index_samples :
  map array_index ["0"; "7"; "10"; "007"; "4294967294"; "4294967295"; "-1"; "1.5"; "b"; ""]%string
  = [Some 0; Some 7; Some 10; None; Some 4294967294; None; None; None; None; None]%N.
Proof. vm_compute. reflexivity. Qed.

Lemma merge_keeps_first_file_sample_two_logs :
  exists m metrics sample before file after,
    group_named "B" (runs two_logs_merged) = [m]
    /\ training_metrics m = Some metrics
    /\ filter (has_step Metric.step 500) metrics = [sample]
    /\ group_named "B" (runs two_logs) = before ++ file :: after
    /\ (forall earlier a, In earlier before ->
          In a (entries_of (training_metrics earlier)) -> Metric.step a <> 500)
    /\ find (has_step Metric.step 500) (entries_of (training_metrics file)) = Some sample.
Proof.
  apply (merge_keeps_first_file_sample two_logs two_logs_merged "B" 500).
  - vm_compute. reflexivity.
  - vm_compute. lia.
  - exists file_B2. split; [right; left; reflexivity | left; reflexivity].
Defined.

(** C2, as stated, fails on a single log: the run is kept as it is, with the
    repeated step 5 and the late step 3 of its file. *)
Lemma single_log_kept_unsorted :
  exists merged,
    mergeContinuationLogs (document [file_R]) = Some merged
    /\ In file_R (runs merged)
    /\ ~ strictly_increasing file_R.
Proof.
  exists (document [file_R]). split; [vm_compute; reflexivity|].
  split; [left; reflexivity|].
  intros [H _]. unfold strictly_ascending in H. simpl in H.
  apply StronglySorted_inv in H. destruct H as [_ H].
  apply Forall_inv in H. simpl in H. lia.
Qed.

(** C2, amended: a run of the post-merge list that replaces two or more runs
    of one name has [training_metrics] and [evaluation_results] strictly
    increasing in step, without a repeated step; a run alone with its name is
    the input run itself. *)
Theorem merged_group_strictly_increasing
  (trainingData merged : TrainingData) (m : Run) :
  mergeContinuationLogs trainingData = Some merged ->
  In m (runs merged) ->
  ((1 < List.length (group_named (run_name m) (runs trainingData)))%nat ->
     strictly_increasing m
     /\ NoDup (map Metric.step (entries_of (training_metrics m)))
     /\ NoDup (map Eval.step (entries_of (evaluation_results m))))
  /\ (forall single, group_named (run_name m) (runs trainingData) = [single] -> m = single).
Proof.
  intros Hm Hin.
  destruct (mergeContinuationLogs_spec _ _ Hm) as (_ & _ & Hspec).
  apply Hspec in Hin. destruct Hin as [name Hp].
  pose proof (produced_name _ _ _ Hp) as Hname. subst name.
  destruct (group_named (run_name m) (runs trainingData)) as [|first [|second rest]] eqn:Hg.
  - destruct Hp.
  - simpl in Hp. split; [simpl; lia|]. intros single H. injection H as <-. exact Hp.
  - split; [|intros single H; discriminate].
    intros _. apply mergedRun_fields in Hp.
    destruct Hp as (_ & _ & _ & Htm & Her & _).
    unfold strictly_increasing. rewrite Htm, Her. simpl.
    repeat split.
    + apply sort_dedup_strictly_ascending.
    + apply sort_dedup_strictly_ascending.
    + apply strictly_ascending_NoDup, sort_dedup_strictly_ascending.
    + apply strictly_ascending_NoDup, sort_dedup_strictly_ascending.
Qed.

Lemma merged_group_strictly_increasing_two_logs :
  ((1 < List.length (group_named (run_name merged_B) (runs two_logs)))%nat ->
     strictly_increasing merged_B
     /\ NoDup (map Metric.step (entries_of (training_metrics merged_B)))
     /\ NoDup (map Eval.step (entries_of (evaluation_results merged_B))))
  /\ (forall single, group_named (run_name merged_B) (runs two_logs) = [single] ->
        merged_B = single).
Proof.
  apply (merged_group_strictly_increasing two_logs two_logs_merged merged_B).
  - vm_compute. reflexivity.
  - left. reflexivity.
Defined.

(** C7: a run whose name no other run of the input list bears is, itself and
    unchanged, the one run of that name in the post-merge list. *)
Theorem single_run_passes_through
  (trainingData merged : TrainingData) (before after : list Run) (run : Run) :
  mergeContinuationLogs trainingData = Some merged ->
  runs trainingData = before ++ run :: after ->
  (forall other, In other (before ++ after) -> run_name other <> run_name run) ->
  group_named (run_name run) (runs merged) = [run].
Proof.
  intros Hm Hruns Hother.
  assert (Hnone : forall l, (forall other, In other l -> run_name other <> run_name run) ->
                            group_named (run_name run) l = []).
  { induction l as [|r l IH]; intros H; simpl; [reflexivity|].
    unfold name_is at 1. destruct (String.eqb (run_name r) (run_name run)) eqn:E.
    - apply String.eqb_eq in E. exfalso. apply (H r); [left; reflexivity | exact E].
    - apply IH. intros other Ho. apply H. right. exact Ho. }
  assert (Hg : group_named (run_name run) (runs trainingData) = [run]).
  { rewrite Hruns, group_named_app. simpl. unfold name_is.
    rewrite String.eqb_refl.
    rewrite !Hnone; [reflexivity | |];
      intros other Ho; apply Hother, in_or_app; [right | left]; exact Ho. }
  destruct (mergeContinuationLogs_spec _ _ Hm) as (_ & Hnd & Hspec).
  apply unique_name_filter; [exact Hnd|].
  apply Hspec. exists (run_name run). rewrite Hg. reflexivity.
Qed.

Lemma single_run_passes_through_two_logs :
  group_named (run_name file_A) (runs two_logs_merged) = [file_A].
Proof.
  apply (single_run_passes_through two_logs two_logs_merged [file_B1] [file_B2] file_A).
  - vm_compute. reflexivity.
  - reflexivity.
  - intros other [<-|[<-|[]]]; discriminate.
Defined.

(** C10: the steps of the merged run's [training_metrics] are those of the
    contributing runs' lists, each once, and every sample kept is a sample of
    a contributing run. *)
Theorem merged_steps_are_the_union
  (trainingData merged : TrainingData) (name : string) :
  mergeContinuationLogs trainingData = Some merged ->
  (1 < List.length (group_named name (runs trainingData)))%nat ->
  exists m metrics,
    group_named name (runs merged) = [m]
    /\ training_metrics m = Some metrics
    /\ (forall s, In s (map Metric.step metrics) <->
                  exists file, In file (group_named name (runs trainingData))
                               /\ In s (map Metric.step (entries_of (training_metrics file))))
    /\ (forall a, In a metrics ->
                  exists file, In file (group_named name (runs trainingData))
                               /\ In a (entries_of (training_metrics file)))
    /\ NoDup (map Metric.step metrics).
Proof.
  intros Hm Hlen.
  destruct (long_group _ Hlen) as (first & second & rest & Hg).
  destruct (group_exists_merged _ _ _ _ _ _ Hm Hg) as (m & Hone & Hrun).
  apply mergedRun_fields in Hrun. destruct Hrun as (_ & _ & _ & Htm & _).
  rewrite Hg. eexists m, _. split; [exact Hone|]. split; [exact Htm|].
  repeat split.
  - intros H. apply In_steps_flat_map.
    exact (proj1 (sort_dedup_steps Metric.step _ s) H).
  - intros H. apply (proj2 (sort_dedup_steps Metric.step _ s)).
    apply In_steps_flat_map. exact H.
  - intros a Ha. apply sort_dedup_incl in Ha. apply in_flat_map in Ha. exact Ha.
  - apply strictly_ascending_NoDup, sort_dedup_strictly_ascending.
Qed.

Lemma merged_steps_are_the_union_two_logs :
  exists m metrics,
    group_named "B" (runs two_logs_merged) = [m]
    /\ training_metrics m = Some metrics
    /\ (forall s, In s (map Metric.step metrics) <->
                  exists file, In file (group_named "B" (runs two_logs))
                               /\ In s (map Metric.step (entries_of (training_metrics file))))
    /\ (forall a, In a metrics ->
                  exists file, In file (group_named "B" (runs two_logs))
                               /\ In a (entries_of (training_metrics file)))
    /\ NoDup (map Metric.step metrics).
Proof.
  apply (merged_steps_are_the_union two_logs two_logs_merged "B").
  - vm_compute. reflexivity.
  - vm_compute. lia.
Defined.

(** C5, as stated, fails when a file repeats a step: the two logs of D share
    no step, yet the merged run keeps 2 of their 3 samples. *)
Lemma disjoint_logs_drop_repeated_step :
  exists merged m metrics,
    mergeContinuationLogs (document [file_D1; file_D2]) = Some merged
    /\ group_named "D" (runs (document [file_D1; file_D2])) = [file_D1; file_D2]
    /\ (forall a b, In a (entries_of (training_metrics file_D1)) ->
                    In b (entries_of (training_metrics file_D2)) ->
                    Metric.step a <> Metric.step b)
    /\ group_named "D" (runs merged) = [m]
    /\ training_metrics m = Some metrics
    /\ List.length metrics
       <> (List.length (entries_of (training_metrics file_D1))
           + List.length (entries_of (training_metrics file_D2)))%nat.
Proof.
  eexists _, _, _. split; [vm_compute; reflexivity|].
  split; [reflexivity|]. split.
  - simpl. intros a b [<-|[<-|[]]] [<-|[]]; simpl; lia.
  - split; [reflexivity|]. split; [reflexivity|]. simpl. lia.
Qed.

(** C5, amended: for two runs of one name whose [training_metrics] share no
    step and repeat no step of their own, the merged run's [training_metrics]
    is the concatenation sorted by step ascending, and no sample is dropped. *)
Theorem disjoint_logs_concatenate
  (trainingData merged : TrainingData) (name : string) (r1 r2 : Run) :
  mergeContinuationLogs trainingData = Some merged ->
  group_named name (runs trainingData) = [r1; r2] ->
  (forall a b, In a (entries_of (training_metrics r1)) ->
               In b (entries_of (training_metrics r2)) ->
               Metric.step a <> Metric.step b) ->
  NoDup (map Metric.step (entries_of (training_metrics r1))) ->
  NoDup (map Metric.step (entries_of (training_metrics r2))) ->
  exists m metrics,
    group_named name (runs merged) = [m]
    /\ training_metrics m = Some metrics
    /\ metrics
       = Array_sort (by_step Metric.step)
           (entries_of (training_metrics r1) ++ entries_of (training_metrics r2))
    /\ Permutation metrics
         (entries_of (training_metrics r1) ++ entries_of (training_metrics r2))
    /\ strictly_ascending Metric.step metrics
    /\ List.length metrics
       = (List.length (entries_of (training_metrics r1))
          + List.length (entries_of (training_metrics r2)))%nat.
Proof.
  intros Hm Hg Hdisj Hn1 Hn2.
  destruct (group_exists_merged _ _ _ _ _ _ Hm Hg) as (m & Hone & Hrun).
  apply mergedRun_fields in Hrun. destruct Hrun as (_ & _ & _ & Htm & _).
  simpl in Htm. rewrite app_nil_r in Htm.
  set (all := entries_of (training_metrics r1) ++ entries_of (training_metrics r2)) in *.
  assert (Hnd : NoDup (map Metric.step all)).
  { unfold all. rewrite map_app. apply NoDup_app; [exact Hn1 | exact Hn2 |].
    intros s H1 H2. apply in_map_iff in H1, H2.
    destruct H1 as (a & Ha & Hina). destruct H2 as (b & Hb & Hinb).
    apply (Hdisj a b Hina Hinb). congruence. }
  assert (Heq : sort_dedup Metric.step all = Array_sort (by_step Metric.step) all)
    by (apply sort_dedup_NoDup; exact Hnd).
  exists m, (sort_dedup Metric.step all).
  split; [exact Hone|]. split; [exact Htm|]. split; [exact Heq|]. split; [|split].
  - rewrite Heq. apply Array_sort_perm.
  - apply sort_dedup_strictly_ascending.
  - rewrite Heq, Array_sort_length. unfold all. apply length_app.
Qed.

Lemma disjoint_logs_concatenate_E :
  exists merged,
    mergeContinuationLogs (document [file_E1; file_E2]) = Some merged
    /\ exists m metrics,
         group_named "E" (runs merged) = [m]
         /\ training_metrics m = Some metrics
         /\ metrics
            = Array_sort (by_step Metric.step)
                (entries_of (training_metrics file_E1)
                 ++ entries_of (training_metrics file_E2))
         /\ Permutation metrics
              (entries_of (training_metrics file_E1)
               ++ entries_of (training_metrics file_E2))
         /\ strictly_ascending Metric.step metrics
         /\ List.length metrics
            = (List.length (entries_of (training_metrics file_E1))
               + List.length (entries_of (training_metrics file_E2)))%nat.
Proof.
  eexists. split; [vm_compute; reflexivity|].
  apply (disjoint_logs_concatenate (document [file_E1; file_E2]) _ "E" file_E1 file_E2).
  - vm_compute. reflexivity.
  - reflexivity.
  - simpl. intros a b [<-|[]] [<-|[]]. simpl. lia.
  - simpl. repeat constructor. intros [].
  - simpl. repeat constructor. intros [].
Defined.

(** C6, as stated, fails when the first file has an empty config object: the
    merged run takes that empty object, not the config of the second file. *)
Lemma merged_config_ignores_later_files :
  exists merged m,
    mergeContinuationLogs (document [file_E1; file_E2]) = Some merged
    /\ group_named "E" (runs merged) = [m]
    /\ entries_of (config file_E1) = []
    /\ entries_of (config file_E2) <> []
    /\ config m <> config file_E2
    /\ config m = Some [].
Proof.
  eexists _, _. split; [vm_compute; reflexivity|].
  split; [reflexivity|]. split; [reflexivity|].
  split; [discriminate|]. split; [discriminate | reflexivity].
Qed.

(** C6, amended: the merged run's config is the config of the first file of
    the group, in discovery order, whatever it holds, and the empty mapping
    when that file has none; later files are not read. *)
Theorem merged_config_from_first_file
  (trainingData merged : TrainingData) (name : string) (first second : Run)
  (rest : list Run) :
  mergeContinuationLogs trainingData = Some merged ->
  group_named name (runs trainingData) = first :: second :: rest ->
  exists m,
    group_named name (runs merged) = [m]
    /\ config m = Some (entries_of (config first)).
Proof.
  intros Hm Hg.
  destruct (group_exists_merged _ _ _ _ _ _ Hm Hg) as (m & Hone & Hrun).
  apply mergedRun_fields in Hrun. exists m. tauto.
Qed.

Lemma merged_config_from_first_file_two_logs :
  exists m,
    group_named "B" (runs two_logs_merged) = [m]
    /\ config m = Some (entries_of (config file_B1)).
Proof.
  apply (merged_config_from_first_file two_logs two_logs_merged "B" file_B1 file_B2 []).
  - vm_compute. reflexivity.
  - reflexivity.
Defined.

(** ** Chart data and the run summary *)

Lemma forEach_push_In {X Y : Type} (callback : X -> nat -> list Y) (l : list X)
  (runIndex : nat) (d : Y) :
  In d (forEach_push callback runIndex l) <->
  exists k run, nth_error l k = Some run /\ In d (callback run (runIndex + k)%nat).
Proof.
  revert runIndex. induction l as [|r l IH]; intros runIndex; simpl.
  - split; [tauto | intros (k & run & H & _); destruct k; discriminate].
  - rewrite in_app_iff, IH. split.
    + intros [H|(k & run & Hk & H)].
      * exists 0%nat, r. rewrite Nat.add_0_r. split; [reflexivity | exact H].
      * exists (S k), run. rewrite Nat.add_succ_r. split; assumption.
    + intros (k & run & Hk & H). destruct k as [|k]; simpl in Hk.
      * injection Hk as <-. rewrite Nat.add_0_r in H. left. exact H.
      * right. exists k, run. rewrite Nat.add_succ_r in H. split; assumption.
Qed.

(** The choice ['all'] never selects a missing run. *)
Lemma selected_runs_all (trainingData : TrainingData) :
  selected_runs all trainingData = Some (runs trainingData).
Proof. reflexivity. Qed.

Lemma selected_runs_index (trainingData : TrainingData) (i : nat) (run : Run) :
  nth_error (runs trainingData) i = Some run ->
  selected_runs (index i) trainingData = Some [run].
Proof. intros H. simpl. rewrite H. reflexivity. Qed.

(** *** Spread calls and the combined chart *)

Lemma spread_call_Some {X Y : Type} (argumentLimit : N) (f : list X -> Y) (array : list X)
  (v : Y) :
  spread_call argumentLimit f array = Some v <->
  (N.of_nat (List.length array) <= argumentLimit)%N /\ v = f array.
Proof.
  unfold spread_call.
  destruct (N.leb_spec (N.of_nat (List.length array)) argumentLimit) as [Hle|Hgt].
  - split.
    + intros H. injection H as <-. split; [exact Hle | reflexivity].
    + intros [_ ->]. reflexivity.
  - split; [discriminate | intros [Hle _]; lia].
Qed.

Lemma forEach_push_throwing_Some {X Y : Type} (callback : X -> nat -> option (list Y))
  (pushes : X -> nat -> list Y) (returns : X -> Prop) (l : list X) (runIndex : nat)
  (datasets : list Y) :
  (forall run i pushed,
      callback run i = Some pushed <-> returns run /\ pushed = pushes run i) ->
  forEach_push_throwing callback runIndex l = Some datasets <->
  Forall returns l /\ datasets = forEach_push pushes runIndex l.
Proof.
  intros Hcb. revert runIndex datasets.
  induction l as [|run l IH]; intros runIndex datasets; simpl.
  - split.
    + intros H. injection H as <-. split; [constructor | reflexivity].
    + intros [_ ->]. reflexivity.
  - destruct (callback run runIndex) as [pushed|] eqn:Ecb.
    + apply Hcb in Ecb. destruct Ecb as [Hrun ->].
      destruct (forEach_push_throwing callback (S runIndex) l) as [more|] eqn:Erest.
      * apply IH in Erest. destruct Erest as [Hl ->]. split.
        -- intros H. injection H as <-. split; [constructor; assumption | reflexivity].
        -- intros [_ ->]. reflexivity.
      * split; [discriminate|]. intros [Hl _]. exfalso.
        apply Forall_cons_iff in Hl. destruct Hl as [_ Hl].
        assert (H : forEach_push_throwing callback (S runIndex) l
                    = Some (forEach_push pushes (S runIndex) l))
          by (apply IH; split; [exact Hl | reflexivity]).
        rewrite H in Erest. discriminate.
    + split; [discriminate|]. intros [Hl _]. exfalso.
      apply Forall_cons_iff in Hl. destruct Hl as [Hrun _].
      assert (H : callback run runIndex = Some (pushes run runIndex))
        by (apply Hcb; split; [exact Hrun | reflexivity]).
      rewrite H in Ecb. discriminate.
Qed.

(** The callback of the combined chart returns for the runs whose samples
    the engine accepts as arguments, and then pushes the two series. *)
Lemma getCombinedChartData_run_Some (argumentLimit : N) (run : Run) (runIndex : nat)
  (pushed : list Dataset) :
  getCombinedChartData_run argumentLimit run runIndex = Some pushed <->
  within_limit argumentLimit run /\ pushed = combined_series run runIndex.
Proof.
  unfold getCombinedChartData_run, within_limit, combined_series, spread_call.
  destruct (training_metrics run) as [[|m metrics]|]; cbn [entries_of].
  - split; [intros H; injection H as <-; split; [simpl; lia | reflexivity]
           | intros [_ ->]; reflexivity].
  - rewrite !length_map.
    destruct (N.leb_spec (N.of_nat (List.length (m :: metrics))) argumentLimit) as [Hle|Hgt].
    + split; [intros H; injection H as <-; split; [exact Hle | reflexivity]
             | intros [_ ->]; reflexivity].
    + split; [discriminate | intros [Hle _]; lia].
  - split; [intros H; injection H as <-; split; [simpl; lia | reflexivity]
           | intros [_ ->]; reflexivity].
Qed.

(** The combined chart is returned when every selected run is within the
    limit, and holds the series of the selected runs in order. *)
Lemma getCombinedChartData_Some (argumentLimit : N) (selectedRun : Selection)
  (trainingData : TrainingData) (datasets : list Dataset) :
  getCombinedChartData argumentLimit selectedRun trainingData = Some datasets <->
  exists rs,
    selected_runs selectedRun trainingData = Some rs
    /\ Forall (within_limit argumentLimit) rs
    /\ datasets = forEach_push combined_series 0 rs.
Proof.
  unfold getCombinedChartData.
  destruct (selected_runs selectedRun trainingData) as [rs|].
  - rewrite (forEach_push_throwing_Some _ combined_series (within_limit argumentLimit)).
    + split.
      * intros [Hl ->]. exists rs. repeat split. exact Hl.
      * intros (rs' & Hrs & Hl & ->). injection Hrs as <-. split; [exact Hl | reflexivity].
    + intros run i pushed. apply getCombinedChartData_run_Some.
  - split; [discriminate | intros (rs & H & _); discriminate].
Qed.

(** The series of the run at position [k] of the selection are in the
    returned chart. *)
Lemma getCombinedChartData_In (argumentLimit : N) (selectedRun : Selection)
  (trainingData : TrainingData) (rs : list Run) (datasets : list Dataset)
  (k : nat) (run : Run) (d : Dataset) :
  getCombinedChartData argumentLimit selectedRun trainingData = Some datasets ->
  selected_runs selectedRun trainingData = Some rs ->
  nth_error rs k = Some run ->
  In d (combined_series run k) ->
  In d datasets.
Proof.
  intros H Hsel Hk Hd. apply getCombinedChartData_Some in H.
  destruct H as (rs' & Hsel' & _ & ->). rewrite Hsel in Hsel'. injection Hsel' as <-.
  apply forEach_push_In. exists k, run. split; [exact Hk | exact Hd].
Qed.

(** ** Floating-point facts *)

Lemma Prim2SF_zero : Prim2SF 0 = S754_zero false.
Proof. reflexivity. Qed.

Lemma Prim2SF_neg_zero : Prim2SF (-0) = S754_zero true.
Proof. reflexivity. Qed.

Lemma zero_value_spec (v : float) :
  zero_value v <-> exists sign, Prim2SF v = S754_zero sign.
Proof.
  split.
  - intros [->| ->]; eexists; reflexivity.
  - intros [sign H]. apply (f_equal SF2Prim) in H. rewrite SF2Prim_Prim2SF in H.
    destruct sign; [right | left]; exact H.
Qed.

(** [v === 0] holds of the two zeros only. *)
Lemma eqb_zero (v : float) : (v =? 0)%float = true <-> zero_value v.
Proof.
  rewrite eqb_spec, zero_value_spec, Prim2SF_zero.
  destruct (Prim2SF v) as [sign|sign| |sign m e]; simpl.
  - split; [intros _; exists sign; reflexivity | reflexivity].
  - split; [destruct sign; discriminate | intros [s H]; discriminate].
  - split; [discriminate | intros [s H]; discriminate].
  - split; [destruct sign; discriminate | intros [s H]; discriminate].
Qed.

(** A zero times a quotient by a zero is NaN, whatever the dividend:
    the quotient is an infinity or NaN. *)
Lemma zero_times_quotient_by_zero (z1 z2 v : float) :
  zero_value z1 -> zero_value z2 -> (z1 * (v / z2))%float = nan.
Proof.
  intros H1 H2. apply zero_value_spec in H1, H2.
  destruct H1 as [s1 H1]. destruct H2 as [s2 H2].
  apply Prim2SF_inj. rewrite mul_spec, div_spec, H1, H2.
  destruct (Prim2SF v) as [sign|sign| |sign m e]; reflexivity.
Qed.

Lemma Math_max_from_zeros (values : list float) (highest : float) :
  (forall v, In v values -> zero_value v) ->
  zero_value highest \/ (highest = neg_infinity /\ values <> []) ->
  zero_value (Math_max_from highest values).
Proof.
  revert highest. induction values as [|v values IH]; intros highest Hz Hh.
  - destruct Hh as [Hh|[_ Hne]]; [exact Hh | contradiction].
  - assert (Hv : zero_value v) by (apply Hz; left; reflexivity).
    assert (Hrest : forall w, In w values -> zero_value w)
      by (intros w Hw; apply Hz; right; exact Hw).
    assert (Hstep : exists highest', zero_value highest'
              /\ Math_max_from highest (v :: values) = Math_max_from highest' values).
    { destruct Hv as [-> | ->]; destruct Hh as [[-> | ->]|[-> _]];
        eexists; (split; [|reflexivity]); (left; reflexivity) || (right; reflexivity). }
    destruct Hstep as (highest' & Hz' & ->).
    apply IH; [exact Hrest | left; exact Hz'].
Qed.

Lemma Math_max_zeros (values : list float) :
  values <> [] -> (forall v, In v values -> zero_value v) -> zero_value (Math_max values).
Proof.
  intros Hne Hz. apply Math_max_from_zeros; [exact Hz | right; split; [reflexivity | exact Hne]].
Qed.

(** *** The order of binary64 values *)

Lemma SFleb_trans (a b c : spec_float) :
  SFleb a b = true -> SFleb b c = true -> SFleb a c = true.
Proof.
  unfold SFleb, SFcompare.
  destruct a as [sa|sa| |sa ma ea], b as [sb|sb| |sb mb eb], c as [sc|sc| |sc mc ec];
    try destruct sa; try destruct sb; try destruct sc; by_compare_cases.
Qed.

Lemma SFeqb_refl (a : spec_float) : a <> S754_nan -> SFeqb a a = true.
Proof.
  unfold SFeqb, SFcompare.
  destruct a as [sa|sa| |sa ma ea]; try destruct sa; by_compare_cases.
Qed.

Lemma SFleb_refl (a : spec_float) : a <> S754_nan -> SFleb a a = true.
Proof.
  unfold SFleb, SFcompare.
  destruct a as [sa|sa| |sa ma ea]; try destruct sa; by_compare_cases.
Qed.

Lemma SFltb_false_leb (a b : spec_float) :
  a <> S754_nan -> b <> S754_nan -> SFltb a b = false -> SFleb b a = true.
Proof.
  unfold SFleb, SFltb, SFcompare.
  destruct a as [sa|sa| |sa ma ea], b as [sb|sb| |sb mb eb];
    try destruct sa; try destruct sb; by_compare_cases.
Qed.

Lemma SFltb_leb (a b : spec_float) : SFltb a b = true -> SFleb a b = true.
Proof.
  unfold SFleb, SFltb. destruct (SFcompare a b) as [[| |]|]; try reflexivity; discriminate.
Qed.

Lemma is_nan_false (v : float) : is_nan v = false <-> Prim2SF v <> S754_nan.
Proof.
  unfold is_nan. rewrite eqb_spec, negb_false_iff. split.
  - intros H E. rewrite E in H. discriminate.
  - apply SFeqb_refl.
Qed.

Lemma leb_trans (a b c : float) :
  (a <=? b)%float = true -> (b <=? c)%float = true -> (a <=? c)%float = true.
Proof. rewrite !leb_spec. apply SFleb_trans. Qed.

Lemma leb_refl (a : float) : is_nan a = false -> (a <=? a)%float = true.
Proof. rewrite is_nan_false, leb_spec. apply SFleb_refl. Qed.

Lemma ltb_false_leb (a b : float) :
  is_nan a = false -> is_nan b = false ->
  (a <? b)%float = false -> (b <=? a)%float = true.
Proof. rewrite !is_nan_false, ltb_spec, leb_spec. apply SFltb_false_leb. Qed.

Lemma ltb_leb (a b : float) : (a <? b)%float = true -> (a <=? b)%float = true.
Proof. rewrite ltb_spec, leb_spec. apply SFltb_leb. Qed.

Lemma is_pos_zero_eq (v : float) : is_pos_zero v = true -> v = 0%float.
Proof.
  unfold is_pos_zero. rewrite classify_spec. intros H.
  rewrite <- (SF2Prim_Prim2SF v).
  destruct (Prim2SF v) as [[|]|[|]| |[|] m e]; try discriminate; try reflexivity;
    unfold SF64classify, SFclassify in H;
    destruct (Z.eqb (Zpos (digits2_pos m)) prec); discriminate.
Qed.

Lemma is_neg_zero_eq (v : float) : is_neg_zero v = true -> v = (-0)%float.
Proof.
  unfold is_neg_zero. rewrite classify_spec. intros H.
  rewrite <- (SF2Prim_Prim2SF v).
  destruct (Prim2SF v) as [[|]|[|]| |[|] m e]; try discriminate; try reflexivity;
    unfold SF64classify, SFclassify in H;
    destruct (Z.eqb (Zpos (digits2_pos m)) prec); discriminate.
Qed.

Lemma leb_neg_infinity (v : float) :
  (v <=? neg_infinity)%float = true -> v = neg_infinity.
Proof.
  rewrite leb_spec. intros H. rewrite <- (SF2Prim_Prim2SF v).
  change (Prim2SF neg_infinity) with (S754_infinity true) in H.
  destruct (Prim2SF v) as [[|]|[|]| |[|] m e]; try discriminate; reflexivity.
Qed.

(** *** [Math.max] *)

(** One round of the loop of [Math.max], on a number that is not NaN. *)
Lemma Math_max_round (highest number : float) :
  is_nan highest = false -> is_nan number = false ->
  exists highest',
    (forall rest, Math_max_from highest (number :: rest) = Math_max_from highest' rest)
    /\ is_nan highest' = false
    /\ (highest <=? highest')%float = true
    /\ (number <=? highest')%float = true
    /\ (highest' = highest \/ highest' = number).
Proof.
  intros Hh Hn.
  destruct (is_pos_zero number && is_neg_zero highest)%bool eqn:Ez.
  - apply andb_true_iff in Ez. destruct Ez as [Ep En].
    apply is_pos_zero_eq in Ep. apply is_neg_zero_eq in En. subst.
    exists 0%float. repeat split. right. reflexivity.
  - destruct (highest <? number)%float eqn:El.
    + exists number. split; [|split; [|split; [|split]]].
      * intros rest. simpl. rewrite Hn, Ez, El. reflexivity.
      * exact Hn.
      * apply ltb_leb. exact El.
      * apply leb_refl. exact Hn.
      * right. reflexivity.
    + exists highest. split; [|split; [|split; [|split]]].
      * intros rest. simpl. rewrite Hn, Ez, El. reflexivity.
      * exact Hh.
      * apply leb_refl. exact Hh.
      * apply ltb_false_leb; assumption.
      * left. reflexivity.
Qed.

Lemma Math_max_from_bounds (values : list float) (highest : float) :
  is_nan highest = false ->
  Forall (fun v => is_nan v = false) values ->
  is_nan (Math_max_from highest values) = false
  /\ (highest <=? Math_max_from highest values)%float = true
  /\ Forall (fun v => (v <=? Math_max_from highest values)%float = true) values
  /\ (Math_max_from highest values = highest \/ In (Math_max_from highest values) values).
Proof.
  revert highest. induction values as [|v values IH]; intros highest Hh Hv.
  - simpl. repeat split; [exact Hh | apply leb_refl; exact Hh | constructor | left; reflexivity].
  - apply Forall_cons_iff in Hv. destruct Hv as [Hv Hrest].
    destruct (Math_max_round highest v Hh Hv) as (h' & Heq & Hn' & Hle & Hvle & Hor).
    rewrite Heq. destruct (IH h' Hn' Hrest) as (Hn & Hb & Hall & Hin).
    split; [exact Hn|]. split; [exact (leb_trans _ _ _ Hle Hb)|]. split.
    + constructor; [exact (leb_trans _ _ _ Hvle Hb) | exact Hall].
    + destruct Hin as [Hin|Hin].
      * rewrite Hin. destruct Hor as [-> | ->]; [left; reflexivity | right; left; reflexivity].
      * right. right. exact Hin.
Qed.

(** On numbers none of which is NaN, [Math.max] returns one of them, and none
    of them is above it. *)
Lemma Math_max_is_maximum (values : list float) :
  values <> [] -> no_nan values -> maximum_of values (Math_max values).
Proof.
  intros Hne Hv. unfold maximum_of, Math_max.
  destruct (Math_max_from_bounds values neg_infinity eq_refl Hv) as (_ & _ & Hall & Hin).
  split; [|exact Hall].
  destruct Hin as [Hin|Hin]; [|exact Hin].
  destruct values as [|v values]; [contradiction|].
  pose proof (Forall_inv Hall) as Hle. rewrite Hin in Hle |- *.
  apply leb_neg_infinity in Hle. left. exact Hle.
Qed.

Lemma Math_max_from_nan (values : list float) (highest : float) :
  Exists (fun v => is_nan v = true) values -> Math_max_from highest values = nan.
Proof.
  intros H. revert highest. induction H as [v values Hv|v values _ IH]; intros highest; simpl.
  - rewrite Hv. reflexivity.
  - destruct (is_nan v); [reflexivity | apply IH].
Qed.

(** ** Claims about the charts and the summary *)

(** C4: for a selected run with a non-empty [training_metrics], the combined
    chart, when it is returned, holds a series labelled
    "<run name> - LR (scaled)" whose point at each step is
    [learning_rate * (maxLoss / maxLR)], where [maxLoss] and [maxLR] are
    [Math.max] of the losses and of the learning rates of that run's
    samples: maxima of them, unless one of them is NaN.  This holds whatever
    the maxima are, so in particular when [maxLR] is positive.  (The chart
    is not returned when a selected run has more samples than the engine
    accepts as the arguments of [Math.max].) *)
Theorem combined_chart_scales_learning_rate
  (argumentLimit : N) (selectedRun : Selection) (trainingData : TrainingData)
  (rs : list Run) (k : nat) (run : Run) (first : Metric.t) (rest : list Metric.t)
  (datasets : list Dataset) :
  selected_runs selectedRun trainingData = Some rs ->
  nth_error rs k = Some run ->
  training_metrics run = Some (first :: rest) ->
  getCombinedChartData argumentLimit selectedRun trainingData = Some datasets ->
  exists d maxLoss maxLR,
    In d datasets
    /\ label d = (run_name run ++ " - LR (scaled)")%string
    /\ data d
       = map (fun m =>
                {| x := Metric.step m;
                   y := (Metric.learning_rate m * (maxLoss / maxLR))%float |})
           (first :: rest)
    /\ maxLoss = Math_max (map Metric.loss (first :: rest))
    /\ maxLR = Math_max (map Metric.learning_rate (first :: rest))
    /\ (no_nan (map Metric.loss (first :: rest)) ->
        maximum_of (map Metric.loss (first :: rest)) maxLoss)
    /\ (no_nan (map Metric.learning_rate (first :: rest)) ->
        maximum_of (map Metric.learning_rate (first :: rest)) maxLR).
Proof.
  intros Hsel Hk Htm Hchart.
  eexists _, _, _. split.
  - apply (getCombinedChartData_In _ _ _ _ _ _ _ _ Hchart Hsel Hk).
    unfold combined_series. rewrite Htm. right. left. reflexivity.
  - split; [reflexivity|]. split; [reflexivity|].
    split; [reflexivity|]. split; [reflexivity|].
    split; apply Math_max_is_maximum; discriminate.
Qed.

Lemma combined_chart_scales_learning_rate_two_logs :
  exists datasets,
    getCombinedChartData sample_argumentLimit (index 1) two_logs_merged = Some datasets
    /\ exists d maxLoss maxLR,
    In d datasets
    /\ label d = (run_name file_A ++ " - LR (scaled)")%string
    /\ data d
       = map (fun m =>
                {| x := Metric.step m;
                   y := (Metric.learning_rate m * (maxLoss / maxLR))%float |})
           [metric_at 0 10.75 0; metric_at 500 9.5 0.5; metric_at 1000 8.25 0.25]
    /\ maxLoss = Math_max (map Metric.loss
                             [metric_at 0 10.75 0; metric_at 500 9.5 0.5;
                              metric_at 1000 8.25 0.25])
    /\ maxLR = Math_max (map Metric.learning_rate
                           [metric_at 0 10.75 0; metric_at 500 9.5 0.5;
                            metric_at 1000 8.25 0.25])
    /\ (no_nan (map Metric.loss
                  [metric_at 0 10.75 0; metric_at 500 9.5 0.5; metric_at 1000 8.25 0.25]) ->
        maximum_of (map Metric.loss
                      [metric_at 0 10.75 0; metric_at 500 9.5 0.5; metric_at 1000 8.25 0.25])
          maxLoss)
    /\ (no_nan (map Metric.learning_rate
                  [metric_at 0 10.75 0; metric_at 500 9.5 0.5; metric_at 1000 8.25 0.25]) ->
        maximum_of (map Metric.learning_rate
                      [metric_at 0 10.75 0; metric_at 500 9.5 0.5; metric_at 1000 8.25 0.25])
          maxLR).
Proof.
  eexists. split; [vm_compute; reflexivity|].
  apply (combined_chart_scales_learning_rate sample_argumentLimit (index 1) two_logs_merged
           [file_A] 0 file_A
           (metric_at 0 10.75 0) [metric_at 500 9.5 0.5; metric_at 1000 8.25 0.25]).
  - reflexivity.
  - reflexivity.
  - reflexivity.
  - vm_compute. reflexivity.
Defined.

(** On run A the factor is 10.75 / 0.5 = 21.5, and the scaled series is
    0, 10.75, 5.375. *)
Example combined_chart_of_A :
  option_map (map (fun d => (label d, map y (data d))))
    (getCombinedChartData sample_argumentLimit (index 1) two_logs_merged)
  = Some [ ("A - Loss"%string, [10.75; 9.5; 8.25]%float);
           ("A - LR (scaled)"%string, [0; 10.75; 5.375]%float) ].
Proof. vm_compute. reflexivity. Qed.


(** With an engine that accepts two arguments in a call, the three samples
    of run A are too many for [Math.max(...)], and no chart is returned. *)
Example combined_chart_past_the_limit :
  getCombinedChartData 2 (index 1) two_logs_merged = None
  /\ getCombinedChartData 3 (index 1) two_logs_merged
     = getCombinedChartData sample_argumentLimit (index 1) two_logs_merged.
Proof. split; vm_compute; reflexivity. Qed.

(** C3, as stated, fails: run Z has learning rate 0 at every step, and the
    combined chart still holds its scaled learning-rate series. *)
Lemma zero_learning_rate_series_is_emitted :
  exists datasets d,
    (forall m, In m (entries_of (training_metrics file_Z)) ->
               (Metric.learning_rate m =? 0)%float = true)
    /\ getCombinedChartData sample_argumentLimit all (document [file_Z]) = Some datasets
    /\ In d datasets
    /\ label d = "Z - LR (scaled)"%string
    /\ map y (data d) = [nan; nan].
Proof.
  eexists _, _. split.
  - intros m [<-|[<-|[]]]; reflexivity.
  - split; [vm_compute; reflexivity|]. split; [right; left; reflexivity|].
    split; vm_compute; reflexivity.
Qed.

(** C3, amended: for a selected run with a non-empty [training_metrics]
    whose learning rates are all 0, the combined chart, when it is returned,
    holds the run's loss series and, with no guard on the maximum, its
    scaled learning-rate series too; each scaled value is 0 times a quotient
    by 0, which is NaN.  (The chart is not returned when a selected run has
    more samples than the engine accepts as the arguments of [Math.max].) *)
Theorem combined_chart_with_zero_learning_rate
  (argumentLimit : N) (selectedRun : Selection) (trainingData : TrainingData)
  (rs : list Run) (k : nat) (run : Run) (first : Metric.t) (rest : list Metric.t)
  (datasets : list Dataset) :
  selected_runs selectedRun trainingData = Some rs ->
  nth_error rs k = Some run ->
  training_metrics run = Some (first :: rest) ->
  (forall m, In m (first :: rest) -> (Metric.learning_rate m =? 0)%float = true) ->
  getCombinedChartData argumentLimit selectedRun trainingData = Some datasets ->
  exists loss_series scaled_series,
    In loss_series datasets
    /\ label loss_series = (run_name run ++ " - Loss")%string
    /\ data loss_series
       = map (fun m => {| x := Metric.step m; y := Metric.loss m |}) (first :: rest)
    /\ In scaled_series datasets
    /\ label scaled_series = (run_name run ++ " - LR (scaled)")%string
    /\ data scaled_series
       = map (fun m => {| x := Metric.step m; y := nan |}) (first :: rest).
Proof.
  intros Hsel Hk Htm Hzero Hchart.
  assert (Hmax : zero_value (Math_max (map Metric.learning_rate (first :: rest)))).
  { apply Math_max_zeros; [discriminate|].
    intros v Hv. apply in_map_iff in Hv. destruct Hv as (m & <- & Hm).
    apply eqb_zero, Hzero, Hm. }
  eexists _, _.
  split; [|split; [|split; [|split; [|split]]]].
  - apply (getCombinedChartData_In _ _ _ _ _ _ _ _ Hchart Hsel Hk).
    unfold combined_series. rewrite Htm. left. reflexivity.
  - reflexivity.
  - reflexivity.
  - apply (getCombinedChartData_In _ _ _ _ _ _ _ _ Hchart Hsel Hk).
    unfold combined_series. rewrite Htm. right. left. reflexivity.
  - reflexivity.
  - cbv [line_dataset data]. apply map_ext_in. intros m Hm. f_equal.
    apply zero_times_quotient_by_zero; [|exact Hmax].
    apply eqb_zero, Hzero, Hm.
Qed.

Lemma combined_chart_with_zero_learning_rate_Z :
  exists datasets,
    getCombinedChartData sample_argumentLimit all (document [file_Z]) = Some datasets
    /\ exists loss_series scaled_series,
    In loss_series datasets
    /\ label loss_series = (run_name file_Z ++ " - Loss")%string
    /\ data loss_series
       = map (fun m => {| x := Metric.step m; y := Metric.loss m |})
           [metric_at 0 10.5 0; metric_at 500 9.5 0]
    /\ In scaled_series datasets
    /\ label scaled_series = (run_name file_Z ++ " - LR (scaled)")%string
    /\ data scaled_series
       = map (fun m => {| x := Metric.step m; y := nan |})
           [metric_at 0 10.5 0; metric_at 500 9.5 0].
Proof.
  eexists. split; [vm_compute; reflexivity|].
  apply (combined_chart_with_zero_learning_rate sample_argumentLimit all (document [file_Z])
           [file_Z] 0 file_Z (metric_at 0 10.5 0) [metric_at 500 9.5 0]).
  - reflexivity.
  - reflexivity.
  - reflexivity.
  - intros m [<-|[<-|[]]]; reflexivity.
  - vm_compute. reflexivity.
Defined.

Lemma isFinite_false (v : float) :
  isFinite v = false <-> is_nan v = true \/ is_infinity v = true.
Proof.
  unfold isFinite, is_finite. rewrite negb_false_iff, orb_true_iff. tauto.
Qed.

Example isFinite_samples :
  isFinite infinity = false /\ isFinite neg_infinity = false /\ isFinite nan = false
  /\ isFinite 1024 = true.
Proof. repeat split. Qed.

(** C8: for a selected run with a non-empty [evaluation_results], the
    evaluation chart holds the run's series with every value as it is in the
    data, finite or not; and when the last value is not finite, the card of
    the run shows "∞" as its final evaluation score. *)
Theorem nonfinite_evaluation_passes_through
  (toFixed toExponential : float -> nat -> string)
  (selectedRun : Selection) (trainingData : TrainingData) (rs : list Run) (k : nat)
  (run : Run) (first : Eval.t) (rest : list Eval.t) :
  selected_runs selectedRun trainingData = Some rs ->
  nth_error rs k = Some run ->
  evaluation_results run = Some (first :: rest) ->
  (exists datasets d,
      getChartData "eval" selectedRun trainingData = Some datasets
      /\ In d datasets
      /\ label d = run_name run
      /\ data d = map (fun m => {| x := Eval.step m; y := Eval.paloma m |}) (first :: rest))
  /\ (exists cards card,
        updateRunSummary toFixed toExponential selectedRun trainingData = Some cards
        /\ nth_error cards k = Some card
        /\ card_run_name card = run_name run
        /\ (isFinite (Eval.paloma (List.last (first :: rest) first)) = false ->
            finalPaloma card = "∞"%string)).
Proof.
  intros Hsel Hk Her. split.
  - unfold getChartData. rewrite Hsel.
    eexists _, _. split; [reflexivity|]. split.
    + apply forEach_push_In. exists k, run. split; [exact Hk|].
      unfold getChartData_run. simpl. rewrite Her. left. reflexivity.
    + split; reflexivity.
  - unfold updateRunSummary. rewrite Hsel.
    eexists _, _. split; [reflexivity|]. split.
    + rewrite nth_error_map, Hk. reflexivity.
    + unfold run_card. rewrite Her.
      destruct (training_metrics run) as [[|? ?]|];
        (split; [reflexivity|]); intros Hfin; cbv [finalPaloma]; rewrite Hfin; reflexivity.
Qed.

Lemma nonfinite_evaluation_passes_through_two_logs :
  (exists datasets d,
      getChartData "eval" all two_logs_merged = Some datasets
      /\ In d datasets
      /\ label d = run_name merged_B
      /\ data d = map (fun m => {| x := Eval.step m; y := Eval.paloma m |})
                    [eval_at 500 1024; eval_at 1000 infinity])
  /\ (exists cards card,
        updateRunSummary sample_toFixed sample_toExponential all two_logs_merged = Some cards
        /\ nth_error cards 0 = Some card
        /\ card_run_name card = run_name merged_B
        /\ (isFinite (Eval.paloma (List.last [eval_at 500 1024; eval_at 1000 infinity]
                                     (eval_at 500 1024))) = false ->
            finalPaloma card = "∞"%string)).
Proof.
  apply (nonfinite_evaluation_passes_through sample_toFixed sample_toExponential all
           two_logs_merged [merged_B; file_A] 0 merged_B (eval_at 500 1024)
           [eval_at 1000 infinity]).
  - reflexivity.
  - reflexivity.
  - reflexivity.
Defined.

(** The cards of the merged sample document. *)
Example summary_of_two_logs :
  updateRunSummary sample_toFixed sample_toExponential all two_logs_merged
  = Some [ {| card_run_name := "B"; logFiles := "log_1.log, log_2.log";
              stepRange := "0 → 1000"; trainingPoints := 3; evalPoints := 2;
              finalLoss := "fixed"; finalLR := "exponential"; finalPaloma := "∞" |};
           {| card_run_name := "A"; logFiles := "log_a.log";
              stepRange := "0 → 1000"; trainingPoints := 3; evalPoints := 0;
              finalLoss := "fixed"; finalLR := "exponential"; finalPaloma := "N/A" |} ]%string.
Proof. vm_compute. reflexivity. Qed.

(** C9: for a selected run whose [training_metrics] is missing or empty the
    summary is produced, and the run's card shows "N/A" for the step range,
    the final loss and the final learning rate, and 0 training points; when
    [evaluation_results] is missing or empty it shows "N/A" for the final
    evaluation score and 0 evaluation points. *)
Theorem summary_without_metrics
  (toFixed toExponential : float -> nat -> string)
  (selectedRun : Selection) (trainingData : TrainingData) (rs : list Run) (k : nat)
  (run : Run) :
  selected_runs selectedRun trainingData = Some rs ->
  nth_error rs k = Some run ->
  training_metrics run = None \/ training_metrics run = Some [] ->
  exists cards card,
    updateRunSummary toFixed toExponential selectedRun trainingData = Some cards
    /\ nth_error cards k = Some card
    /\ card_run_name card = run_name run
    /\ stepRange card = "N/A"%string
    /\ finalLoss card = "N/A"%string
    /\ finalLR card = "N/A"%string
    /\ trainingPoints card = 0%nat
    /\ (evaluation_results run = None \/ evaluation_results run = Some [] ->
        finalPaloma card = "N/A"%string /\ evalPoints card = 0%nat).
Proof.
  intros Hsel Hk Htm. unfold updateRunSummary. rewrite Hsel.
  eexists _, _. split; [reflexivity|]. split.
  - rewrite nth_error_map, Hk. reflexivity.
  - unfold run_card.
    destruct Htm as [-> | ->]; repeat (split; [reflexivity|]);
      intros [-> | ->]; split; reflexivity.
Qed.

Lemma summary_without_metrics_N :
  exists cards card,
    updateRunSummary sample_toFixed sample_toExponential (index 0) (document [file_N])
    = Some cards
    /\ nth_error cards 0 = Some card
    /\ card_run_name card = run_name file_N
    /\ stepRange card = "N/A"%string
    /\ finalLoss card = "N/A"%string
    /\ finalLR card = "N/A"%string
    /\ trainingPoints card = 0%nat
    /\ (evaluation_results file_N = None \/ evaluation_results file_N = Some [] ->
        finalPaloma card = "N/A"%string /\ evalPoints card = 0%nat).
Proof.
  apply (summary_without_metrics sample_toFixed sample_toExponential (index 0)
           (document [file_N]) [file_N] 0 file_N).
  - reflexivity.
  - reflexivity.
  - left. reflexivity.
Defined.

(** * Part III: further properties of the code *)

(** ** More about [mergeContinuationLogs] *)

Lemma mergeContinuationLogs_grouped (trainingData merged : TrainingData) :
  mergeContinuationLogs trainingData = Some merged ->
  exists runGroups,
    grouped (runs trainingData) runGroups
    /\ merge_entries (Object_entries runGroups) = Some (runs merged)
    /\ summary merged = summary trainingData.
Proof.
  unfold mergeContinuationLogs. intros H.
  destruct (group_runs [] (runs trainingData)) as [runGroups|] eqn:Eg; [|discriminate].
  destruct (merge_entries (Object_entries runGroups)) as [mergedRuns|] eqn:Em; [|discriminate].
  injection H as <-. exists runGroups. simpl.
  pose proof (group_runs_grouped _ [] _ _ grouped_nil Eg) as Hg. simpl in Hg.
  repeat split; try apply Hg. exact Em.
Qed.

Lemma merged_names_iff (trainingData merged : TrainingData) (name : string) :
  mergeContinuationLogs trainingData = Some merged ->
  (In name (map run_name (runs merged)) <-> In name (map run_name (runs trainingData))).
Proof.
  intros Hm. destruct (mergeContinuationLogs_spec _ _ Hm) as (_ & _ & Hspec).
  rewrite !in_map_iff. split.
  - intros (m & Hname & Hin). apply Hspec in Hin. destruct Hin as [n Hp].
    pose proof (produced_name _ _ _ Hp) as Hn. rewrite Hname in Hn. subst n.
    destruct (group_named name (runs trainingData)) as [|r g] eqn:E; [destruct Hp|].
    assert (Hr : In r (group_named name (runs trainingData))) by (rewrite E; left; reflexivity).
    apply group_named_name in Hr. exists r. tauto.
  - intros (r & Hname & Hin). subst name.
    pose proof (group_named_In _ _ Hin) as Hg.
    destruct (merge_entry_completes (run_name r) (group_named (run_name r) (runs trainingData)))
      as [m Hme].
    + intros E. rewrite E in Hg. destruct Hg.
    + apply merge_entry_produced in Hme. exists m. split.
      * apply (produced_name _ _ _ Hme).
      * apply Hspec. exists (run_name r). exact Hme.
Qed.

(** X4: the post-merge list has one run per distinct run name of the input,
    and no other. *)
Theorem merged_names_are_the_distinct_names (trainingData merged : TrainingData) :
  mergeContinuationLogs trainingData = Some merged ->
  Permutation (map run_name (runs merged))
    (nodup string_dec (map run_name (runs trainingData)))
  /\ (List.length (runs merged) <= List.length (runs trainingData))%nat.
Proof.
  intros Hm. destruct (mergeContinuationLogs_spec _ _ Hm) as (_ & Hnd & _).
  assert (Hperm : Permutation (map run_name (runs merged))
                    (nodup string_dec (map run_name (runs trainingData)))).
  { apply NoDup_Permutation; [exact Hnd | apply NoDup_nodup|].
    intros name. rewrite nodup_In. apply merged_names_iff. exact Hm. }
  split; [exact Hperm|].
  apply Permutation_length in Hperm. rewrite !length_map in Hperm.
  rewrite Hperm. rewrite <- (length_map run_name (runs trainingData)).
  apply NoDup_incl_length; [apply NoDup_nodup|].
  intros name Hin. apply nodup_In in Hin. exact Hin.
Qed.

Lemma merged_names_are_the_distinct_names_two_logs :
  Permutation (map run_name (runs two_logs_merged))
    (nodup string_dec (map run_name (runs two_logs)))
  /\ (List.length (runs two_logs_merged) <= List.length (runs two_logs))%nat.
Proof.
  apply (merged_names_are_the_distinct_names two_logs two_logs_merged).
  vm_compute. reflexivity.
Defined.

Lemma In_flat_map_steps {X A : Type} (step : A -> Z) (f : X -> list A) (group : list X)
  (s : Z) :
  (exists file, In file group /\ In s (map step (f file)))
  <-> In s (map step (flat_map f group)).
Proof.
  rewrite in_map_iff. split.
  - intros (file & Hf & Hs). apply in_map_iff in Hs. destruct Hs as (a & Ha & Hin).
    exists a. split; [exact Ha|]. apply in_flat_map. exists file. split; assumption.
  - intros (a & Ha & Hin). apply in_flat_map in Hin. destruct Hin as (file & Hf & Hin).
    exists file. split; [exact Hf|]. apply in_map_iff. exists a. split; assumption.
Qed.

(** X5: [evaluation_results] is merged like [training_metrics]: every step
    of a file's evaluation results is kept in exactly one result, the one of
    the first file, in discovery order, that has the step; a result that a
    later file holds for that step is dropped. *)
Theorem merge_keeps_first_file_evaluation
  (trainingData merged : TrainingData) (name : string) (s : Z) :
  mergeContinuationLogs trainingData = Some merged ->
  (1 < List.length (group_named name (runs trainingData)))%nat ->
  (exists file, In file (group_named name (runs trainingData))
                /\ In s (map Eval.step (entries_of (evaluation_results file)))) ->
  exists m results result before file after,
    group_named name (runs merged) = [m]
    /\ evaluation_results m = Some results
    /\ filter (has_step Eval.step s) results = [result]
    /\ group_named name (runs trainingData) = before ++ file :: after
    /\ (forall earlier a, In earlier before ->
          In a (entries_of (evaluation_results earlier)) -> Eval.step a <> s)
    /\ find (has_step Eval.step s) (entries_of (evaluation_results file)) = Some result.
Proof.
  intros Hm Hlen Hs.
  destruct (long_group _ Hlen) as (first & second & rest & Hg).
  destruct (group_exists_merged _ _ _ _ _ _ Hm Hg) as (m & Hone & Hrun).
  apply mergedRun_fields in Hrun. destruct Hrun as (_ & _ & _ & _ & Her & _).
  rewrite Hg in Hs |- *.
  apply (In_flat_map_steps Eval.step (fun run => entries_of (evaluation_results run))) in Hs.
  set (all := flat_map (fun run => entries_of (evaluation_results run))
                (first :: second :: rest)) in *.
  destruct (find (has_step Eval.step s) all) as [result|] eqn:E.
  - destruct (find_flat_map_first _ _ _ _ E) as (before & file & after & Hsplit & Hb & Hf).
    exists m, (sort_dedup Eval.step all), result, before, file, after.
    repeat split; try assumption.
    + rewrite sort_dedup_filter, E. reflexivity.
    + intros earlier a He. apply find_has_step_None. apply Hb. exact He.
  - exfalso. rewrite find_has_step_None in E.
    apply in_map_iff in Hs. destruct Hs as (a & Ha & Hin). exact (E a Hin Ha).
Qed.

Lemma merge_keeps_first_file_evaluation_two_logs :
  exists m results result before file after,
    group_named "B" (runs two_logs_merged) = [m]
    /\ evaluation_results m = Some results
    /\ filter (has_step Eval.step 1000) results = [result]
    /\ group_named "B" (runs two_logs) = before ++ file :: after
    /\ (forall earlier a, In earlier before ->
          In a (entries_of (evaluation_results earlier)) -> Eval.step a <> 1000)
    /\ find (has_step Eval.step 1000) (entries_of (evaluation_results file)) = Some result.
Proof.
  apply (merge_keeps_first_file_evaluation two_logs two_logs_merged "B" 1000).
  - vm_compute. reflexivity.
  - vm_compute. lia.
  - exists file_B2. split; [right; left; reflexivity | left; reflexivity].
Defined.

Section SortFacts.

Context {A : Type}.
Variable step : A -> Z.

Lemma strictly_ascending_ascending (l : list A) :
  strictly_ascending step l -> ascending step l.
Proof.
  unfold strictly_ascending, ascending.
  induction 1 as [|a l Hs IH Ha]; constructor; [exact IH|].
  eapply Forall_impl; [|exact Ha]. simpl. intros b Hb. lia.
Qed.

Lemma Array_sort_ascending_id (l : list A) :
  ascending step l -> Array_sort (by_step step) l = l.
Proof.
  intros Hs. apply ascending_stable_eq with (step := step).
  - apply Array_sort_ascending.
  - exact Hs.
  - intros s. apply Array_sort_stable.
Qed.

Lemma sort_dedup_strictly_ascending_id (l : list A) :
  strictly_ascending step l -> sort_dedup step l = l.
Proof.
  intros Hs. unfold sort_dedup.
  rewrite Array_sort_ascending_id by (apply strictly_ascending_ascending; exact Hs).
  rewrite Array_filter_first_occurrences.
  apply first_occurrences_strictly_ascending_id. exact Hs.
Qed.

Lemma sort_dedup_length (l : list A) :
  List.length (sort_dedup step l) = List.length (nodup Z.eq_dec (map step l)).
Proof.
  rewrite <- (length_map step (sort_dedup step l)).
  apply Permutation_length, NoDup_Permutation.
  - apply strictly_ascending_NoDup, sort_dedup_strictly_ascending.
  - apply NoDup_nodup.
  - intros s. rewrite nodup_In. apply sort_dedup_steps.
Qed.

Lemma sort_dedup_idempotent (l : list A) :
  sort_dedup step (sort_dedup step l) = sort_dedup step l.
Proof. apply sort_dedup_strictly_ascending_id, sort_dedup_strictly_ascending. Qed.

End SortFacts.

(** X6: the merged run holds as many training samples as the files of its
    group hold distinct steps; the merge drops repeated steps and nothing
    else. *)
Theorem merged_sample_count
  (trainingData merged : TrainingData) (name : string) :
  mergeContinuationLogs trainingData = Some merged ->
  (1 < List.length (group_named name (runs trainingData)))%nat ->
  exists m metrics,
    group_named name (runs merged) = [m]
    /\ training_metrics m = Some metrics
    /\ List.length metrics
       = List.length
           (nodup Z.eq_dec
              (map Metric.step
                 (flat_map (fun run => entries_of (training_metrics run))
                    (group_named name (runs trainingData)))))
    /\ (List.length metrics
        <= List.length (flat_map (fun run => entries_of (training_metrics run))
                          (group_named name (runs trainingData))))%nat.
Proof.
  intros Hm Hlen.
  destruct (long_group _ Hlen) as (first & second & rest & Hg).
  destruct (group_exists_merged _ _ _ _ _ _ Hm Hg) as (m & Hone & Hrun).
  apply mergedRun_fields in Hrun. destruct Hrun as (_ & _ & _ & Htm & _).
  rewrite Hg. eexists m, _. split; [exact Hone|]. split; [exact Htm|].
  rewrite sort_dedup_length. split; [reflexivity|].
  set (all := flat_map _ _).
  rewrite <- (length_map Metric.step all).
  apply NoDup_incl_length; [apply NoDup_nodup|].
  intros s Hs. apply nodup_In in Hs. exact Hs.
Qed.

Lemma merged_sample_count_two_logs :
  exists m metrics,
    group_named "B" (runs two_logs_merged) = [m]
    /\ training_metrics m = Some metrics
    /\ List.length metrics
       = List.length
           (nodup Z.eq_dec
              (map Metric.step
                 (flat_map (fun run => entries_of (training_metrics run))
                    (group_named "B" (runs two_logs)))))
    /\ (List.length metrics
        <= List.length (flat_map (fun run => entries_of (training_metrics run))
                          (group_named "B" (runs two_logs))))%nat.
Proof.
  apply (merged_sample_count two_logs two_logs_merged "B").
  - vm_compute. reflexivity.
  - vm_compute. lia.
Defined.

(** X7: when the files of a group, read one after the other in discovery
    order, already have strictly increasing steps (chronological logs that
    do not overlap), the merged [training_metrics] is their plain
    concatenation: nothing is moved and nothing is dropped. *)
Theorem chronological_logs_concatenate
  (trainingData merged : TrainingData) (name : string) :
  mergeContinuationLogs trainingData = Some merged ->
  (1 < List.length (group_named name (runs trainingData)))%nat ->
  strictly_ascending Metric.step
    (flat_map (fun run => entries_of (training_metrics run))
       (group_named name (runs trainingData))) ->
  exists m,
    group_named name (runs merged) = [m]
    /\ training_metrics m
       = Some (flat_map (fun run => entries_of (training_metrics run))
                 (group_named name (runs trainingData))).
Proof.
  intros Hm Hlen Hasc.
  destruct (long_group _ Hlen) as (first & second & rest & Hg).
  destruct (group_exists_merged _ _ _ _ _ _ Hm Hg) as (m & Hone & Hrun).
  apply mergedRun_fields in Hrun. destruct Hrun as (_ & _ & _ & Htm & _).
  rewrite Hg in Hasc |- *. exists m. split; [exact Hone|].
  rewrite Htm. f_equal. apply sort_dedup_strictly_ascending_id. exact Hasc.
Qed.

Lemma chronological_logs_concatenate_E :
  exists merged,
    mergeContinuationLogs (document [file_E1; file_E2]) = Some merged
    /\ exists m,
         group_named "E" (runs merged) = [m]
         /\ training_metrics m
            = Some (flat_map (fun run => entries_of (training_metrics run))
                      (group_named "E" (runs (document [file_E1; file_E2])))).
Proof.
  eexists. split; [vm_compute; reflexivity|].
  apply (chronological_logs_concatenate (document [file_E1; file_E2]) _ "E").
  - vm_compute. reflexivity.
  - vm_compute. lia.
  - repeat constructor; simpl; lia.
Defined.

(** *** Merging twice *)

Lemma set_property_new {V : Type} (o : JsObject V) (key : string) (v : V) :
  own_property o key = None -> set_property o key v = o ++ [(key, v)].
Proof.
  induction o as [|[k w] o IH]; simpl; [reflexivity|].
  destruct (String.eqb k key); [discriminate|].
  intros H. rewrite IH by exact H. reflexivity.
Qed.

Lemma group_runs_distinct (rs : list Run) (runGroups : JsObject (list Run)) :
  NoDup (map run_name rs) ->
  (forall run, In run rs -> ~ In (run_name run) (map fst runGroups)) ->
  no_inherited_name rs ->
  group_runs runGroups rs
  = Some (runGroups ++ map (fun run => (run_name run, [run])) rs).
Proof.
  revert runGroups. induction rs as [|run rs IH]; intros runGroups Hnd Hnew Hinh; simpl.
  - rewrite app_nil_r. reflexivity.
  - simpl in Hnd. apply NoDup_cons_iff in Hnd. destruct Hnd as [Hrun Hnd].
    assert (Hown : own_property runGroups (run_name run) = None)
      by (apply own_property_None, Hnew; left; reflexivity).
    unfold group_run. rewrite Hown, (Hinh run (or_introl eq_refl)).
    rewrite (set_property_new _ _ _ Hown), IH.
    + rewrite <- app_assoc. reflexivity.
    + exact Hnd.
    + intros r Hr Hin. rewrite map_app, in_app_iff in Hin. destruct Hin as [Hin|[Hin|[]]].
      * apply (Hnew r (or_intror Hr)). exact Hin.
      * simpl in Hin. apply Hrun. rewrite Hin. apply in_map. exact Hr.
    + intros r Hr. apply Hinh. right. exact Hr.
Qed.

Lemma merge_entries_singletons (rs : list Run) :
  merge_entries (map (fun run => (run_name run, [run])) rs) = Some rs.
Proof.
  induction rs as [|run rs IH]; simpl; [reflexivity|].
  rewrite IH. reflexivity.
Qed.

Lemma indexed_entry_index {V : Type} (entry : string * V) (i : N) (e : string * V) :
  In (i, e) (indexed_entry entry) -> e = entry /\ array_index (fst entry) = Some i.
Proof.
  unfold indexed_entry. destruct (array_index (fst entry)) as [j|]; [|intros []].
  intros [H|[]]. injection H as <- <-. split; reflexivity.
Qed.

Lemma Object_entries_enumeration_order {V : Type} (o : JsObject V) :
  enumeration_order (map fst (Object_entries o)).
Proof.
  unfold Object_entries. rewrite map_app.
  set (tagged := flat_map indexed_entry o).
  set (sorted := Array_sort (by_step (fun e : N * (string * V) => Z.of_N (fst e))) tagged).
  assert (Htag : forall e, In e sorted -> array_index (fst (snd e)) = Some (fst e)).
  { intros [i e] He. apply Array_sort_In in He. unfold tagged in He.
    apply in_flat_map in He. destruct He as (entry & _ & He).
    apply indexed_entry_index in He. destruct He as [-> He]. exact He. }
  exists (map fst (map snd sorted)),
         (map fst (filter (fun entry => negb (is_array_index (fst entry))) o)).
  split; [reflexivity|]. split; [|split].
  - rewrite Forall_forall. intros k Hk. rewrite map_map in Hk.
    apply in_map_iff in Hk. destruct Hk as (e & <- & He).
    unfold is_array_index. rewrite (Htag e He). reflexivity.
  - pose proof (Array_sort_ascending (fun e : N * (string * V) => Z.of_N (fst e)) tagged)
      as Hs.
    fold sorted in Hs. unfold ascending in *. rewrite map_map.
    induction Hs as [|e l Hl IH He]; simpl; [constructor|].
    constructor.
    + apply IH. intros e' He'. apply Htag. right. exact He'.
    + rewrite Forall_forall in *. intros k Hk. apply in_map_iff in Hk.
      destruct Hk as (e' & <- & He'). specialize (He e' He').
      unfold index_of_name.
      rewrite (Htag e (or_introl eq_refl)), (Htag e' (or_intror He')). exact He.
  - rewrite Forall_forall. intros k Hk. apply in_map_iff in Hk.
    destruct Hk as (e & <- & He). apply filter_In in He. destruct He as [_ He].
    apply negb_true_iff in He. exact He.
Qed.

Lemma Object_entries_in_order {V : Type} (o : JsObject V) :
  enumeration_order (map fst o) -> Object_entries o = o.
Proof.
  intros (indices & names & Hkeys & Hidx & Hasc & Hnames).
  revert o Hkeys. induction indices as [|k indices IH]; intros o Hkeys.
  - simpl in Hkeys. subst names. apply Object_entries_no_index.
    intros entry He. rewrite Forall_forall in Hnames. apply Hnames.
    apply in_map. exact He.
  - destruct o as [|[k' v] o]; [discriminate|].
    simpl in Hkeys. injection Hkeys as -> Hkeys.
    apply Forall_cons_iff in Hidx. destruct Hidx as [Hk Hidx].
    apply StronglySorted_inv in Hasc. destruct Hasc as [Hasc Hle].
    specialize (IH Hidx Hasc o Hkeys).
    unfold Object_entries in IH |- *. simpl.
    unfold is_array_index in Hk. unfold indexed_entry at 1. simpl.
    destruct (array_index k) as [i|] eqn:Ei; [|discriminate].
    unfold is_array_index at 1. rewrite Ei. simpl.
    set (tagged := flat_map indexed_entry o) in *.
    set (key := fun e : N * (string * V) => Z.of_N (fst e)) in *.
    assert (Hins : sort_insert (by_step key) (i, (k, v)) (Array_sort (by_step key) tagged)
                   = (i, (k, v)) :: Array_sort (by_step key) tagged).
    { assert (Hall : forall e, In e (Array_sort (by_step key) tagged) -> Z.of_N i <= key e).
      { intros [j e] He. apply Array_sort_In in He. unfold tagged in He.
        apply in_flat_map in He. destruct He as (entry & Hentry & He).
        apply indexed_entry_index in He. destruct He as [-> He].
        rewrite Forall_forall in Hle.
        assert (Hin : In (fst entry) indices).
        { assert (Hin' : In (fst entry) (indices ++ names))
            by (rewrite <- Hkeys; apply in_map; exact Hentry).
          apply in_app_or in Hin'. destruct Hin' as [Hin'|Hin']; [exact Hin'|].
          rewrite Forall_forall in Hnames. specialize (Hnames _ Hin').
          unfold is_array_index in Hnames. rewrite He in Hnames. discriminate. }
        specialize (Hle _ Hin). unfold index_of_name in Hle.
        rewrite Ei, He in Hle. exact Hle. }
      destruct (Array_sort (by_step key) tagged) as [|e l]; [reflexivity|].
      simpl. specialize (Hall e (or_introl eq_refl)).
      unfold by_step at 1. unfold key at 1. simpl.
      destruct (Z.of_N i - key e <=? 0) eqn:E; [reflexivity|].
      apply Z.leb_gt in E. lia. }
    rewrite Hins. simpl. f_equal. exact IH.
Qed.

(** X8: merging is idempotent: the merge of a merged document returns the
    document unchanged. *)
Theorem mergeContinuationLogs_idempotent (trainingData merged : TrainingData) :
  mergeContinuationLogs trainingData = Some merged ->
  mergeContinuationLogs merged = Some merged.
Proof.
  intros Hm.
  destruct (mergeContinuationLogs_spec _ _ Hm) as (_ & Hnd & _).
  destruct (mergeContinuationLogs_grouped _ _ Hm) as (runGroups & Hg & Hme & _).
  assert (Hnames : map run_name (runs merged) = map fst (Object_entries runGroups)).
  { apply (merge_entries_names _ _ Hme).
    intros [name group] m Hin Hmerge. simpl.
    apply (Permutation_in _ (Object_entries_perm runGroups)) in Hin.
    apply (grouped_In _ _ _ _ Hg) in Hin. destruct Hin as [-> _].
    apply merge_entry_produced in Hmerge. apply (produced_name _ _ _ Hmerge). }
  assert (Hinh : no_inherited_name (runs merged)).
  { intros m Hin. destruct Hg as (_ & _ & Hinh).
    assert (Hn : In (run_name m) (map run_name (runs trainingData)))
      by (apply (merged_names_iff _ _ _ Hm), in_map; exact Hin).
    apply in_map_iff in Hn. destruct Hn as (r & Hr & Hrin).
    rewrite <- Hr. apply Hinh. exact Hrin. }
  unfold mergeContinuationLogs.
  rewrite (group_runs_distinct (runs merged) [] Hnd); [|intros r _ []|exact Hinh].
  simpl. rewrite Object_entries_in_order.
  - rewrite merge_entries_singletons. destruct merged. reflexivity.
  - assert (Hkeys : map fst (map (fun run => (run_name run, [run])) (runs merged))
                    = map run_name (runs merged))
      by (rewrite map_map; apply map_ext; reflexivity).
    rewrite Hkeys, Hnames. apply Object_entries_enumeration_order.
Qed.

Lemma mergeContinuationLogs_idempotent_two_logs :
  mergeContinuationLogs two_logs_merged = Some two_logs_merged.
Proof.
  apply (mergeContinuationLogs_idempotent two_logs two_logs_merged).
  vm_compute. reflexivity.
Defined.

(** ** More about the charts *)

Lemma forEach_push_filter {X Y Z' : Type} (callback : X -> nat -> list Y) (view : Y -> Z')
  (keep : X -> bool) (shown : X -> Z') (l : list X) (runIndex : nat) :
  (forall run i, map view (callback run i) = if keep run then [shown run] else []) ->
  map view (forEach_push callback runIndex l) = map shown (filter keep l).
Proof.
  intros H. revert runIndex. induction l as [|run l IH]; intros runIndex; simpl.
  - reflexivity.
  - rewrite map_app, H, IH. destruct (keep run); reflexivity.
Qed.

(** X9: a chart of [getChartData] holds one series per selected run that has
    at least one sample of the metric, in the order of the runs, labelled by
    the run name and holding one point per sample, in order; a run without
    samples is left out, and a metric type other than 'loss', 'lr' and
    'eval' gives an empty chart. *)
Theorem getChartData_series
  (selectedRun : Selection) (trainingData : TrainingData) (rs : list Run) :
  selected_runs selectedRun trainingData = Some rs ->
  (exists datasets,
      getChartData "loss" selectedRun trainingData = Some datasets
      /\ map series datasets
         = map (fun run => (run_name run, loss_points run)) (filter has_training rs))
  /\ (exists datasets,
        getChartData "lr" selectedRun trainingData = Some datasets
        /\ map series datasets
           = map (fun run => (run_name run, lr_points run)) (filter has_training rs))
  /\ (exists datasets,
        getChartData "eval" selectedRun trainingData = Some datasets
        /\ map series datasets
           = map (fun run => (run_name run, eval_points run)) (filter has_evaluation rs))
  /\ (forall metricType,
        metricType <> "loss"%string -> metricType <> "lr"%string ->
        metricType <> "eval"%string ->
        getChartData metricType selectedRun trainingData = Some []).
Proof.
  intros Hsel. unfold getChartData. rewrite Hsel.
  split; [|split; [|split]].
  - eexists. split; [reflexivity|]. apply forEach_push_filter.
    intros run i. unfold getChartData_run, has_training, loss_points. simpl.
    destruct (training_metrics run) as [[|m metrics]|]; reflexivity.
  - eexists. split; [reflexivity|]. apply forEach_push_filter.
    intros run i. unfold getChartData_run, has_training, lr_points. simpl.
    destruct (training_metrics run) as [[|m metrics]|]; reflexivity.
  - eexists. split; [reflexivity|]. apply forEach_push_filter.
    intros run i. unfold getChartData_run, has_evaluation, eval_points. simpl.
    destruct (evaluation_results run) as [[|m results]|]; reflexivity.
  - intros metricType H1 H2 H3. f_equal.
    apply String.eqb_neq in H1, H2, H3.
    assert (Hnone : forall run i, getChartData_run metricType run i = []).
    { intros run i. unfold getChartData_run. rewrite H1, H2, H3. reflexivity. }
    clear Hsel. generalize 0%nat.
    induction rs as [|run rs' IH]; intros i; simpl; [reflexivity|].
    rewrite Hnone, IH. reflexivity.
Qed.

Lemma getChartData_series_two_logs :
  (exists datasets,
      getChartData "loss" all two_logs_merged = Some datasets
      /\ map series datasets
         = map (fun run => (run_name run, loss_points run))
             (filter has_training [merged_B; file_A]))
  /\ (exists datasets,
        getChartData "lr" all two_logs_merged = Some datasets
        /\ map series datasets
           = map (fun run => (run_name run, lr_points run))
               (filter has_training [merged_B; file_A]))
  /\ (exists datasets,
        getChartData "eval" all two_logs_merged = Some datasets
        /\ map series datasets
           = map (fun run => (run_name run, eval_points run))
               (filter has_evaluation [merged_B; file_A]))
  /\ (forall metricType,
        metricType <> "loss"%string -> metricType <> "lr"%string ->
        metricType <> "eval"%string ->
        getChartData metricType all two_logs_merged = Some []).
Proof.
  apply (getChartData_series all two_logs_merged [merged_B; file_A]).
  reflexivity.
Defined.

Lemma NoDup_map_filter {X Y : Type} (f : X -> Y) (p : X -> bool) (l : list X) :
  NoDup (map f l) -> NoDup (map f (filter p l)).
Proof.
  induction l as [|a l IH]; simpl; intros H; [constructor|].
  apply NoDup_cons_iff in H. destruct H as [Ha H].
  destruct (p a); simpl; [|apply IH; exact H].
  constructor; [|apply IH; exact H].
  intros Hin. apply Ha. apply in_map_iff in Hin. destruct Hin as (b & Hb & Hin).
  apply filter_In in Hin. rewrite <- Hb. apply in_map. tauto.
Qed.

Lemma getChartData_labels
  (metricType : string) (selectedRun : Selection) (trainingData : TrainingData)
  (rs : list Run) (datasets : list Dataset) :
  selected_runs selectedRun trainingData = Some rs ->
  getChartData metricType selectedRun trainingData = Some datasets ->
  exists keep, map label datasets = map run_name (filter keep rs).
Proof.
  intros Hsel. unfold getChartData. rewrite Hsel. intros H. injection H as <-.
  exists (fun run =>
            if String.eqb metricType "loss" then has_training run
            else if String.eqb metricType "lr" then has_training run
            else if String.eqb metricType "eval" then has_evaluation run
            else false).
  apply forEach_push_filter. intros run i.
  unfold getChartData_run, has_training, has_evaluation.
  destruct (String.eqb metricType "loss");
    [destruct (training_metrics run) as [[|m metrics]|]; reflexivity|].
  destruct (String.eqb metricType "lr");
    [destruct (training_metrics run) as [[|m metrics]|]; reflexivity|].
  destruct (String.eqb metricType "eval");
    [destruct (evaluation_results run) as [[|m results]|]; reflexivity|].
  reflexivity.
Qed.

(** X10: after the merge, no two series of a chart of all runs bear the
    same label. *)
Theorem merged_chart_labels_distinct
  (trainingData merged : TrainingData) (metricType : string) (datasets : list Dataset) :
  mergeContinuationLogs trainingData = Some merged ->
  getChartData metricType all merged = Some datasets ->
  NoDup (map label datasets).
Proof.
  intros Hm Hd.
  destruct (mergeContinuationLogs_spec _ _ Hm) as (_ & Hnd & _).
  destruct (getChartData_labels _ _ _ _ _ (selected_runs_all merged) Hd) as [keep ->].
  apply NoDup_map_filter. exact Hnd.
Qed.

Lemma merged_chart_labels_distinct_two_logs :
  exists datasets,
    getChartData "loss" all two_logs_merged = Some datasets
    /\ NoDup (map label datasets).
Proof.
  eexists. split; [reflexivity|].
  apply (merged_chart_labels_distinct two_logs two_logs_merged "loss").
  - vm_compute. reflexivity.
  - reflexivity.
Defined.

(** Before the merge the two files of run B give two series labelled "B". *)
Example unmerged_chart_repeats_label :
  option_map (map label) (getChartData "loss" all two_logs) = Some ["B"; "A"; "B"]%string.
Proof. vm_compute. reflexivity. Qed.

(** *** Colours *)

Lemma colors_NoDup : NoDup colors.
Proof.
  unfold colors.
  repeat (constructor; [simpl; intuition discriminate|]). constructor.
Qed.

Lemma color_of_same (i j : nat) :
  color_of i = color_of j <-> (i mod 12 = j mod 12)%nat.
Proof.
  unfold color_of. change (List.length colors) with 12%nat. split.
  - intros H. apply (proj1 (NoDup_nth colors ""%string) colors_NoDup).
    + change (List.length colors) with 12%nat. apply Nat.mod_upper_bound. discriminate.
    + change (List.length colors) with 12%nat. apply Nat.mod_upper_bound. discriminate.
    + exact H.
  - intros ->. reflexivity.
Qed.

Lemma getChartData_run_color (metricType : string) (run : Run) (i : nat) (d : Dataset) :
  In d (getChartData_run metricType run i) ->
  borderColor d = color_of i /\ backgroundColor d = (color_of i ++ "20")%string.
Proof.
  unfold getChartData_run.
  destruct (String.eqb metricType "loss");
    [destruct (training_metrics run) as [[|m metrics]|]; simpl;
     intros H; try contradiction; destruct H as [<-|[]]; split; reflexivity|].
  destruct (String.eqb metricType "lr");
    [destruct (training_metrics run) as [[|m metrics]|]; simpl;
     intros H; try contradiction; destruct H as [<-|[]]; split; reflexivity|].
  destruct (String.eqb metricType "eval");
    [destruct (evaluation_results run) as [[|m results]|]; simpl;
     intros H; try contradiction; destruct H as [<-|[]]; split; reflexivity|].
  intros [].
Qed.

(** X11: in a chart, the series of the runs at positions [i] and [j] of the
    selection have the same colour exactly when [i] and [j] differ by a
    multiple of 12 (the length of the palette): up to 12 runs are told apart
    by colour, the 13th is drawn like the first. *)
Theorem chart_colours_repeat_every_12
  (metricType : string) (selectedRun : Selection) (trainingData : TrainingData)
  (rs : list Run) (i j : nat) (run_i run_j : Run) (d_i d_j : Dataset) :
  selected_runs selectedRun trainingData = Some rs ->
  nth_error rs i = Some run_i ->
  nth_error rs j = Some run_j ->
  In d_i (getChartData_run metricType run_i i) ->
  In d_j (getChartData_run metricType run_j j) ->
  (exists datasets,
      getChartData metricType selectedRun trainingData = Some datasets
      /\ In d_i datasets /\ In d_j datasets)
  /\ (borderColor d_i = borderColor d_j <-> (i mod 12 = j mod 12)%nat).
Proof.
  intros Hsel Hi Hj Hdi Hdj. split.
  - unfold getChartData. rewrite Hsel. eexists. split; [reflexivity|].
    split; apply forEach_push_In; [exists i, run_i | exists j, run_j]; split; assumption.
  - apply getChartData_run_color in Hdi, Hdj.
    destruct Hdi as [-> _]. destruct Hdj as [-> _]. apply color_of_same.
Qed.

Lemma chart_colours_repeat_every_12_two_logs :
  (exists datasets,
      getChartData "loss" all two_logs_merged = Some datasets
      /\ In (line_dataset "B" "#667eea" "#667eea20" 2 (loss_points merged_B)) datasets
      /\ In (line_dataset "A" "#764ba2" "#764ba220" 2 (loss_points file_A)) datasets)
  /\ (borderColor (line_dataset "B" "#667eea" "#667eea20" 2 (loss_points merged_B))
      = borderColor (line_dataset "A" "#764ba2" "#764ba220" 2 (loss_points file_A))
      <-> (0 mod 12 = 1 mod 12)%nat).
Proof.
  apply (chart_colours_repeat_every_12 "loss" all two_logs_merged [merged_B; file_A]
           0 1 merged_B file_A).
  - reflexivity.
  - reflexivity.
  - reflexivity.
  - left. reflexivity.
  - left. reflexivity.
Defined.

Lemma getChartData_run_series (metricType : string) (run : Run) (i j : nat)
  (d d' : Dataset) :
  In d (getChartData_run metricType run i) ->
  In d' (getChartData_run metricType run j) ->
  label d = label d' /\ data d = data d'.
Proof.
  unfold getChartData_run.
  destruct (String.eqb metricType "loss");
    [destruct (training_metrics run) as [[|m metrics]|]; simpl;
     intros H H'; try contradiction; destruct H as [<-|[]], H' as [<-|[]];
     split; reflexivity|].
  destruct (String.eqb metricType "lr");
    [destruct (training_metrics run) as [[|m metrics]|]; simpl;
     intros H H'; try contradiction; destruct H as [<-|[]], H' as [<-|[]];
     split; reflexivity|].
  destruct (String.eqb metricType "eval");
    [destruct (evaluation_results run) as [[|m results]|]; simpl;
     intros H H'; try contradiction; destruct H as [<-|[]], H' as [<-|[]];
     split; reflexivity|].
  intros [].
Qed.

(** X12: a run selected alone is drawn in the first colour of the palette,
    whatever its position in the list of runs; the series of the same run in
    the chart of all runs, with the same label and points, has that colour
    exactly when the position of the run is a multiple of 12. *)
Theorem single_selection_first_colour
  (metricType : string) (trainingData : TrainingData) (i : nat) (run : Run)
  (alone together : list Dataset) (d_alone d_together : Dataset) :
  nth_error (runs trainingData) i = Some run ->
  getChartData metricType (index i) trainingData = Some alone ->
  In d_alone alone ->
  getChartData metricType all trainingData = Some together ->
  In d_together (getChartData_run metricType run i) ->
  borderColor d_alone = "#667eea"%string
  /\ backgroundColor d_alone = "#667eea20"%string
  /\ In d_together together
  /\ label d_together = label d_alone
  /\ data d_together = data d_alone
  /\ (borderColor d_together = borderColor d_alone <-> (i mod 12 = 0)%nat).
Proof.
  intros Hi Halone Hd Htogether Hd'.
  unfold getChartData in Halone, Htogether. simpl in Halone, Htogether.
  rewrite Hi in Halone. injection Halone as <-. injection Htogether as <-.
  simpl in Hd. rewrite app_nil_r in Hd.
  destruct (getChartData_run_series _ _ _ _ _ _ Hd' Hd) as [Hlabel Hdata].
  apply getChartData_run_color in Hd. destruct Hd as [Hb Hg].
  pose proof Hd' as Hc. apply getChartData_run_color in Hc. destruct Hc as [Hb' _].
  split; [exact Hb|]. split; [exact Hg|]. split.
  - apply forEach_push_In. exists i, run. split; [exact Hi | exact Hd'].
  - split; [exact Hlabel|]. split; [exact Hdata|].
    rewrite Hb, Hb'. apply (color_of_same i 0).
Qed.

Lemma single_selection_first_colour_two_logs :
  borderColor (line_dataset "A" "#667eea" "#667eea20" 2 (loss_points file_A))
  = "#667eea"%string
  /\ backgroundColor (line_dataset "A" "#667eea" "#667eea20" 2 (loss_points file_A))
     = "#667eea20"%string
  /\ In (line_dataset "A" "#764ba2" "#764ba220" 2 (loss_points file_A))
       [line_dataset "B" "#667eea" "#667eea20" 2 (loss_points merged_B);
        line_dataset "A" "#764ba2" "#764ba220" 2 (loss_points file_A)]
  /\ label (line_dataset "A" "#764ba2" "#764ba220" 2 (loss_points file_A))
     = label (line_dataset "A" "#667eea" "#667eea20" 2 (loss_points file_A))
  /\ data (line_dataset "A" "#764ba2" "#764ba220" 2 (loss_points file_A))
     = data (line_dataset "A" "#667eea" "#667eea20" 2 (loss_points file_A))
  /\ (borderColor (line_dataset "A" "#764ba2" "#764ba220" 2 (loss_points file_A))
      = borderColor (line_dataset "A" "#667eea" "#667eea20" 2 (loss_points file_A))
      <-> (1 mod 12 = 0)%nat).
Proof.
  apply (single_selection_first_colour "loss" two_logs_merged 1 file_A
           [line_dataset "A" "#667eea" "#667eea20" 2 (loss_points file_A)]
           [line_dataset "B" "#667eea" "#667eea20" 2 (loss_points merged_B);
            line_dataset "A" "#764ba2" "#764ba220" 2 (loss_points file_A)]).
  - reflexivity.
  - reflexivity.
  - left. reflexivity.
  - reflexivity.
  - left. reflexivity.
Defined.

(** *** The selector and the views *)

Lemma populateRunSelector_In (trainingData : TrainingData) (opt : SelectOption) :
  In opt (populateRunSelector trainingData) <->
  opt = {| option_value := all; option_text := "All Runs" |}
  \/ exists i run,
       nth_error (runs trainingData) i = Some run
       /\ opt = {| option_value := index i; option_text := run_name run |}.
Proof.
  unfold populateRunSelector. simpl. rewrite forEach_push_In. split.
  - intros [H|(i & run & Hi & [H|[]])]; [left; symmetry; exact H|].
    right. exists i, run. split; [exact Hi | symmetry; exact H].
  - intros [->|(i & run & Hi & ->)]; [left; reflexivity|].
    right. exists i, run. split; [exact Hi | left; reflexivity].
Qed.

Lemma selected_runs_offered (trainingData : TrainingData) (selectedRun : Selection) :
  (exists opt, In opt (populateRunSelector trainingData) /\ option_value opt = selectedRun)
  <-> exists rs, selected_runs selectedRun trainingData = Some rs.
Proof.
  split.
  - intros (opt & Hin & <-). apply populateRunSelector_In in Hin.
    destruct Hin as [->|(i & run & Hi & ->)]; simpl.
    + eexists. reflexivity.
    + rewrite Hi. eexists. reflexivity.
  - intros (rs & Hrs). destruct selectedRun as [|i]; simpl in Hrs.
    + eexists. split; [left; reflexivity | reflexivity].
    + destruct (nth_error (runs trainingData) i) as [run|] eqn:Hi; [|discriminate].
      exists {| option_value := index i; option_text := run_name run |}.
      split; [|reflexivity]. apply populateRunSelector_In. right.
      exists i, run. split; [exact Hi | reflexivity].
Qed.

(** X13: the selector offers "All Runs" and one option per run, bearing the
    name of the run its value selects; the three metric charts, the summary
    and the config details are produced for exactly the selections the
    selector offers, and the combined chart for exactly the offered
    selections none of whose runs has more training samples than the engine
    accepts as the arguments of one call; every other value makes the view
    throw. *)
Theorem views_return_for_offered_selections
  (toFixed toExponential : float -> nat -> string)
  (Number_toString : float -> string) (member_text toUpperCase : string -> string)
  (argumentLimit : N) (trainingData : TrainingData) :
  List.length (populateRunSelector trainingData) = S (List.length (runs trainingData))
  /\ (forall opt i,
        In opt (populateRunSelector trainingData) -> option_value opt = index i ->
        exists run,
          selected_runs (index i) trainingData = Some [run]
          /\ option_text opt = run_name run)
  /\ (forall selectedRun,
        let offered :=
          exists opt, In opt (populateRunSelector trainingData)
                      /\ option_value opt = selectedRun in
        (forall metricType,
            offered <-> exists datasets,
                          getChartData metricType selectedRun trainingData = Some datasets)
        /\ (offered <-> exists cards,
                          updateRunSummary toFixed toExponential selectedRun trainingData
                          = Some cards)
        /\ (offered <-> exists items,
                          updateConfigDetails Number_toString member_text toUpperCase
                            selectedRun trainingData = Some items)
        /\ ((exists rs, offered
                        /\ selected_runs selectedRun trainingData = Some rs
                        /\ (forall run, In run rs ->
                              (N.of_nat (List.length (entries_of (training_metrics run)))
                               <= argumentLimit)%N))
            <-> exists datasets,
                  getCombinedChartData argumentLimit selectedRun trainingData
                  = Some datasets)).
Proof.
  split; [|split].
  - unfold populateRunSelector. simpl. f_equal.
    generalize 0%nat. induction (runs trainingData) as [|run rs IH]; intros n; simpl;
      [reflexivity | rewrite IH; reflexivity].
  - intros opt i Hin Hv. apply populateRunSelector_In in Hin.
    destruct Hin as [->|(k & run & Hk & ->)]; simpl in Hv; [discriminate|].
    injection Hv as ->. exists run. simpl. rewrite Hk. split; reflexivity.
  - intros selectedRun offered. unfold offered.
    pose proof (selected_runs_offered trainingData selectedRun) as Hoff.
    split; [|split; [|split]].
    + intros metricType. unfold getChartData.
      destruct (selected_runs selectedRun trainingData) as [rs|].
      * split; intros _; [eexists; reflexivity | apply Hoff; eexists; reflexivity].
      * split; [intros H; apply Hoff in H; destruct H as [rs H]; discriminate
               | intros [x H]; discriminate].
    + unfold updateRunSummary.
      destruct (selected_runs selectedRun trainingData) as [rs|].
      * split; intros _; [eexists; reflexivity | apply Hoff; eexists; reflexivity].
      * split; [intros H; apply Hoff in H; destruct H as [rs H]; discriminate
               | intros [x H]; discriminate].
    + unfold updateConfigDetails.
      destruct (selected_runs selectedRun trainingData) as [rs|].
      * split; intros _; [eexists; reflexivity | apply Hoff; eexists; reflexivity].
      * split; [intros H; apply Hoff in H; destruct H as [rs H]; discriminate
               | intros [x H]; discriminate].
    + split.
      * intros (rs & _ & Hsel & Hl). eexists. apply getCombinedChartData_Some.
        exists rs. split; [exact Hsel|]. split; [|reflexivity].
        apply Forall_forall. exact Hl.
      * intros (datasets & H). apply getCombinedChartData_Some in H.
        destruct H as (rs & Hsel & Hl & _). exists rs.
        split; [apply Hoff; exists rs; exact Hsel|]. split; [exact Hsel|].
        apply Forall_forall. exact Hl.
Qed.

(** *** The combined chart *)

Lemma forEach_push_flat_map {X Y Z' : Type} (callback : X -> nat -> list Y) (view : Y -> Z')
  (shown : X -> list Z') (l : list X) (runIndex : nat) :
  (forall run i, map view (callback run i) = shown run) ->
  map view (forEach_push callback runIndex l) = flat_map shown l.
Proof.
  intros H. revert runIndex. induction l as [|run l IH]; intros runIndex; simpl.
  - reflexivity.
  - rewrite map_app, H, IH. reflexivity.
Qed.

(** X14: the combined chart, when it is returned, holds for every selected
    run that has training samples and in the order of the runs, the loss
    series and then the scaled learning-rate series, and nothing for a run
    without samples; the loss series has the points and the colours of the
    run's series in the loss chart. *)
Theorem combined_chart_structure
  (argumentLimit : N) (selectedRun : Selection) (trainingData : TrainingData)
  (rs : list Run) (combined : list Dataset) :
  selected_runs selectedRun trainingData = Some rs ->
  getCombinedChartData argumentLimit selectedRun trainingData = Some combined ->
  exists losses,
    getChartData "loss" selectedRun trainingData = Some losses
    /\ map label combined
       = flat_map (fun run => [run_name run ++ " - Loss"; run_name run ++ " - LR (scaled)"]%string)
           (filter has_training rs)
    /\ List.length combined = (2 * List.length losses)%nat
    /\ (forall d, In d losses ->
          exists d', In d' combined
                     /\ label d' = (label d ++ " - Loss")%string
                     /\ data d' = data d
                     /\ borderColor d' = borderColor d
                     /\ backgroundColor d' = backgroundColor d).
Proof.
  intros Hsel Hchart. apply getCombinedChartData_Some in Hchart.
  destruct Hchart as (rs' & Hsel' & _ & ->). rewrite Hsel in Hsel'. injection Hsel' as <-.
  unfold getChartData. rewrite Hsel.
  eexists. split; [reflexivity|].
  assert (Hlabels : map label (forEach_push combined_series 0 rs)
                    = flat_map
                        (fun run => [run_name run ++ " - Loss";
                                     run_name run ++ " - LR (scaled)"]%string)
                        (filter has_training rs)).
  { clear Hsel.
    rewrite (forEach_push_flat_map _ label
               (fun run => if has_training run
                           then [run_name run ++ " - Loss";
                                 run_name run ++ " - LR (scaled)"]%string
                           else [])).
    - induction rs as [|run l IH]; simpl; [reflexivity|].
      rewrite IH. destruct (has_training run); reflexivity.
    - intros run i. unfold combined_series, has_training.
      destruct (training_metrics run) as [[|m metrics]|]; reflexivity. }
  split; [exact Hlabels|]. split.
  - rewrite <- (length_map label), Hlabels.
    rewrite <- (length_map series (forEach_push (getChartData_run "loss") 0 rs)).
    rewrite (forEach_push_filter _ series has_training
               (fun run => (run_name run, loss_points run))).
    + rewrite length_map. clear Hlabels.
      induction (filter has_training rs) as [|run l IH]; simpl;
        [reflexivity | rewrite IH; lia].
    + intros run i. unfold getChartData_run, has_training, loss_points. simpl.
      destruct (training_metrics run) as [[|m metrics]|]; reflexivity.
  - intros d Hd. apply forEach_push_In in Hd. destruct Hd as (k & run & Hk & Hd).
    unfold getChartData_run in Hd. simpl in Hd.
    destruct (training_metrics run) as [[|m metrics]|] eqn:Htm; try contradiction.
    destruct Hd as [<-|[]].
    eexists. split.
    + apply forEach_push_In. exists k, run. split; [exact Hk|].
      unfold combined_series. rewrite Htm. left. reflexivity.
    + repeat split.
Qed.

Lemma combined_chart_structure_two_logs :
  exists combined,
    getCombinedChartData sample_argumentLimit all two_logs_merged = Some combined
    /\ exists losses,
    getChartData "loss" all two_logs_merged = Some losses
    /\ map label combined
       = flat_map (fun run => [run_name run ++ " - Loss"; run_name run ++ " - LR (scaled)"]%string)
           (filter has_training [merged_B; file_A])
    /\ List.length combined = (2 * List.length losses)%nat
    /\ (forall d, In d losses ->
          exists d', In d' combined
                     /\ label d' = (label d ++ " - Loss")%string
                     /\ data d' = data d
                     /\ borderColor d' = borderColor d
                     /\ backgroundColor d' = backgroundColor d).
Proof.
  eexists. split; [vm_compute; reflexivity|].
  apply (combined_chart_structure sample_argumentLimit all two_logs_merged
           [merged_B; file_A]).
  - reflexivity.
  - vm_compute. reflexivity.
Defined.

(** *** The views of a merged document *)

Lemma strictly_ascending_map {A : Type} (step : A -> Z) (l : list A) :
  strictly_ascending step l -> StronglySorted Z.lt (map step l).
Proof.
  unfold strictly_ascending. induction 1 as [|a l Hs IH Ha]; simpl; constructor.
  - exact IH.
  - rewrite Forall_forall in *. intros s Hs'. apply in_map_iff in Hs'.
    destruct Hs' as (b & <- & Hb). apply Ha. exact Hb.
Qed.

(** X15: in every chart of a merged document, the series of a run merged
    from two or more files has strictly increasing step coordinates. *)
Theorem merged_series_steps_increase
  (trainingData merged : TrainingData) (name metricType : string)
  (selectedRun : Selection) (datasets : list Dataset) (d : Dataset) :
  mergeContinuationLogs trainingData = Some merged ->
  (1 < List.length (group_named name (runs trainingData)))%nat ->
  getChartData metricType selectedRun merged = Some datasets ->
  In d datasets ->
  label d = name ->
  StronglySorted Z.lt (map x (data d)).
Proof.
  intros Hm Hlen Hds Hd Hlabel.
  destruct (long_group _ Hlen) as (first & second & rest & Hg).
  destruct (group_exists_merged _ _ _ _ _ _ Hm Hg) as (m & Hone & Hrun).
  apply mergedRun_fields in Hrun. destruct Hrun as (Hname & _ & _ & Htm & Her & _).
  unfold getChartData in Hds.
  destruct (selected_runs selectedRun merged) as [rs|] eqn:Hsel; [|discriminate].
  injection Hds as <-. apply forEach_push_In in Hd. destruct Hd as (k & run & Hk & Hd).
  assert (Hin : In run (runs merged)).
  { destruct selectedRun as [|i]; simpl in Hsel.
    - injection Hsel as <-. apply (nth_error_In _ _ Hk).
    - destruct (nth_error (runs merged) i) as [r|] eqn:Hi; [|discriminate].
      injection Hsel as <-. apply nth_error_In in Hk. destruct Hk as [<-|[]].
      apply (nth_error_In _ _ Hi). }
  assert (Hrun : run_name run = name -> run = m).
  { intros Hn. assert (H : In run (group_named name (runs merged))).
    { rewrite <- Hn. apply group_named_In. exact Hin. }
    rewrite Hone in H. destruct H as [<-|[]]. reflexivity. }
  unfold getChartData_run in Hd.
  destruct (String.eqb metricType "loss").
  { destruct (training_metrics run) as [[|a metrics]|] eqn:E; try contradiction.
    destruct Hd as [<-|[]]. simpl in Hlabel. rewrite (Hrun Hlabel) in E.
    rewrite Htm in E. injection E as E. cbv [line_dataset data].
    rewrite <- E, map_map. simpl.
    apply strictly_ascending_map, sort_dedup_strictly_ascending. }
  destruct (String.eqb metricType "lr").
  { destruct (training_metrics run) as [[|a metrics]|] eqn:E; try contradiction.
    destruct Hd as [<-|[]]. simpl in Hlabel. rewrite (Hrun Hlabel) in E.
    rewrite Htm in E. injection E as E. cbv [line_dataset data].
    rewrite <- E, map_map. simpl.
    apply strictly_ascending_map, sort_dedup_strictly_ascending. }
  destruct (String.eqb metricType "eval").
  { destruct (evaluation_results run) as [[|a results]|] eqn:E; try contradiction.
    destruct Hd as [<-|[]]. simpl in Hlabel. rewrite (Hrun Hlabel) in E.
    rewrite Her in E. injection E as E. cbv [line_dataset data].
    rewrite <- E, map_map. simpl.
    apply strictly_ascending_map, sort_dedup_strictly_ascending. }
  destruct Hd.
Qed.

Lemma merged_series_steps_increase_two_logs :
  StronglySorted Z.lt
    (map x (data (line_dataset "B" "#667eea" "#667eea20" 2 (loss_points merged_B)))).
Proof.
  apply (merged_series_steps_increase two_logs two_logs_merged "B" "loss" all
           [line_dataset "B" "#667eea" "#667eea20" 2 (loss_points merged_B);
            line_dataset "A" "#764ba2" "#764ba220" 2 (loss_points file_A)]).
  - vm_compute. reflexivity.
  - vm_compute. lia.
  - reflexivity.
  - left. reflexivity.
  - reflexivity.
Defined.

(** *** The summary of a merged run *)

Lemma last_In {A : Type} (l : list A) (d : A) : l <> [] -> In (List.last l d) l.
Proof.
  induction l as [|a l IH]; intros H; [contradiction|].
  destruct l as [|b l]; [left; reflexivity|].
  right. apply IH. discriminate.
Qed.

Lemma ascending_last {A : Type} (step : A -> Z) (l : list A) (d a : A) :
  ascending step l -> In a l -> step a <= step (List.last l d).
Proof.
  unfold ascending. intros Hs. revert a.
  induction Hs as [|x t Ht IH Hx]; intros a Hin; [destruct Hin|].
  destruct t as [|y t'].
  - destruct Hin as [<-|[]]. simpl. lia.
  - change (List.last (x :: y :: t') d) with (List.last (y :: t') d).
    destruct Hin as [<-|Hin]; [|apply IH; exact Hin].
    rewrite Forall_forall in Hx. apply Hx. apply last_In. discriminate.
Qed.

Lemma ascending_first {A : Type} (step : A -> Z) (first : A) (rest : list A) (a : A) :
  ascending step (first :: rest) -> In a (first :: rest) -> step first <= step a.
Proof.
  unfold ascending. intros Hs Hin.
  apply StronglySorted_inv in Hs. destruct Hs as [_ Hf].
  destruct Hin as [<-|Hin]; [lia|]. rewrite Forall_forall in Hf. apply Hf. exact Hin.
Qed.

(** X16: the card of a run merged from two or more files, whose steps are
    integers of at most 2^53 in absolute value, shows as step range the
    smallest and the largest step found in the files, in decimal digits,
    and as training points the number of distinct steps. *)
Theorem merged_summary_range
  (toFixed toExponential : float -> nat -> string)
  (trainingData merged : TrainingData) (name : string) :
  mergeContinuationLogs trainingData = Some merged ->
  (1 < List.length (group_named name (runs trainingData)))%nat ->
  (exists file a, In file (group_named name (runs trainingData))
                  /\ In a (entries_of (training_metrics file))) ->
  (forall file a, In file (group_named name (runs trainingData)) ->
     In a (entries_of (training_metrics file)) -> Z.abs (Metric.step a) <= 2 ^ 53) ->
  exists m lo hi,
    group_named name (runs merged) = [m]
    /\ Z.abs lo <= 2 ^ 53 /\ Z.abs hi <= 2 ^ 53
    /\ stepRange (run_card toFixed toExponential m)
       = (step_text lo ++ " → " ++ step_text hi)%string
    /\ (forall file a, In file (group_named name (runs trainingData)) ->
          In a (entries_of (training_metrics file)) -> lo <= Metric.step a <= hi)
    /\ (exists file a, In file (group_named name (runs trainingData))
                       /\ In a (entries_of (training_metrics file)) /\ Metric.step a = lo)
    /\ (exists file a, In file (group_named name (runs trainingData))
                       /\ In a (entries_of (training_metrics file)) /\ Metric.step a = hi)
    /\ trainingPoints (run_card toFixed toExponential m)
       = List.length
           (nodup Z.eq_dec
              (map Metric.step
                 (flat_map (fun run => entries_of (training_metrics run))
                    (group_named name (runs trainingData))))).
Proof.
  intros Hm Hlen (file0 & a0 & Hfile0 & Ha0) Hrange.
  destruct (long_group _ Hlen) as (first & second & rest & Hg).
  destruct (group_exists_merged _ _ _ _ _ _ Hm Hg) as (m & Hone & Hrun).
  apply mergedRun_fields in Hrun. destruct Hrun as (_ & _ & _ & Htm & _).
  rewrite Hg in *.
  set (all := flat_map (fun run => entries_of (training_metrics run))
                (first :: second :: rest)) in *.
  assert (Hall : forall a, In a all <->
                   exists file, In file (first :: second :: rest)
                                /\ In a (entries_of (training_metrics file)))
    by (intros a; apply in_flat_map).
  pose proof (sort_dedup_strictly_ascending Metric.step all) as Hsorted.
  pose proof (sort_dedup_length Metric.step all) as Hcount.
  assert (Hsteps : forall s, In s (map Metric.step (sort_dedup Metric.step all))
                             <-> In s (map Metric.step all))
    by (intros s; apply sort_dedup_steps).
  assert (Hincl : forall a, In a (sort_dedup Metric.step all) -> In a all)
    by (intros a; apply sort_dedup_incl).
  destruct (sort_dedup Metric.step all) as [|lowest others] eqn:Hmetrics.
  - exfalso. apply (proj2 (Hsteps (Metric.step a0))).
    apply in_map, Hall. exists file0. split; assumption.
  - exists m, (Metric.step lowest),
           (Metric.step (List.last (lowest :: others) lowest)).
    split; [exact Hone|]. split; [|split; [|split; [|split; [|split; [|split]]]]].
    + assert (Hin : In lowest all) by (apply Hincl; left; reflexivity).
      apply Hall in Hin. destruct Hin as (file & Hfile & Ha).
      apply (Hrange file lowest Hfile Ha).
    + assert (Hin : In (List.last (lowest :: others) lowest) all)
        by (apply Hincl, last_In; discriminate).
      apply Hall in Hin. destruct Hin as (file & Hfile & Ha).
      apply (Hrange file _ Hfile Ha).
    + unfold run_card. rewrite Htm. reflexivity.
    + intros file a Hfile Ha.
      assert (Hs : In (Metric.step a) (map Metric.step (lowest :: others))).
      { apply Hsteps, in_map, Hall. exists file. split; assumption. }
      apply in_map_iff in Hs. destruct Hs as (b & Hb & Hin). rewrite <- Hb.
      apply strictly_ascending_ascending in Hsorted. split.
      * apply (ascending_first Metric.step lowest others b Hsorted Hin).
      * apply (ascending_last Metric.step _ lowest b Hsorted Hin).
    + assert (Hin : In lowest all) by (apply Hincl; left; reflexivity).
      apply Hall in Hin. destruct Hin as (file & Hfile & Ha).
      exists file, lowest. repeat split; assumption.
    + assert (Hin : In (List.last (lowest :: others) lowest) all)
        by (apply Hincl, last_In; discriminate).
      apply Hall in Hin. destruct Hin as (file & Hfile & Ha).
      exists file, (List.last (lowest :: others) lowest). repeat split; assumption.
    + unfold run_card. rewrite Htm. simpl trainingPoints. exact Hcount.
Qed.

Lemma merged_summary_range_two_logs :
  exists m lo hi,
    group_named "B" (runs two_logs_merged) = [m]
    /\ Z.abs lo <= 2 ^ 53 /\ Z.abs hi <= 2 ^ 53
    /\ stepRange (run_card sample_toFixed sample_toExponential m)
       = (step_text lo ++ " → " ++ step_text hi)%string
    /\ (forall file a, In file (group_named "B" (runs two_logs)) ->
          In a (entries_of (training_metrics file)) -> lo <= Metric.step a <= hi)
    /\ (exists file a, In file (group_named "B" (runs two_logs))
                       /\ In a (entries_of (training_metrics file)) /\ Metric.step a = lo)
    /\ (exists file a, In file (group_named "B" (runs two_logs))
                       /\ In a (entries_of (training_metrics file)) /\ Metric.step a = hi)
    /\ trainingPoints (run_card sample_toFixed sample_toExponential m)
       = List.length
           (nodup Z.eq_dec
              (map Metric.step
                 (flat_map (fun run => entries_of (training_metrics run))
                    (group_named "B" (runs two_logs))))).
Proof.
  apply (merged_summary_range sample_toFixed sample_toExponential two_logs two_logs_merged "B").
  - vm_compute. reflexivity.
  - vm_compute. lia.
  - exists file_B1, (metric_at 0 10.5 0). split; left; reflexivity.
  - intros file a [<-|[<-|[]]] Ha; simpl in Ha;
      repeat (destruct Ha as [<-|Ha]; [simpl; lia|]); destruct Ha.
Defined.

(** ** More about numbers *)

Lemma is_nan_true (v : float) : is_nan v = true <-> v = nan.
Proof.
  split; [|intros ->; reflexivity].
  unfold is_nan. rewrite eqb_spec, negb_true_iff. intros H.
  rewrite <- (SF2Prim_Prim2SF v).
  destruct (Prim2SF v) as [sign|sign| |sign m e] eqn:E; [| |reflexivity|];
    rewrite SFeqb_refl in H by discriminate; discriminate.
Qed.

Lemma is_infinity_true (v : float) :
  is_infinity v = true <-> v = infinity \/ v = neg_infinity.
Proof.
  split; [|intros [->| ->]; reflexivity].
  unfold is_infinity. rewrite eqb_spec, abs_spec. intros H.
  rewrite <- (SF2Prim_Prim2SF v).
  destruct (Prim2SF v) as [sign|[|]| |sign m e]; try discriminate.
  - right. reflexivity.
  - left. reflexivity.
Qed.

Lemma isFinite_false_iff (v : float) :
  isFinite v = false <-> v = nan \/ v = infinity \/ v = neg_infinity.
Proof.
  rewrite isFinite_false, is_nan_true, is_infinity_true. tauto.
Qed.

(** X17: the card shows "∞" as final evaluation score exactly for the three
    values that are not finite -- plus infinity, but also minus infinity and
    NaN -- and the [toExponential(2)] form of any other last value. *)
Theorem final_score_display
  (toFixed toExponential : float -> nat -> string)
  (run : Run) (first : Eval.t) (rest : list Eval.t) :
  evaluation_results run = Some (first :: rest) ->
  (Eval.paloma (List.last (first :: rest) first) = nan
   \/ Eval.paloma (List.last (first :: rest) first) = infinity
   \/ Eval.paloma (List.last (first :: rest) first) = neg_infinity ->
   finalPaloma (run_card toFixed toExponential run) = "∞"%string)
  /\ (Eval.paloma (List.last (first :: rest) first) <> nan ->
      Eval.paloma (List.last (first :: rest) first) <> infinity ->
      Eval.paloma (List.last (first :: rest) first) <> neg_infinity ->
      finalPaloma (run_card toFixed toExponential run)
      = toExponential (Eval.paloma (List.last (first :: rest) first)) 2%nat).
Proof.
  intros Her.
  set (v := Eval.paloma (List.last (first :: rest) first)).
  assert (Hfin : finalPaloma (run_card toFixed toExponential run)
                 = if isFinite v then toExponential v 2%nat else "∞"%string).
  { unfold run_card. rewrite Her.
    destruct (training_metrics run) as [[|? ?]|]; reflexivity. }
  rewrite Hfin. split.
  - intros H. apply isFinite_false_iff in H. rewrite H. reflexivity.
  - intros H1 H2 H3. destruct (isFinite v) eqn:E; [reflexivity|].
    apply isFinite_false_iff in E. tauto.
Qed.

Lemma final_score_display_two_logs :
  (Eval.paloma (List.last [eval_at 500 1024; eval_at 1000 infinity] (eval_at 500 1024)) = nan
   \/ Eval.paloma (List.last [eval_at 500 1024; eval_at 1000 infinity] (eval_at 500 1024))
      = infinity
   \/ Eval.paloma (List.last [eval_at 500 1024; eval_at 1000 infinity] (eval_at 500 1024))
      = neg_infinity ->
   finalPaloma (run_card sample_toFixed sample_toExponential merged_B) = "∞"%string)
  /\ (Eval.paloma (List.last [eval_at 500 1024; eval_at 1000 infinity] (eval_at 500 1024))
      <> nan ->
      Eval.paloma (List.last [eval_at 500 1024; eval_at 1000 infinity] (eval_at 500 1024))
      <> infinity ->
      Eval.paloma (List.last [eval_at 500 1024; eval_at 1000 infinity] (eval_at 500 1024))
      <> neg_infinity ->
      finalPaloma (run_card sample_toFixed sample_toExponential merged_B)
      = sample_toExponential
          (Eval.paloma (List.last [eval_at 500 1024; eval_at 1000 infinity]
                          (eval_at 500 1024))) 2%nat).
Proof.
  apply (final_score_display sample_toFixed sample_toExponential merged_B
           (eval_at 500 1024) [eval_at 1000 infinity]).
  reflexivity.
Defined.

Lemma div_nan_l (v : float) : (nan / v)%float = nan.
Proof.
  apply Prim2SF_inj. rewrite div_spec.
  change (Prim2SF nan) with S754_nan. reflexivity.
Qed.

Lemma div_nan_r (v : float) : (v / nan)%float = nan.
Proof.
  apply Prim2SF_inj. rewrite div_spec.
  change (Prim2SF nan) with S754_nan.
  destruct (Prim2SF v); reflexivity.
Qed.

Lemma mul_nan_r (v : float) : (v * nan)%float = nan.
Proof.
  apply Prim2SF_inj. rewrite mul_spec.
  change (Prim2SF nan) with S754_nan.
  destruct (Prim2SF v); reflexivity.
Qed.

(** X18: when the loss or the learning rate of one sample of a run is NaN,
    every point of the run's scaled learning-rate series in the returned
    combined chart is NaN: [Math.max] returns NaN and the scale factor is
    lost for the whole series. *)
Theorem nan_sample_spoils_scaled_series
  (argumentLimit : N) (selectedRun : Selection) (trainingData : TrainingData)
  (rs : list Run) (k : nat) (run : Run) (first : Metric.t) (rest : list Metric.t)
  (datasets : list Dataset) :
  selected_runs selectedRun trainingData = Some rs ->
  nth_error rs k = Some run ->
  training_metrics run = Some (first :: rest) ->
  (exists m, In m (first :: rest)
             /\ (is_nan (Metric.loss m) = true \/ is_nan (Metric.learning_rate m) = true)) ->
  getCombinedChartData argumentLimit selectedRun trainingData = Some datasets ->
  exists d,
    In d datasets
    /\ label d = (run_name run ++ " - LR (scaled)")%string
    /\ data d = map (fun m => {| x := Metric.step m; y := nan |}) (first :: rest).
Proof.
  intros Hsel Hk Htm (bad & Hbad & Hnan) Hchart.
  eexists. split.
  - apply (getCombinedChartData_In _ _ _ _ _ _ _ _ Hchart Hsel Hk).
    unfold combined_series. rewrite Htm. right. left. reflexivity.
  - split; [reflexivity|]. cbv [line_dataset data].
    assert (Hscale : (Math_max (map Metric.loss (first :: rest))
                      / Math_max (map Metric.learning_rate (first :: rest)))%float = nan).
    { unfold Math_max. destruct Hnan as [Hnan|Hnan].
      - rewrite (Math_max_from_nan (map Metric.loss (first :: rest))).
        + apply div_nan_l.
        + apply Exists_exists. exists (Metric.loss bad). split; [|exact Hnan].
          apply in_map. exact Hbad.
      - rewrite (Math_max_from_nan (map Metric.learning_rate (first :: rest))).
        + apply div_nan_r.
        + apply Exists_exists. exists (Metric.learning_rate bad). split; [|exact Hnan].
          apply in_map. exact Hbad. }
    rewrite Hscale. apply map_ext. intros m. rewrite mul_nan_r. reflexivity.
Qed.

Lemma nan_sample_spoils_scaled_series_X :
  exists datasets,
    getCombinedChartData sample_argumentLimit all (document [file_nan]) = Some datasets
    /\ exists d,
    In d datasets
    /\ label d = (run_name file_nan ++ " - LR (scaled)")%string
    /\ data d = map (fun m => {| x := Metric.step m; y := nan |})
                  [metric_at 0 10.5 0.5; metric_at 500 nan 0.25].
Proof.
  eexists. split; [vm_compute; reflexivity|].
  apply (nan_sample_spoils_scaled_series sample_argumentLimit all (document [file_nan])
           [file_nan] 0 file_nan
           (metric_at 0 10.5 0.5) [metric_at 500 nan 0.25]).
  - reflexivity.
  - reflexivity.
  - reflexivity.
  - exists (metric_at 500 nan 0.25). split; [right; left; reflexivity | left; reflexivity].
  - vm_compute. reflexivity.
Defined.

Lemma SFltb_not_leb (a b : spec_float) : SFltb a b = true -> SFleb b a = false.
Proof.
  unfold SFleb, SFltb, SFcompare.
  destruct a as [sa|sa| |sa ma ea], b as [sb|sb| |sb mb eb];
    try destruct sa; try destruct sb; by_compare_cases.
Qed.

Lemma ltb_not_leb (a b : float) : (a <? b)%float = true -> (b <=? a)%float = false.
Proof. rewrite ltb_spec, leb_spec. apply SFltb_not_leb. Qed.

Lemma leb_above (low high num : float) :
  (low <=? high)%float = true -> (low <=? num)%float = false ->
  (high <=? num)%float = false.
Proof.
  intros Hlh Hln. destruct (high <=? num)%float eqn:E; [|reflexivity].
  rewrite (leb_trans _ _ _ Hlh E) in Hln. discriminate.
Qed.

(** X19: [formatNumber] abbreviates a number from a thousand on, with the
    suffix of its range (K below a million, M below a billion, B from a
    billion on); a number below a thousand -- every negative number
    included, whatever its magnitude -- and NaN are given by [toString],
    without suffix. *)
Theorem formatNumber_ranges
  (toFixed : float -> nat -> string) (Number_toString : float -> string) (num : float) :
  ((1e9 <=? num)%float = true ->
   formatNumber toFixed Number_toString num
   = (toFixed (num / 1e9)%float 2%nat ++ "B")%string)
  /\ ((1e6 <=? num)%float = true -> (num <? 1e9)%float = true ->
      formatNumber toFixed Number_toString num
      = (toFixed (num / 1e6)%float 2%nat ++ "M")%string)
  /\ ((1e3 <=? num)%float = true -> (num <? 1e6)%float = true ->
      formatNumber toFixed Number_toString num
      = (toFixed (num / 1e3)%float 2%nat ++ "K")%string)
  /\ ((num <? 1e3)%float = true \/ is_nan num = true ->
      formatNumber toFixed Number_toString num = Number_toString num).
Proof.
  unfold formatNumber. split; [|split; [|split]].
  - intros ->. reflexivity.
  - intros H6 H9. rewrite (ltb_not_leb _ _ H9), H6. reflexivity.
  - intros H3 H6. pose proof (ltb_not_leb _ _ H6) as Hn6.
    rewrite (leb_above 1e6 1e9 num eq_refl Hn6), Hn6, H3. reflexivity.
  - intros [H3|Hnan].
    + pose proof (ltb_not_leb _ _ H3) as Hn3.
      pose proof (leb_above 1e3 1e6 num eq_refl Hn3) as Hn6.
      rewrite (leb_above 1e6 1e9 num eq_refl Hn6), Hn6, Hn3. reflexivity.
    + apply is_nan_true in Hnan. subst num. reflexivity.
Qed.

(** A billion and a half, and minus five billion. *)
Example formatNumber_samples :
  formatNumber (fun v _ => if (v =? 1.5)%float then "1.50" else "?")%string
    (fun _ => "-5000000000"%string) 1500000000%float
  = "1.50B"%string
  /\ formatNumber (fun _ _ => "?"%string) (fun _ => "-5000000000"%string)
       (-5000000000)%float
     = "-5000000000"%string.
Proof. split; reflexivity. Qed.

(** ** The configuration details *)

Section SetFacts.

Context {X : Type}.
Variable same : X -> X -> bool.

Lemma Set_fold_In (values set : list X) (v : X) :
  In v (fold_left (Set_add same) values set) -> In v set \/ In v values.
Proof.
  revert set. induction values as [|w values IH]; intros set; simpl; [tauto|].
  intros H. apply IH in H. destruct H as [H|H]; [|right; right; exact H].
  unfold Set_add in H. destruct (existsb (same w) set); [left; exact H|].
  apply in_app_or in H. destruct H as [H|[<-|[]]]; [left; exact H | right; left; reflexivity].
Qed.

Lemma Set_fold_keeps (values set : list X) (v : X) :
  In v set -> In v (fold_left (Set_add same) values set).
Proof.
  revert set. induction values as [|w values IH]; intros set H; simpl; [exact H|].
  apply IH. unfold Set_add. destruct (existsb (same w) set); [exact H|].
  apply in_or_app. left. exact H.
Qed.

(** Values that are all the same as the one member of the set add nothing. *)
Lemma Set_fold_same (values : list X) (c : X) :
  (forall v, In v values -> same v c = true) ->
  fold_left (Set_add same) values [c] = [c].
Proof.
  induction values as [|w values IH]; intros H; simpl; [reflexivity|].
  unfold Set_add at 2. simpl. rewrite (H w (or_introl eq_refl)). simpl.
  apply IH. intros v Hv. apply H. right. exact Hv.
Qed.

End SetFacts.

Lemma Set_fold_names (keys set : list string) (key : string) :
  In key (fold_left (Set_add String.eqb) keys set) <-> In key set \/ In key keys.
Proof.
  split; [apply Set_fold_In|].
  revert set. induction keys as [|k keys IH]; intros set; simpl.
  - intros [H|[]]. exact H.
  - intros [H|[<-|H]].
    + apply Set_fold_keeps. unfold Set_add.
      destruct (existsb (String.eqb k) set); [exact H | apply in_or_app; left; exact H].
    + apply Set_fold_keeps. unfold Set_add.
      destruct (existsb (String.eqb k) set) eqn:E.
      * apply existsb_exists in E. destruct E as (k' & Hk' & E).
        apply String.eqb_eq in E. subst k'. exact Hk'.
      * apply in_or_app. right. left. reflexivity.
    + apply IH. right. exact H.
Qed.

Lemma Set_fold_names_NoDup (keys set : list string) :
  NoDup set -> NoDup (fold_left (Set_add String.eqb) keys set).
Proof.
  revert set. induction keys as [|k keys IH]; intros set H; simpl; [exact H|].
  apply IH. unfold Set_add. destruct (existsb (String.eqb k) set) eqn:E; [exact H|].
  apply NoDup_app; [exact H | repeat constructor; intros [] |].
  intros k' Hk' [<-|[]].
  assert (Hex : existsb (String.eqb k) set = true)
    by (apply existsb_exists; exists k; split; [exact Hk' | apply String.eqb_refl]).
  rewrite Hex in E. discriminate.
Qed.

Lemma Object_keys_In (cfg : Config) (key : string) :
  In key (Object_keys cfg) <-> In key (map fst cfg).
Proof.
  unfold Object_keys. split; apply Permutation_in, Permutation_map.
  - apply Object_entries_perm.
  - apply Permutation_sym, Object_entries_perm.
Qed.

Lemma all_config_keys_spec (rs : list Run) :
  NoDup (all_config_keys rs)
  /\ (forall key,
        In key (all_config_keys rs) <->
        exists run cfg, In run rs /\ config run = Some cfg /\ In key (map fst cfg)).
Proof.
  unfold all_config_keys.
  assert (H : forall allKeys,
             NoDup allKeys ->
             NoDup (fold_left
                      (fun allKeys run =>
                         match config run with
                         | Some cfg => fold_left (Set_add String.eqb) (Object_keys cfg) allKeys
                         | None => allKeys
                         end) rs allKeys)
             /\ (forall key,
                   In key (fold_left
                             (fun allKeys run =>
                                match config run with
                                | Some cfg =>
                                    fold_left (Set_add String.eqb) (Object_keys cfg) allKeys
                                | None => allKeys
                                end) rs allKeys)
                   <-> In key allKeys
                       \/ exists run cfg,
                            In run rs /\ config run = Some cfg /\ In key (map fst cfg))).
  { induction rs as [|run rs IH]; intros allKeys Hnd; simpl.
    - split; [exact Hnd|]. intros key. split; [tauto|].
      intros [H|(run & cfg & [] & _)]. exact H.
    - destruct (config run) as [cfg|] eqn:Ecfg.
      + destruct (IH (fold_left (Set_add String.eqb) (Object_keys cfg) allKeys)
                    (Set_fold_names_NoDup _ _ Hnd)) as [IH1 IH2].
        split; [exact IH1|]. intros key. rewrite IH2, Set_fold_names, Object_keys_In.
        split.
        * intros [[H|H]|(r & c & Hr & Hc & Hk)].
          -- left. exact H.
          -- right. exists run, cfg. split; [left; reflexivity | split; assumption].
          -- right. exists r, c. split; [right; exact Hr | split; assumption].
        * intros [H|(r & c & [<-|Hr] & Hc & Hk)].
          -- left. left. exact H.
          -- left. right. rewrite Ecfg in Hc. injection Hc as <-. exact Hk.
          -- right. exists r, c. split; [exact Hr | split; assumption].
      + destruct (IH allKeys Hnd) as [IH1 IH2].
        split; [exact IH1|]. intros key. rewrite IH2. split.
        * intros [H|(r & c & Hr & Hc & Hk)]; [left; exact H|].
          right. exists r, c. split; [right; exact Hr | split; assumption].
        * intros [H|(r & c & [<-|Hr] & Hc & Hk)]; [left; exact H | |].
          -- rewrite Ecfg in Hc. discriminate.
          -- right. exists r, c. split; [exact Hr | split; assumption]. }
  destruct (H [] (NoDup_nil _)) as [H1 H2]. split; [exact H1|].
  intros key. rewrite H2. split; [intros [[]|H']; exact H' | intros H'; right; exact H'].
Qed.

Lemma own_property_Some_In {V : Type} (o : JsObject V) (key : string) (v : V) :
  own_property o key = Some v -> In key (map fst o).
Proof.
  induction o as [|[k w] o IH]; simpl; [discriminate|].
  destruct (String.eqb k key) eqn:E.
  - apply String.eqb_eq in E. intros _. left. exact E.
  - intros H. right. apply IH. exact H.
Qed.

Lemma same_value_zero_refl (cell : Cell) : same_value_zero cell cell = true.
Proof.
  destruct cell as [n|t|name]; simpl; try apply String.eqb_refl.
  unfold is_nan. destruct (n =? n)%float; reflexivity.
Qed.

(** X20: the config details hold one item per distinct key found in the
    configs of the selected runs, labelled by the key with its underscores
    turned into spaces, in upper case; a run without a config adds no key. *)
Theorem config_details_items
  (Number_toString : float -> string) (member_text toUpperCase : string -> string)
  (selectedRun : Selection) (trainingData : TrainingData) (rs : list Run) :
  selected_runs selectedRun trainingData = Some rs ->
  exists items keys,
    updateConfigDetails Number_toString member_text toUpperCase selectedRun trainingData
    = Some items
    /\ NoDup keys
    /\ (forall key,
          In key keys <->
          exists run cfg, In run rs /\ config run = Some cfg /\ In key (map fst cfg))
    /\ map item_label items = map (fun key => toUpperCase (replace_underscores key)) keys.
Proof.
  intros Hsel. unfold updateConfigDetails. rewrite Hsel.
  exists (map (config_item Number_toString member_text toUpperCase rs) (all_config_keys rs)),
         (all_config_keys rs).
  destruct (all_config_keys_spec rs) as [Hnd Hin].
  split; [reflexivity|]. split; [exact Hnd|]. split; [exact Hin|].
  rewrite map_map. reflexivity.
Qed.

Lemma config_details_items_two_logs :
  exists items keys,
    updateConfigDetails sample_number_text sample_member_text sample_toUpperCase all
      two_logs_merged
    = Some items
    /\ NoDup keys
    /\ (forall key,
          In key keys <->
          exists run cfg,
            In run [merged_B; file_A] /\ config run = Some cfg /\ In key (map fst cfg))
    /\ map item_label items
       = map (fun key => sample_toUpperCase (replace_underscores key)) keys.
Proof.
  apply (config_details_items sample_number_text sample_member_text sample_toUpperCase all
           two_logs_merged [merged_B; file_A]).
  reflexivity.
Defined.

(** X21: a key for which all the selected runs have the same value is shown
    with that value alone, however many runs are selected. *)
Theorem config_agreeing_value
  (Number_toString : float -> string) (member_text toUpperCase : string -> string)
  (selectedRun : Selection) (trainingData : TrainingData) (rs : list Run)
  (key : string) (cell : Cell) :
  selected_runs selectedRun trainingData = Some rs ->
  (exists run cfg, In run rs /\ config run = Some cfg /\ In key (map fst cfg)) ->
  (forall run, In run rs -> config_value key run = cell) ->
  exists items item,
    updateConfigDetails Number_toString member_text toUpperCase selectedRun trainingData
    = Some items
    /\ In item items
    /\ item_label item = toUpperCase (replace_underscores key)
    /\ item_value item = cell_text Number_toString member_text cell.
Proof.
  intros Hsel Hkey Hall. unfold updateConfigDetails. rewrite Hsel.
  eexists _, (config_item Number_toString member_text toUpperCase rs key).
  split; [reflexivity|]. split.
  - apply in_map. apply (proj2 (all_config_keys_spec rs)). exact Hkey.
  - split; [reflexivity|]. unfold config_item. simpl.
    destruct rs as [|run rs']; [destruct Hkey as (r & _ & [] & _)|].
    unfold Set_of. simpl. unfold Set_add at 2. simpl.
    rewrite (Hall run (or_introl eq_refl)).
    rewrite Set_fold_same; [reflexivity|].
    intros v Hv. apply in_map_iff in Hv. destruct Hv as (r & <- & Hr).
    rewrite (Hall r (or_intror Hr)). apply same_value_zero_refl.
Qed.

Lemma config_agreeing_value_sample :
  exists items item,
    updateConfigDetails sample_number_text sample_member_text sample_toUpperCase all
      (document [file_E2; file_B1])
    = Some items
    /\ In item items
    /\ item_label item = sample_toUpperCase (replace_underscores "d_model")
    /\ item_value item = cell_text sample_number_text sample_member_text (CellNumber 96).
Proof.
  apply (config_agreeing_value sample_number_text sample_member_text sample_toUpperCase all
           (document [file_E2; file_B1]) [file_E2; file_B1] "d_model" (CellNumber 96)).
  - reflexivity.
  - exists file_E2. eexists. split; [left; reflexivity|].
    split; [reflexivity | left; reflexivity].
  - intros run [<-|[<-|[]]]; reflexivity.
Defined.

(** X22: when two runs are selected and only the first has a numeric field
    (the second has no config, or a config without the field, whose name is
    then not a member of [Object.prototype]), the field is shown as the
    number, " / " and "N/A". *)
Theorem config_missing_value
  (Number_toString : float -> string) (member_text toUpperCase : string -> string)
  (selectedRun : Selection) (trainingData : TrainingData) (r1 r2 : Run)
  (cfg1 : Config) (key : string) (n : float) :
  selected_runs selectedRun trainingData = Some [r1; r2] ->
  config r1 = Some cfg1 ->
  own_property cfg1 key = Some (ConfigNumber n) ->
  (config r2 = None
   \/ exists cfg2, config r2 = Some cfg2
                   /\ own_property cfg2 key = None
                   /\ inherited key = false) ->
  exists items item,
    updateConfigDetails Number_toString member_text toUpperCase selectedRun trainingData
    = Some items
    /\ In item items
    /\ item_label item = toUpperCase (replace_underscores key)
    /\ item_value item = (Number_toString n ++ " / N/A")%string.
Proof.
  intros Hsel H1 Hown1 H2. unfold updateConfigDetails. rewrite Hsel.
  eexists _, (config_item Number_toString member_text toUpperCase [r1; r2] key).
  split; [reflexivity|]. split.
  - apply in_map. apply (proj2 (all_config_keys_spec [r1; r2])).
    exists r1, cfg1. split; [left; reflexivity|]. split; [exact H1|].
    apply (own_property_Some_In _ _ _ Hown1).
  - split; [reflexivity|]. unfold config_item. simpl.
    unfold config_value. rewrite H1. unfold config_get. rewrite Hown1.
    destruct H2 as [H2|(cfg2 & H2 & Hown2 & Hinh)]; rewrite H2.
    + reflexivity.
    + rewrite Hown2, Hinh. reflexivity.
Qed.

Lemma config_missing_value_sample :
  exists items item,
    updateConfigDetails sample_number_text sample_member_text sample_toUpperCase all
      two_logs_merged
    = Some items
    /\ In item items
    /\ item_label item = sample_toUpperCase (replace_underscores "d_model")
    /\ item_value item = (sample_number_text 96 ++ " / N/A")%string.
Proof.
  apply (config_missing_value sample_number_text sample_member_text sample_toUpperCase all
           two_logs_merged merged_B file_A
           [("d_model"%string, ConfigNumber 96)] "d_model" 96).
  - reflexivity.
  - reflexivity.
  - reflexivity.
  - left. reflexivity.
Defined.

(** The config details of the merged sample document: run A has no config,
    and the label keeps its case under the stand-in for [toUpperCase]. *)
Example config_details_of_two_logs :
  updateConfigDetails sample_number_text sample_member_text sample_toUpperCase all
    two_logs_merged
  = Some [{| item_label := "d model"; item_value := "96 / N/A" |}]%string.
Proof. vm_compute. reflexivity. Qed.
